(** * Component view and editor panel controllers

    A shallow embedding of the two controllers of the note application:

    - [ComponentView]: [ComponentViewCtrl] of
      [app/assets/javascripts/directives/views/componentView.js];
    - [Editor]: [EditorCtrl], the editor panel controller;
    - [EditorKeys], [EditorMenus], [EditorTags]: the tab key observer, the
      menu flags and the tag strings of the editor panel.

    Controller methods are written in a state-and-exception monad over a
    "world": the controller's own fields, the [$timeout] service, the
    document listener table, the collaborators' observable state and the
    log of calls made to collaborators.  A JavaScript [TypeError] leaves
    the mutations made before it in place, exactly as in the source. *)

From Stdlib Require Import ZArith String Lia.
From stdpp Require Import gmap strings list.

(** ** JavaScript values *)

(** Object identity: [===] on two objects compares references. *)
Definition ref := nat.

(** A value that may be [undefined]/[null] or a string is truthy exactly
    when it is a non-empty string. *)
Definition truthy (o : option string) : bool :=
  match o with
  | Some s => negb (String.eqb s "")
  | None => false
  end.

(** A JavaScript string that is measured or cut is its sequence of UTF-16
    code units: [length], [substring] and the selection offsets of a text
    area count code units, not characters and not bytes.  Identifiers and
    fixed messages, which are only compared, stay Rocq strings. *)
Definition jsstring := list N.

(** The code units of a literal of ASCII characters. *)
Definition units (s : string) : jsstring :=
  Ascii.N_of_ascii <$> String.list_ascii_of_string s.

(** [s.substring(from, to)]: each offset is clamped to the length, and the
    two are swapped when they are out of order. *)
Definition substring (from to : nat) (s : jsstring) : jsstring :=
  take (Nat.max from to - Nat.min from to) (drop (Nat.min from to) s).

(** [s.substring(from)] *)
Definition substringFrom (from : nat) (s : jsstring) : jsstring :=
  drop from s.

Inductive Exn := TypeError.

Inductive Res (A : Type) :=
| Val (a : A)
| Thrown (e : Exn).
Arguments Val {A} a.
Arguments Thrown {A} e.

(** ** The state-and-exception monad *)

Definition M (W A : Type) : Type := W → Res A * W.

#[global] Instance M_ret {W} : MRet (M W) := λ A a w, (Val a, w).

#[global] Instance M_bind {W} : MBind (M W) := λ A B f m w,
  match m w with
  | (Val a, w') => f a w'
  | (Thrown e, w') => (Thrown e, w')
  end.

Definition gets {W A} (f : W → A) : M W A := λ w, (Val (f w), w).
Definition modify {W} (f : W → W) : M W unit := λ w, (Val tt, f w).
Definition throw {W A} (e : Exn) : M W A := λ w, (Thrown e, w).

(** [if (c) { body }] *)
Definition when {W} (c : bool) (body : M W unit) : M W unit :=
  if c then body else mret tt.

(** Dereferencing a possibly-null reference. *)
Definition deref {W A} (o : option A) : M W A :=
  match o with
  | Some a => mret a
  | None => throw TypeError
  end.

(** Calling a possibly-null function. *)
Definition callable {W} (f : bool) : M W unit :=
  if f then mret tt else throw TypeError.

(** The world in which a handler leaves the program, whether it returned
    or threw. *)
Definition exec {W A} (m : M W A) (w : W) : W := (m w).2.

(** A property of the world that a computation keeps, whether it returns
    or throws. *)
Definition preserves {W A} (P : W → Prop) (m : M W A) : Prop :=
  ∀ w, P w → P (exec m w).

(** ** The [$timeout] service *)

Section TimeoutService.
Context {C : Type}.

Record Timer := { timer_id : nat; timer_due : Z; timer_cb : C }.

Record TimeoutService := { next_id : nat; pending : list Timer }.

Definition no_timers : TimeoutService := {| next_id := 0; pending := [] |}.

(** [$timeout(cb, delay)]: the handle of the new timer and the service. *)
Definition schedule (now delay : Z) (cb : C) (s : TimeoutService)
  : nat * TimeoutService :=
  (next_id s,
   {| next_id := S (next_id s);
      pending := pending s ++
        [{| timer_id := next_id s; timer_due := (now + delay)%Z; timer_cb := cb |}] |}).

(** [$timeout.cancel(handle)]: a handle whose timer already ran or was
    cancelled is ignored. *)
Definition cancel (id : nat) (s : TimeoutService) : TimeoutService :=
  {| next_id := next_id s;
     pending := filter (λ t, timer_id t ≠ id) (pending s) |}.

Definition find_timer (id : nat) (s : TimeoutService) : option Timer :=
  head (filter (λ t, timer_id t = id) (pending s)).

(** The event loop takes a timer out of the queue once it is due. *)
Definition take_due (now : Z) (id : nat) (s : TimeoutService)
  : option (C * TimeoutService) :=
  match find_timer id s with
  | Some t =>
      if bool_decide (timer_due t ≤ now)%Z
      then Some (timer_cb t, cancel id s)
      else None
  | None => None
  end.

(** [cancel] of a handle that may be undefined. *)
Definition cancel_handle (handle : option nat) (s : TimeoutService)
  : TimeoutService :=
  match handle with
  | Some id => cancel id s
  | None => s
  end.

(** Handles are never reused: the pending timers carry distinct handles,
    all issued before [next_id]. *)
Definition fresh_ids (s : TimeoutService) : Prop :=
  NoDup (timer_id <$> pending s) ∧
  Forall (λ t, timer_id t < next_id s) (pending s).
End TimeoutService.
Arguments Timer : clear implicits.
Arguments TimeoutService : clear implicits.

(** ** Component records *)

(** The fields and methods of [SNComponent] the controllers read.  The
    methods [hasValidHostedUrl], [isEditor], [isDefaultEditor] and
    [isExplicitlyEnabledForItem] belong to the item library; their results
    are fields here ([isExplicitlyEnabledForItem] by the uuid of the item). *)
Record SNComponent := {
  area : string;
  name : string;
  active : bool;
  offlineOnly : bool;
  local_url : option string;
  hasValidHostedUrl : bool;
  valid_until : option Z;
  isEditor : bool;
  isDefaultEditor : bool;
  isExplicitlyEnabledForItem : string → bool;
}.

(** * The component view controller *)

Module ComponentView.

(** The maximum amount of time to wait for a component to load before
    displaying an error. *)
Definition MAX_LOAD_THRESHOLD : Z := 4000.

(** [document.visibilityState] *)
Inductive VisibilityState := Visible | Hidden.

(** Reading [iframe.contentWindow.origin] either throws (it is only allowed
    in the desktop application) or yields a possibly empty value. *)
Inductive OriginAccess :=
| OriginThrows
| Origin (o : option string).

Record Iframe := { contentWindow_origin : OriginAccess }.

(** The fields of [ComponentViewCtrl].  The bindings [application] and
    [onLoad], the disposers and the bound listener [onVisibilityChange] are
    [true] while they hold a value and [false] once nulled. *)
Record Ctrl := {
  component : option ref;
  application : bool;
  manualDealloc : bool;
  onLoad : bool;
  cleanUpOn : bool;
  unregisterComponentHandler : bool;
  unregisterDesktopObserver : bool;
  onVisibilityChange : bool;
  didRegisterObservers : bool;
  lastComponentValue : option ref;
  componentValid : bool;
  reloading : bool;
  loading : bool;
  issueLoading : bool;
  didAttemptReload : bool;
  expired : bool;
  error : option string;
  loadTimeout : option nat;
}.

(** The closures handed to [$timeout]. *)
Inductive Callback :=
| CbHandleActivation
| CbLoadTimeout
| CbLoadSettled (desktopError : bool)
| CbReloadingDone.

(** The code that runs once a promise of the component manager resolves. *)
Inductive Continuation :=
| AfterRegisterComponent
| AfterReloadComponent
| AfterRegisterComponentWindow (desktopError : bool).

(** Calls made to collaborators, and exceptions nobody caught. *)
Inductive Effect :=
| RegisterComponent (c : ref)
| DeregisterComponent (c : ref)
| ReloadComponent (c : option ref) (force : bool)
| SetReadonlyStateForComponent (c : ref) (readonly : bool)
| RegisterComponentWindow (c : option ref)
| HandleSetSizeEvent (c : ref)
| Broadcast (event : string)
| OnLoad (c : option ref)
| Uncaught (e : Exn)
| UnhandledRejection (e : Exn).

(** What the controller reads from its surroundings. *)
Record Env := {
  heap : ref → SNComponent;
  isDesktopApplication : bool;
  visibilityState : VisibilityState;
  componentManager : bool;
  iframeForComponent : option Iframe;
  lockReadonly : bool;
}.

Record World := {
  ctrl : Ctrl;
  timeouts : TimeoutService Callback;
  promises : list Continuation;
  visibilityListener : bool;
  iframeOnload : bool;
  scopeListening : bool;
  handlerRegistered : bool;
  desktopObserving : bool;
  log : list Effect;
  clock : Z;
  env : Env;
}.

(** Field updates. *)
Definition set_component (v : option ref) (c : Ctrl) : Ctrl :=
  {| component := v; application := application c; manualDealloc :=
     manualDealloc c; onLoad := onLoad c; cleanUpOn := cleanUpOn c;
     unregisterComponentHandler := unregisterComponentHandler c;
     unregisterDesktopObserver := unregisterDesktopObserver c;
     onVisibilityChange := onVisibilityChange c; didRegisterObservers :=
     didRegisterObservers c; lastComponentValue := lastComponentValue c;
     componentValid := componentValid c; reloading := reloading c; loading :=
     loading c; issueLoading := issueLoading c; didAttemptReload :=
     didAttemptReload c; expired := expired c; error := error c; loadTimeout
     := loadTimeout c |}.
Definition set_application (v : bool) (c : Ctrl) : Ctrl :=
  {| component := component c; application := v; manualDealloc :=
     manualDealloc c; onLoad := onLoad c; cleanUpOn := cleanUpOn c;
     unregisterComponentHandler := unregisterComponentHandler c;
     unregisterDesktopObserver := unregisterDesktopObserver c;
     onVisibilityChange := onVisibilityChange c; didRegisterObservers :=
     didRegisterObservers c; lastComponentValue := lastComponentValue c;
     componentValid := componentValid c; reloading := reloading c; loading :=
     loading c; issueLoading := issueLoading c; didAttemptReload :=
     didAttemptReload c; expired := expired c; error := error c; loadTimeout
     := loadTimeout c |}.
Definition set_onLoad (v : bool) (c : Ctrl) : Ctrl :=
  {| component := component c; application := application c; manualDealloc :=
     manualDealloc c; onLoad := v; cleanUpOn := cleanUpOn c;
     unregisterComponentHandler := unregisterComponentHandler c;
     unregisterDesktopObserver := unregisterDesktopObserver c;
     onVisibilityChange := onVisibilityChange c; didRegisterObservers :=
     didRegisterObservers c; lastComponentValue := lastComponentValue c;
     componentValid := componentValid c; reloading := reloading c; loading :=
     loading c; issueLoading := issueLoading c; didAttemptReload :=
     didAttemptReload c; expired := expired c; error := error c; loadTimeout
     := loadTimeout c |}.
Definition set_cleanUpOn (v : bool) (c : Ctrl) : Ctrl :=
  {| component := component c; application := application c; manualDealloc :=
     manualDealloc c; onLoad := onLoad c; cleanUpOn := v;
     unregisterComponentHandler := unregisterComponentHandler c;
     unregisterDesktopObserver := unregisterDesktopObserver c;
     onVisibilityChange := onVisibilityChange c; didRegisterObservers :=
     didRegisterObservers c; lastComponentValue := lastComponentValue c;
     componentValid := componentValid c; reloading := reloading c; loading :=
     loading c; issueLoading := issueLoading c; didAttemptReload :=
     didAttemptReload c; expired := expired c; error := error c; loadTimeout
     := loadTimeout c |}.
Definition set_unregisterComponentHandler (v : bool) (c : Ctrl) : Ctrl :=
  {| component := component c; application := application c; manualDealloc :=
     manualDealloc c; onLoad := onLoad c; cleanUpOn := cleanUpOn c;
     unregisterComponentHandler := v; unregisterDesktopObserver :=
     unregisterDesktopObserver c; onVisibilityChange := onVisibilityChange c;
     didRegisterObservers := didRegisterObservers c; lastComponentValue :=
     lastComponentValue c; componentValid := componentValid c; reloading :=
     reloading c; loading := loading c; issueLoading := issueLoading c;
     didAttemptReload := didAttemptReload c; expired := expired c; error :=
     error c; loadTimeout := loadTimeout c |}.
Definition set_unregisterDesktopObserver (v : bool) (c : Ctrl) : Ctrl :=
  {| component := component c; application := application c; manualDealloc :=
     manualDealloc c; onLoad := onLoad c; cleanUpOn := cleanUpOn c;
     unregisterComponentHandler := unregisterComponentHandler c;
     unregisterDesktopObserver := v; onVisibilityChange := onVisibilityChange
     c; didRegisterObservers := didRegisterObservers c; lastComponentValue :=
     lastComponentValue c; componentValid := componentValid c; reloading :=
     reloading c; loading := loading c; issueLoading := issueLoading c;
     didAttemptReload := didAttemptReload c; expired := expired c; error :=
     error c; loadTimeout := loadTimeout c |}.
Definition set_onVisibilityChange (v : bool) (c : Ctrl) : Ctrl :=
  {| component := component c; application := application c; manualDealloc :=
     manualDealloc c; onLoad := onLoad c; cleanUpOn := cleanUpOn c;
     unregisterComponentHandler := unregisterComponentHandler c;
     unregisterDesktopObserver := unregisterDesktopObserver c;
     onVisibilityChange := v; didRegisterObservers := didRegisterObservers c;
     lastComponentValue := lastComponentValue c; componentValid :=
     componentValid c; reloading := reloading c; loading := loading c;
     issueLoading := issueLoading c; didAttemptReload := didAttemptReload c;
     expired := expired c; error := error c; loadTimeout := loadTimeout c |}.
Definition set_didRegisterObservers (v : bool) (c : Ctrl) : Ctrl :=
  {| component := component c; application := application c; manualDealloc :=
     manualDealloc c; onLoad := onLoad c; cleanUpOn := cleanUpOn c;
     unregisterComponentHandler := unregisterComponentHandler c;
     unregisterDesktopObserver := unregisterDesktopObserver c;
     onVisibilityChange := onVisibilityChange c; didRegisterObservers := v;
     lastComponentValue := lastComponentValue c; componentValid :=
     componentValid c; reloading := reloading c; loading := loading c;
     issueLoading := issueLoading c; didAttemptReload := didAttemptReload c;
     expired := expired c; error := error c; loadTimeout := loadTimeout c |}.
Definition set_lastComponentValue (v : option ref) (c : Ctrl) : Ctrl :=
  {| component := component c; application := application c; manualDealloc :=
     manualDealloc c; onLoad := onLoad c; cleanUpOn := cleanUpOn c;
     unregisterComponentHandler := unregisterComponentHandler c;
     unregisterDesktopObserver := unregisterDesktopObserver c;
     onVisibilityChange := onVisibilityChange c; didRegisterObservers :=
     didRegisterObservers c; lastComponentValue := v; componentValid :=
     componentValid c; reloading := reloading c; loading := loading c;
     issueLoading := issueLoading c; didAttemptReload := didAttemptReload c;
     expired := expired c; error := error c; loadTimeout := loadTimeout c |}.
Definition set_componentValid (v : bool) (c : Ctrl) : Ctrl :=
  {| component := component c; application := application c; manualDealloc :=
     manualDealloc c; onLoad := onLoad c; cleanUpOn := cleanUpOn c;
     unregisterComponentHandler := unregisterComponentHandler c;
     unregisterDesktopObserver := unregisterDesktopObserver c;
     onVisibilityChange := onVisibilityChange c; didRegisterObservers :=
     didRegisterObservers c; lastComponentValue := lastComponentValue c;
     componentValid := v; reloading := reloading c; loading := loading c;
     issueLoading := issueLoading c; didAttemptReload := didAttemptReload c;
     expired := expired c; error := error c; loadTimeout := loadTimeout c |}.
Definition set_reloading (v : bool) (c : Ctrl) : Ctrl :=
  {| component := component c; application := application c; manualDealloc :=
     manualDealloc c; onLoad := onLoad c; cleanUpOn := cleanUpOn c;
     unregisterComponentHandler := unregisterComponentHandler c;
     unregisterDesktopObserver := unregisterDesktopObserver c;
     onVisibilityChange := onVisibilityChange c; didRegisterObservers :=
     didRegisterObservers c; lastComponentValue := lastComponentValue c;
     componentValid := componentValid c; reloading := v; loading := loading c;
     issueLoading := issueLoading c; didAttemptReload := didAttemptReload c;
     expired := expired c; error := error c; loadTimeout := loadTimeout c |}.
Definition set_loading (v : bool) (c : Ctrl) : Ctrl :=
  {| component := component c; application := application c; manualDealloc :=
     manualDealloc c; onLoad := onLoad c; cleanUpOn := cleanUpOn c;
     unregisterComponentHandler := unregisterComponentHandler c;
     unregisterDesktopObserver := unregisterDesktopObserver c;
     onVisibilityChange := onVisibilityChange c; didRegisterObservers :=
     didRegisterObservers c; lastComponentValue := lastComponentValue c;
     componentValid := componentValid c; reloading := reloading c; loading :=
     v; issueLoading := issueLoading c; didAttemptReload := didAttemptReload
     c; expired := expired c; error := error c; loadTimeout := loadTimeout c
     |}.
Definition set_issueLoading (v : bool) (c : Ctrl) : Ctrl :=
  {| component := component c; application := application c; manualDealloc :=
     manualDealloc c; onLoad := onLoad c; cleanUpOn := cleanUpOn c;
     unregisterComponentHandler := unregisterComponentHandler c;
     unregisterDesktopObserver := unregisterDesktopObserver c;
     onVisibilityChange := onVisibilityChange c; didRegisterObservers :=
     didRegisterObservers c; lastComponentValue := lastComponentValue c;
     componentValid := componentValid c; reloading := reloading c; loading :=
     loading c; issueLoading := v; didAttemptReload := didAttemptReload c;
     expired := expired c; error := error c; loadTimeout := loadTimeout c |}.
Definition set_didAttemptReload (v : bool) (c : Ctrl) : Ctrl :=
  {| component := component c; application := application c; manualDealloc :=
     manualDealloc c; onLoad := onLoad c; cleanUpOn := cleanUpOn c;
     unregisterComponentHandler := unregisterComponentHandler c;
     unregisterDesktopObserver := unregisterDesktopObserver c;
     onVisibilityChange := onVisibilityChange c; didRegisterObservers :=
     didRegisterObservers c; lastComponentValue := lastComponentValue c;
     componentValid := componentValid c; reloading := reloading c; loading :=
     loading c; issueLoading := issueLoading c; didAttemptReload := v; expired
     := expired c; error := error c; loadTimeout := loadTimeout c |}.
Definition set_expired (v : bool) (c : Ctrl) : Ctrl :=
  {| component := component c; application := application c; manualDealloc :=
     manualDealloc c; onLoad := onLoad c; cleanUpOn := cleanUpOn c;
     unregisterComponentHandler := unregisterComponentHandler c;
     unregisterDesktopObserver := unregisterDesktopObserver c;
     onVisibilityChange := onVisibilityChange c; didRegisterObservers :=
     didRegisterObservers c; lastComponentValue := lastComponentValue c;
     componentValid := componentValid c; reloading := reloading c; loading :=
     loading c; issueLoading := issueLoading c; didAttemptReload :=
     didAttemptReload c; expired := v; error := error c; loadTimeout :=
     loadTimeout c |}.
Definition set_error (v : option string) (c : Ctrl) : Ctrl :=
  {| component := component c; application := application c; manualDealloc :=
     manualDealloc c; onLoad := onLoad c; cleanUpOn := cleanUpOn c;
     unregisterComponentHandler := unregisterComponentHandler c;
     unregisterDesktopObserver := unregisterDesktopObserver c;
     onVisibilityChange := onVisibilityChange c; didRegisterObservers :=
     didRegisterObservers c; lastComponentValue := lastComponentValue c;
     componentValid := componentValid c; reloading := reloading c; loading :=
     loading c; issueLoading := issueLoading c; didAttemptReload :=
     didAttemptReload c; expired := expired c; error := v; loadTimeout :=
     loadTimeout c |}.
Definition set_loadTimeout (v : option nat) (c : Ctrl) : Ctrl :=
  {| component := component c; application := application c; manualDealloc :=
     manualDealloc c; onLoad := onLoad c; cleanUpOn := cleanUpOn c;
     unregisterComponentHandler := unregisterComponentHandler c;
     unregisterDesktopObserver := unregisterDesktopObserver c;
     onVisibilityChange := onVisibilityChange c; didRegisterObservers :=
     didRegisterObservers c; lastComponentValue := lastComponentValue c;
     componentValid := componentValid c; reloading := reloading c; loading :=
     loading c; issueLoading := issueLoading c; didAttemptReload :=
     didAttemptReload c; expired := expired c; error := error c; loadTimeout
     := v |}.

Definition set_ctrl (v : Ctrl) (w : World) : World :=
  {| ctrl := v; timeouts := timeouts w; promises := promises w;
     visibilityListener := visibilityListener w; iframeOnload := iframeOnload
     w; scopeListening := scopeListening w; handlerRegistered :=
     handlerRegistered w; desktopObserving := desktopObserving w; log := log
     w; clock := clock w; env := env w |}.
Definition set_timeouts (v : TimeoutService Callback) (w : World) : World :=
  {| ctrl := ctrl w; timeouts := v; promises := promises w; visibilityListener
     := visibilityListener w; iframeOnload := iframeOnload w; scopeListening
     := scopeListening w; handlerRegistered := handlerRegistered w;
     desktopObserving := desktopObserving w; log := log w; clock := clock w;
     env := env w |}.
Definition set_promises (v : list Continuation) (w : World) : World :=
  {| ctrl := ctrl w; timeouts := timeouts w; promises := v; visibilityListener
     := visibilityListener w; iframeOnload := iframeOnload w; scopeListening
     := scopeListening w; handlerRegistered := handlerRegistered w;
     desktopObserving := desktopObserving w; log := log w; clock := clock w;
     env := env w |}.
Definition set_visibilityListener (v : bool) (w : World) : World :=
  {| ctrl := ctrl w; timeouts := timeouts w; promises := promises w;
     visibilityListener := v; iframeOnload := iframeOnload w; scopeListening
     := scopeListening w; handlerRegistered := handlerRegistered w;
     desktopObserving := desktopObserving w; log := log w; clock := clock w;
     env := env w |}.
Definition set_iframeOnload (v : bool) (w : World) : World :=
  {| ctrl := ctrl w; timeouts := timeouts w; promises := promises w;
     visibilityListener := visibilityListener w; iframeOnload := v;
     scopeListening := scopeListening w; handlerRegistered :=
     handlerRegistered w; desktopObserving := desktopObserving w; log := log
     w; clock := clock w; env := env w |}.
Definition set_scopeListening (v : bool) (w : World) : World :=
  {| ctrl := ctrl w; timeouts := timeouts w; promises := promises w;
     visibilityListener := visibilityListener w; iframeOnload := iframeOnload
     w; scopeListening := v; handlerRegistered := handlerRegistered w;
     desktopObserving := desktopObserving w; log := log w; clock := clock w;
     env := env w |}.
Definition set_handlerRegistered (v : bool) (w : World) : World :=
  {| ctrl := ctrl w; timeouts := timeouts w; promises := promises w;
     visibilityListener := visibilityListener w; iframeOnload := iframeOnload
     w; scopeListening := scopeListening w; handlerRegistered := v;
     desktopObserving := desktopObserving w; log := log w; clock := clock w;
     env := env w |}.
Definition set_desktopObserving (v : bool) (w : World) : World :=
  {| ctrl := ctrl w; timeouts := timeouts w; promises := promises w;
     visibilityListener := visibilityListener w; iframeOnload := iframeOnload
     w; scopeListening := scopeListening w; handlerRegistered :=
     handlerRegistered w; desktopObserving := v; log := log w; clock := clock
     w; env := env w |}.
Definition set_log (v : list Effect) (w : World) : World :=
  {| ctrl := ctrl w; timeouts := timeouts w; promises := promises w;
     visibilityListener := visibilityListener w; iframeOnload := iframeOnload
     w; scopeListening := scopeListening w; handlerRegistered :=
     handlerRegistered w; desktopObserving := desktopObserving w; log := v;
     clock := clock w; env := env w |}.
Definition set_clock (v : Z) (w : World) : World :=
  {| ctrl := ctrl w; timeouts := timeouts w; promises := promises w;
     visibilityListener := visibilityListener w; iframeOnload := iframeOnload
     w; scopeListening := scopeListening w; handlerRegistered :=
     handlerRegistered w; desktopObserving := desktopObserving w; log := log
     w; clock := v; env := env w |}.
Definition set_env (v : Env) (w : World) : World :=
  {| ctrl := ctrl w; timeouts := timeouts w; promises := promises w;
     visibilityListener := visibilityListener w; iframeOnload := iframeOnload
     w; scopeListening := scopeListening w; handlerRegistered :=
     handlerRegistered w; desktopObserving := desktopObserving w; log := log
     w; clock := clock w; env := v |}.
Definition set_visibilityState (v : VisibilityState) (e : Env) : Env :=
  {| heap := heap e; isDesktopApplication := isDesktopApplication e;
     visibilityState := v; componentManager := componentManager e;
     iframeForComponent := iframeForComponent e;
     lockReadonly := lockReadonly e |}.

(** ** Access to the world *)

Definition getc {A} (f : Ctrl → A) : M World A := gets (λ w, f (ctrl w)).
Definition setc (f : Ctrl → Ctrl) : M World unit :=
  modify (λ w, set_ctrl (f (ctrl w)) w).
Definition emit (e : Effect) : M World unit :=
  modify (λ w, set_log (log w ++ [e]) w).

(** [this.$timeout(cb, delay)] *)
Definition timeout (cb : Callback) (delay : Z) : M World nat := λ w,
  let '(id, s) := schedule (clock w) delay cb (timeouts w) in
  (Val id, set_timeouts s w).

(** [this.$timeout.cancel(handle)]; an undefined handle is ignored. *)
Definition timeout_cancel (handle : option nat) : M World unit :=
  match handle with
  | Some id => modify (λ w, set_timeouts (cancel id (timeouts w)) w)
  | None => mret tt
  end.

(** [await promise]: the rest of the function runs when the promise
    resolves. *)
Definition await (k : Continuation) : M World unit :=
  modify (λ w, set_promises (promises w ++ [k]) w).

(** Calling an [async] method without awaiting it: an exception inside it
    rejects the returned promise and does not reach the caller. *)
Definition async (m : M World unit) : M World unit := λ w,
  match m w with
  | (Val _, w') => (Val tt, w')
  | (Thrown e, w') => (Val tt, set_log (log w' ++ [UnhandledRejection e]) w')
  end.

(** [this.application.componentManager] *)
Definition manager : M World unit :=
  app ← getc application;
  callable app;;
  cm ← gets (λ w, componentManager (env w));
  callable cm.

(** [document.addEventListener('visibilitychange', this.onVisibilityChange)]:
    the same bound function is registered at most once, and a null
    listener is ignored. *)
Definition addVisibilityListener : M World unit :=
  f ← getc onVisibilityChange;
  when f (modify (set_visibilityListener true)).

(** [document.removeEventListener('visibilitychange', this.onVisibilityChange)] *)
Definition removeVisibilityListener : M World unit :=
  f ← getc onVisibilityChange;
  when f (modify (set_visibilityListener false)).

(** ** The constructor *)

Definition constructed (c : option ref) (md ol : bool) : Ctrl :=
  {| component := c; application := true; manualDealloc := md; onLoad := ol;
     cleanUpOn := true; unregisterComponentHandler := false;
     unregisterDesktopObserver := false; onVisibilityChange := true;
     didRegisterObservers := false; lastComponentValue := None;
     componentValid := true; reloading := false; loading := false;
     issueLoading := false; didAttemptReload := false; expired := false;
     error := None; loadTimeout := None |}.

Definition mounted (c : option ref) (md ol : bool) (now : Z) (e : Env) : World :=
  {| ctrl := constructed c md ol; timeouts := no_timers; promises := [];
     visibilityListener := false; iframeOnload := false;
     scopeListening := true; handlerRegistered := false;
     desktopObserving := false; log := []; clock := now; env := e |}.

(** ** Methods *)

Definition reloadStatus (doManualReload : bool) : M World unit :=
  setc (set_reloading true);;
  c ← getc component;
  previouslyValid ← getc componentValid;
  r ← deref c;
  comp ← gets (λ w, heap (env w) r);
  desktop ← gets (λ w, isDesktopApplication (env w));
  let offlineRestricted := offlineOnly comp && negb desktop in
  let hasUrlError :=
    if desktop
    then negb (truthy (local_url comp)) && negb (hasValidHostedUrl comp)
    else negb (hasValidHostedUrl comp) in
  now ← gets clock;
  setc (set_expired
          match valid_until comp with
          | Some d => bool_decide (d ≤ now)%Z
          | None => false
          end);;
  manager;;
  readonlyLocked ← gets (λ w, lockReadonly (env w));
  when (negb readonlyLocked) (emit (SetReadonlyStateForComponent r true));;
  setc (set_componentValid (negb offlineRestricted && negb hasUrlError));;
  valid ← getc componentValid;
  when (negb valid) (setc (set_loading false));;
  setc (set_error
          (if offlineRestricted then Some "offline-restricted"
           else if hasUrlError then Some "url-missing"
           else None));;
  when (negb (eqb valid previouslyValid))
    (when valid (manager;; emit (ReloadComponent (Some r) true)));;
  isExpired ← getc expired;
  when (isExpired && doManualReload) (emit (Broadcast "reload-ext-dat"));;
  _ ← timeout CbReloadingDone 500;
  mret tt.

Definition reloadComponent : M World unit :=
  setc (set_componentValid false);;
  manager;;
  c ← getc component;
  emit (ReloadComponent c false);;
  await AfterReloadComponent.

Definition onVisibilityChangeHandler : M World unit :=
  v ← gets (λ w, visibilityState (env w));
  match v with
  | Hidden => mret tt
  | Visible =>
      issue ← getc issueLoading;
      when issue (async reloadComponent)
  end.

Definition handleActivation : M World unit :=
  c ← getc component;
  match c with
  | None => mret tt
  | Some r =>
      comp ← gets (λ w, heap (env w) r);
      if negb (active comp) then mret tt
      else
        manager;;
        iframe ← gets (λ w, iframeForComponent (env w));
        match iframe with
        | None => mret tt
        | Some _ =>
            setc (set_loading true);;
            previous ← getc loadTimeout;
            timeout_cancel previous;;
            id ← timeout CbLoadTimeout MAX_LOAD_THRESHOLD;
            setc (set_loadTimeout (Some id));;
            modify (set_iframeOnload true)
        end
  end.

Definition handleIframeLoadTimeout : M World unit :=
  isLoading ← getc loading;
  when isLoading
    (setc (set_loading false);;
     setc (set_issueLoading true);;
     attempted ← getc didAttemptReload;
     if negb attempted
     then setc (set_didAttemptReload true);; async reloadComponent
     else addVisibilityListener).

Definition desktopErrorOf (desktop : bool) (f : Iframe) : bool :=
  desktop &&
  match contentWindow_origin f with
  | OriginThrows => false
  | Origin o => negb (truthy o) || bool_decide (o = Some "null")
  end.

Definition handleIframeLoad (f : Iframe) : M World unit :=
  desktop ← gets (λ w, isDesktopApplication (env w));
  let desktopError := desktopErrorOf desktop f in
  handle ← getc loadTimeout;
  timeout_cancel handle;;
  manager;;
  c ← getc component;
  emit (RegisterComponentWindow c);;
  await (AfterRegisterComponentWindow desktopError).

Definition registerPackageUpdateObserver : M World unit :=
  app ← getc application;
  callable app;;
  modify (set_desktopObserving true);;
  setc (set_unregisterDesktopObserver true).

Definition registerComponentHandlers : M World unit :=
  manager;;
  c ← getc component;
  _ ← deref c;
  modify (set_handlerRegistered true);;
  setc (set_unregisterComponentHandler true).

Definition onChanges : M World unit :=
  registered ← getc didRegisterObservers;
  when (negb registered)
    (setc (set_didRegisterObservers true);;
     registerComponentHandlers;;
     registerPackageUpdateObserver);;
  newComponent ← getc component;
  oldComponent ← getc lastComponentValue;
  setc (set_lastComponentValue newComponent);;
  match oldComponent with
  | Some o =>
      when (negb (bool_decide (oldComponent = newComponent)))
        (manager;; emit (DeregisterComponent o))
  | None => mret tt
  end;;
  match newComponent with
  | Some n =>
      when (negb (bool_decide (newComponent = oldComponent)))
        (manager;; emit (RegisterComponent n);; await AfterRegisterComponent)
  | None => mret tt
  end.

Definition onDestroy : M World unit :=
  f ← getc cleanUpOn;
  callable f;;
  modify (set_scopeListening false);;
  setc (set_cleanUpOn false);;
  g ← getc unregisterComponentHandler;
  callable g;;
  modify (set_handlerRegistered false);;
  setc (set_unregisterComponentHandler false);;
  c ← getc component;
  md ← getc manualDealloc;
  match c with
  | Some r =>
      when (negb md)
        (app ← getc application;
         cm ← gets (λ w, componentManager (env w));
         when (app && cm) (emit (DeregisterComponent r)))
  | None => mret tt
  end;;
  h ← getc unregisterDesktopObserver;
  callable h;;
  modify (set_desktopObserving false);;
  setc (set_unregisterDesktopObserver false);;
  removeVisibilityListener;;
  setc (set_component None);;
  setc (set_onLoad false);;
  setc (set_application false);;
  setc (set_onVisibilityChange false).

(** ** Closures *)

(** The handlers registered with the component manager. *)
Definition activationHandler (c : ref) : M World unit :=
  mine ← getc component;
  if negb (bool_decide (Some c = mine)) then mret tt
  else _ ← timeout CbHandleActivation 0; mret tt.

Definition actionHandler (c : ref) (action : string) : M World unit :=
  when (String.eqb action "set-size") (manager;; emit (HandleSetSizeEvent c)).

(** The observer registered with the desktop service. *)
Definition packageUpdateObserver (c : ref) : M World unit :=
  mine ← getc component;
  comp ← gets (λ w, heap (env w) c);
  when (bool_decide (Some c = mine) && active comp) (async reloadComponent).

Definition run_callback (cb : Callback) : M World unit :=
  match cb with
  | CbHandleActivation => handleActivation
  | CbLoadTimeout => async handleIframeLoadTimeout
  | CbLoadSettled desktopError =>
      setc (set_loading false);;
      setc (set_issueLoading desktopError);;
      ol ← getc onLoad;
      c ← getc component;
      when ol (emit (OnLoad c))
  | CbReloadingDone => setc (set_reloading false)
  end.

Definition run_continuation (k : Continuation) : M World unit :=
  match k with
  | AfterRegisterComponent => reloadStatus true
  | AfterReloadComponent => reloadStatus true
  | AfterRegisterComponentWindow desktopError =>
      _ ← timeout (CbLoadSettled desktopError) 7;
      mret tt
  end.

(** ** The event loop *)

Inductive Event :=
| Tick (d : nat)
| Surroundings (e : Env)
| Fire (id : nat)
| Resolve (n : nat)
| IframeLoad (f : Iframe)
| VisibilityChange (v : VisibilityState)
| Activated (c : ref)
| Action (c : ref) (action : string)
| PackageUpdated (c : ref)
| ExtReloadComplete
| Bind (c : option ref)
| Destroy.

(** A task of the event loop runs to completion; an exception it does not
    catch is reported and the loop goes on. *)
Definition task (m : M World unit) (w : World) : World :=
  match m w with
  | (Val _, w') => w'
  | (Thrown e, w') => set_log (log w' ++ [Uncaught e]) w'
  end.

Definition step (e : Event) (w : World) : World :=
  match e with
  | Tick d => set_clock (clock w + Z.of_nat d)%Z w
  | Surroundings e' => set_env e' w
  | Fire id =>
      match take_due (clock w) id (timeouts w) with
      | Some (cb, s) => task (run_callback cb) (set_timeouts s w)
      | None => w
      end
  | Resolve n =>
      match promises w !! n with
      | Some k =>
          task (async (run_continuation k)) (set_promises (delete n (promises w)) w)
      | None => w
      end
  | IframeLoad f =>
      if iframeOnload w then task (async (handleIframeLoad f)) w else w
  | VisibilityChange v =>
      let w' := set_env (set_visibilityState v (env w)) w in
      if visibilityListener w' then task onVisibilityChangeHandler w' else w'
  | Activated c =>
      if handlerRegistered w then task (activationHandler c) w else w
  | Action c a =>
      if handlerRegistered w then task (actionHandler c a) w else w
  | PackageUpdated c =>
      if desktopObserving w then task (packageUpdateObserver c) w else w
  | ExtReloadComplete =>
      if scopeListening w then task (reloadStatus false) w else w
  | Bind c => task onChanges (set_ctrl (set_component c (ctrl w)) w)
  | Destroy => task onDestroy w
  end.

Definition run (es : list Event) (w : World) : World :=
  foldl (λ w e, step e w) w es.

(** ** Observations on runs *)

(** The event runs the load-timeout callback while [loading] is set. *)
Definition load_times_out (e : Event) (w : World) : bool :=
  match e with
  | Fire id =>
      match take_due (clock w) id (timeouts w) with
      | Some (CbLoadTimeout, _) => loading (ctrl w)
      | _ => false
      end
  | _ => false
  end.

(** How many events of a run are load timeouts. *)
Fixpoint load_timeouts (es : list Event) (w : World) : nat :=
  match es with
  | [] => 0
  | e :: es' =>
      (if load_times_out e w then 1 else 0) + load_timeouts es' (step e w)
  end.

Definition is_reload_request (x : Effect) : bool :=
  match x with
  | ReloadComponent _ false => true
  | _ => false
  end.

(** Calls of [componentManager.reloadComponent(component)] in a log. *)
Definition reload_requests (l : list Effect) : nat :=
  length (filter (λ x, is_reload_request x = true) l).

(** Reloads requested by the load timeouts of a run. *)
Fixpoint automatic_reloads (es : list Event) (w : World) : nat :=
  match es with
  | [] => 0
  | e :: es' =>
      (if load_times_out e w
       then reload_requests (log (step e w)) - reload_requests (log w)
       else 0)
      + automatic_reloads es' (step e w)
  end.

Definition is_load_timer (t : Timer Callback) : bool :=
  match timer_cb t with
  | CbLoadTimeout => true
  | _ => false
  end.

(** The pending timers that will run [handleIframeLoadTimeout]. *)
Definition load_timers (w : World) : list (Timer Callback) :=
  filter (λ t, is_load_timer t = true) (pending (timeouts w)).

(** At most one load timer is pending, and [loadTimeout] is its handle. *)
Definition load_slot (w : World) : Prop :=
  match load_timers w with
  | [] => True
  | [t] => loadTimeout (ctrl w) = Some (timer_id t)
  | _ => False
  end.

(** The controller has been torn down: nothing is registered with the
    scope, the component manager, the desktop service or the document. *)
Definition torn_down (w : World) : Prop :=
  scopeListening w = false ∧ handlerRegistered w = false ∧
  desktopObserving w = false ∧ visibilityListener w = false ∧
  application (ctrl w) = false ∧ onVisibilityChange (ctrl w) = false.

Definition is_broadcast (x : Effect) : bool :=
  match x with
  | Broadcast _ => true
  | _ => false
  end.

(** Calls of [$rootScope.$broadcast] in a log. *)
Definition broadcasts (l : list Effect) : nat :=
  length (filter (λ x, is_broadcast x = true) l).

(** The log holds [k] broadcasts. *)
Definition no_broadcast (k : nat) (w : World) : Prop := broadcasts (log w) = k.

(** What [reloadStatus] computes from the component record. *)
Definition offlineRestrictedOf (desktop : bool) (comp : SNComponent) : bool :=
  offlineOnly comp && negb desktop.

Definition hasUrlErrorOf (desktop : bool) (comp : SNComponent) : bool :=
  if desktop
  then negb (truthy (local_url comp)) && negb (hasValidHostedUrl comp)
  else negb (hasValidHostedUrl comp).

Definition expiredOf (now : Z) (comp : SNComponent) : bool :=
  match valid_until comp with
  | Some d => bool_decide (d ≤ now)%Z
  | None => false
  end.

(** Signals that reach the controller through a registration of its own. *)
Definition is_signal (e : Event) : bool :=
  match e with
  | Activated _ | Action _ _ | PackageUpdated _ | ExtReloadComplete => true
  | _ => false
  end.

(** The value of [didAttemptReload], and whether the page-visibility
    listener is registered, as properties of the world. *)
Definition attempted (b : bool) (w : World) : Prop :=
  didAttemptReload (ctrl w) = b.

Definition listening (b : bool) (w : World) : Prop := visibilityListener w = b.

(** ** A sample mount *)

Definition sample_component : SNComponent :=
  {| area := "editor-stack"; name := "sample"; active := true;
     offlineOnly := false; local_url := None; hasValidHostedUrl := true;
     valid_until := None; isEditor := false; isDefaultEditor := false;
     isExplicitlyEnabledForItem := λ _, false |}.

Definition sample_iframe : Iframe := {| contentWindow_origin := OriginThrows |}.

Definition sample_env : Env :=
  {| heap := λ _, sample_component; isDesktopApplication := false;
     visibilityState := Visible; componentManager := true;
     iframeForComponent := Some sample_iframe; lockReadonly := false |}.

Definition sample_world : World := mounted (Some 0) false true 0 sample_env.

(** The component is bound and activated; its frame never loads. *)
Definition activation : list Event :=
  [Bind (Some 0); Resolve 0; Activated 0; Fire 1].

(** The load times out, the component is reloaded and activated again, and
    the load times out a second time. *)
Definition two_timeouts : list Event :=
  activation ++
  [Tick 4000; Fire 2; Resolve 0; Activated 0; Fire 4; Tick 4000; Fire 5].

(** After the second timeout a third activation loads the frame. *)
Definition late_load : list Event :=
  two_timeouts ++
  [Activated 0; Fire 6; IframeLoad sample_iframe; Resolve 0; Tick 7; Fire 8].

End ComponentView.

(** * The editor panel controller *)

Module Editor.

Definition NOTE_PREVIEW_CHAR_LIMIT : nat := 80.
Definition MINIMUM_STATUS_DURATION : Z := 400.
Definition SAVE_TIMEOUT_DEBOUNCE : Z := 350.
Definition SAVE_TIMEOUT_NO_DEBOUNCE : Z := 100.

(** The fields of [SNNote] the controller reads or mutates.  Items are
    immutable snapshots: a change produces a new item in the item store. *)
Record SNNote := {
  uuid : string;
  deleted : bool;
  dirty : bool;
  title : option jsstring;
  text : option jsstring;
  preview_plain : option jsstring;
  preview_html : option jsstring;
  trashed : bool;
  pinned : bool;
  locked : bool;
  protected : bool;
  archived : bool;
  hidePreview : bool;
  lastSyncBegan : option Z;
  lastSyncEnd : option Z;
}.

(** A mutator works on a private copy of the item it was made from. *)
Definition NoteMutator := SNNote.

Record NoteStatus := {
  message : option string;
  desc : option string;
  date : option Z;
}.

Record EditorState := {
  note : option SNNote;
  saveError : bool;
  syncTakingTooLong : bool;
  selectedEditor : option ref;
  noteStatus : option NoteStatus;
  tagsComponent : option ref;
  componentStack : list ref;
}.

Record EditorValues := {
  values_title : option jsstring;
  values_text : option jsstring;
}.

(** The fields of [EditorCtrl].  Disposers, puppets and bound functions are
    [true] while they hold a value. *)
Record Ctrl := {
  state : EditorState;
  editorValues : EditorValues;
  saveTimeout : option nat;
  statusTimeout : option nat;
  removeAltKeyObserver : bool;
  removeTrashKeyObserver : bool;
  removeDeleteKeyObserver : bool;
  removeTabObserver : bool;
  leftPanelPuppet : bool;
  rightPanelPuppet : bool;
  onEditorLoad : bool;
  unregisterComponent : bool;
  onPanelResizeFinish : bool;
  editorMenuOnSelect : bool;
}.

(** The closures handed to [$timeout]. *)
Inductive Callback :=
| CbSync
| CbSetStatus (status : NoteStatus).

Inductive ApplicationEvent :=
| HighLatencySync
| CompletedSync
| FailedSync
| LocalDatabaseWriteError
| OtherApplicationEvent.

(** Calls made to collaborators, and exceptions nobody caught. *)
Inductive Effect :=
| Alert (text : string)
| Sync
| LocationReload
| SetComponentHidden (c : ref) (hidden : bool)
| ContextItemDidChangeInArea (area : string)
| RemoveKeyObserver (observer : string)
| UnregisterComponent
| Uncaught (e : Exn).

(** What the controller reads from its surroundings.  The constants of the
    strings module are not part of the controller's file; the surroundings
    supply them.  [componentsForEditorStack] is the component manager's
    list for the editor-stack area after [Array.prototype.sort] by
    lower-cased name. *)
Record Env := {
  heap : ref → SNComponent;
  documentHidden : bool;
  noAccount : bool;
  componentsForEditorStack : list ref;
  STRING_DELETED_NOTE : string;
  STRING_INVALID_NOTE : string;
  STRING_ELLIPSES : jsstring;
}.

Record World := {
  ctrl : Ctrl;
  timeouts : TimeoutService Callback;
  items : gmap string SNNote;
  log : list Effect;
  clock : Z;
  env : Env;
}.

(** Field updates. *)
Definition set_dirty (v : bool) (n : SNNote) : SNNote :=
  {| uuid := uuid n; deleted := deleted n; dirty := v; title := title n; text
     := text n; preview_plain := preview_plain n; preview_html := preview_html
     n; trashed := trashed n; pinned := pinned n; locked := locked n;
     protected := protected n; archived := archived n; hidePreview :=
     hidePreview n; lastSyncBegan := lastSyncBegan n; lastSyncEnd :=
     lastSyncEnd n |}.
Definition set_title (v : option jsstring) (n : SNNote) : SNNote :=
  {| uuid := uuid n; deleted := deleted n; dirty := dirty n; title := v; text
     := text n; preview_plain := preview_plain n; preview_html := preview_html
     n; trashed := trashed n; pinned := pinned n; locked := locked n;
     protected := protected n; archived := archived n; hidePreview :=
     hidePreview n; lastSyncBegan := lastSyncBegan n; lastSyncEnd :=
     lastSyncEnd n |}.
Definition set_text (v : option jsstring) (n : SNNote) : SNNote :=
  {| uuid := uuid n; deleted := deleted n; dirty := dirty n; title := title n;
     text := v; preview_plain := preview_plain n; preview_html := preview_html
     n; trashed := trashed n; pinned := pinned n; locked := locked n;
     protected := protected n; archived := archived n; hidePreview :=
     hidePreview n; lastSyncBegan := lastSyncBegan n; lastSyncEnd :=
     lastSyncEnd n |}.
Definition set_preview_plain (v : option jsstring) (n : SNNote) : SNNote :=
  {| uuid := uuid n; deleted := deleted n; dirty := dirty n; title := title n;
     text := text n; preview_plain := v; preview_html := preview_html n;
     trashed := trashed n; pinned := pinned n; locked := locked n; protected
     := protected n; archived := archived n; hidePreview := hidePreview n;
     lastSyncBegan := lastSyncBegan n; lastSyncEnd := lastSyncEnd n |}.
Definition set_preview_html (v : option jsstring) (n : SNNote) : SNNote :=
  {| uuid := uuid n; deleted := deleted n; dirty := dirty n; title := title n;
     text := text n; preview_plain := preview_plain n; preview_html := v;
     trashed := trashed n; pinned := pinned n; locked := locked n; protected
     := protected n; archived := archived n; hidePreview := hidePreview n;
     lastSyncBegan := lastSyncBegan n; lastSyncEnd := lastSyncEnd n |}.
Definition set_trashed (v : bool) (n : SNNote) : SNNote :=
  {| uuid := uuid n; deleted := deleted n; dirty := dirty n; title := title n;
     text := text n; preview_plain := preview_plain n; preview_html :=
     preview_html n; trashed := v; pinned := pinned n; locked := locked n;
     protected := protected n; archived := archived n; hidePreview :=
     hidePreview n; lastSyncBegan := lastSyncBegan n; lastSyncEnd :=
     lastSyncEnd n |}.
Definition set_pinned (v : bool) (n : SNNote) : SNNote :=
  {| uuid := uuid n; deleted := deleted n; dirty := dirty n; title := title n;
     text := text n; preview_plain := preview_plain n; preview_html :=
     preview_html n; trashed := trashed n; pinned := v; locked := locked n;
     protected := protected n; archived := archived n; hidePreview :=
     hidePreview n; lastSyncBegan := lastSyncBegan n; lastSyncEnd :=
     lastSyncEnd n |}.
Definition set_locked (v : bool) (n : SNNote) : SNNote :=
  {| uuid := uuid n; deleted := deleted n; dirty := dirty n; title := title n;
     text := text n; preview_plain := preview_plain n; preview_html :=
     preview_html n; trashed := trashed n; pinned := pinned n; locked := v;
     protected := protected n; archived := archived n; hidePreview :=
     hidePreview n; lastSyncBegan := lastSyncBegan n; lastSyncEnd :=
     lastSyncEnd n |}.
Definition set_protected (v : bool) (n : SNNote) : SNNote :=
  {| uuid := uuid n; deleted := deleted n; dirty := dirty n; title := title n;
     text := text n; preview_plain := preview_plain n; preview_html :=
     preview_html n; trashed := trashed n; pinned := pinned n; locked :=
     locked n; protected := v; archived := archived n; hidePreview :=
     hidePreview n; lastSyncBegan := lastSyncBegan n; lastSyncEnd :=
     lastSyncEnd n |}.
Definition set_archived (v : bool) (n : SNNote) : SNNote :=
  {| uuid := uuid n; deleted := deleted n; dirty := dirty n; title := title n;
     text := text n; preview_plain := preview_plain n; preview_html :=
     preview_html n; trashed := trashed n; pinned := pinned n; locked :=
     locked n; protected := protected n; archived := v; hidePreview :=
     hidePreview n; lastSyncBegan := lastSyncBegan n; lastSyncEnd :=
     lastSyncEnd n |}.
Definition set_hidePreview (v : bool) (n : SNNote) : SNNote :=
  {| uuid := uuid n; deleted := deleted n; dirty := dirty n; title := title n;
     text := text n; preview_plain := preview_plain n; preview_html :=
     preview_html n; trashed := trashed n; pinned := pinned n; locked :=
     locked n; protected := protected n; archived := archived n; hidePreview
     := v; lastSyncBegan := lastSyncBegan n; lastSyncEnd := lastSyncEnd n |}.
Definition set_note (v : option SNNote) (s : EditorState) : EditorState :=
  {| note := v; saveError := saveError s; syncTakingTooLong :=
     syncTakingTooLong s; selectedEditor := selectedEditor s; noteStatus :=
     noteStatus s; tagsComponent := tagsComponent s; componentStack :=
     componentStack s |}.
Definition set_saveError (v : bool) (s : EditorState) : EditorState :=
  {| note := note s; saveError := v; syncTakingTooLong := syncTakingTooLong s;
     selectedEditor := selectedEditor s; noteStatus := noteStatus s;
     tagsComponent := tagsComponent s; componentStack := componentStack s |}.
Definition set_syncTakingTooLong (v : bool) (s : EditorState) : EditorState :=
  {| note := note s; saveError := saveError s; syncTakingTooLong := v;
     selectedEditor := selectedEditor s; noteStatus := noteStatus s;
     tagsComponent := tagsComponent s; componentStack := componentStack s |}.
Definition set_selectedEditor (v : option ref) (s : EditorState) : EditorState
     :=
  {| note := note s; saveError := saveError s; syncTakingTooLong :=
     syncTakingTooLong s; selectedEditor := v; noteStatus := noteStatus s;
     tagsComponent := tagsComponent s; componentStack := componentStack s |}.
Definition set_noteStatus (v : option NoteStatus) (s : EditorState) :
     EditorState :=
  {| note := note s; saveError := saveError s; syncTakingTooLong :=
     syncTakingTooLong s; selectedEditor := selectedEditor s; noteStatus := v;
     tagsComponent := tagsComponent s; componentStack := componentStack s |}.
Definition set_tagsComponent (v : option ref) (s : EditorState) : EditorState
     :=
  {| note := note s; saveError := saveError s; syncTakingTooLong :=
     syncTakingTooLong s; selectedEditor := selectedEditor s; noteStatus :=
     noteStatus s; tagsComponent := v; componentStack := componentStack s |}.
Definition set_componentStack (v : list ref) (s : EditorState) : EditorState
     :=
  {| note := note s; saveError := saveError s; syncTakingTooLong :=
     syncTakingTooLong s; selectedEditor := selectedEditor s; noteStatus :=
     noteStatus s; tagsComponent := tagsComponent s; componentStack := v |}.
Definition set_state (v : EditorState) (c : Ctrl) : Ctrl :=
  {| state := v; editorValues := editorValues c; saveTimeout := saveTimeout c;
     statusTimeout := statusTimeout c; removeAltKeyObserver :=
     removeAltKeyObserver c; removeTrashKeyObserver := removeTrashKeyObserver
     c; removeDeleteKeyObserver := removeDeleteKeyObserver c;
     removeTabObserver := removeTabObserver c; leftPanelPuppet :=
     leftPanelPuppet c; rightPanelPuppet := rightPanelPuppet c; onEditorLoad
     := onEditorLoad c; unregisterComponent := unregisterComponent c;
     onPanelResizeFinish := onPanelResizeFinish c; editorMenuOnSelect :=
     editorMenuOnSelect c |}.
Definition set_editorValues (v : EditorValues) (c : Ctrl) : Ctrl :=
  {| state := state c; editorValues := v; saveTimeout := saveTimeout c;
     statusTimeout := statusTimeout c; removeAltKeyObserver :=
     removeAltKeyObserver c; removeTrashKeyObserver := removeTrashKeyObserver
     c; removeDeleteKeyObserver := removeDeleteKeyObserver c;
     removeTabObserver := removeTabObserver c; leftPanelPuppet :=
     leftPanelPuppet c; rightPanelPuppet := rightPanelPuppet c; onEditorLoad
     := onEditorLoad c; unregisterComponent := unregisterComponent c;
     onPanelResizeFinish := onPanelResizeFinish c; editorMenuOnSelect :=
     editorMenuOnSelect c |}.
Definition set_saveTimeout (v : option nat) (c : Ctrl) : Ctrl :=
  {| state := state c; editorValues := editorValues c; saveTimeout := v;
     statusTimeout := statusTimeout c; removeAltKeyObserver :=
     removeAltKeyObserver c; removeTrashKeyObserver := removeTrashKeyObserver
     c; removeDeleteKeyObserver := removeDeleteKeyObserver c;
     removeTabObserver := removeTabObserver c; leftPanelPuppet :=
     leftPanelPuppet c; rightPanelPuppet := rightPanelPuppet c; onEditorLoad
     := onEditorLoad c; unregisterComponent := unregisterComponent c;
     onPanelResizeFinish := onPanelResizeFinish c; editorMenuOnSelect :=
     editorMenuOnSelect c |}.
Definition set_statusTimeout (v : option nat) (c : Ctrl) : Ctrl :=
  {| state := state c; editorValues := editorValues c; saveTimeout :=
     saveTimeout c; statusTimeout := v; removeAltKeyObserver :=
     removeAltKeyObserver c; removeTrashKeyObserver := removeTrashKeyObserver
     c; removeDeleteKeyObserver := removeDeleteKeyObserver c;
     removeTabObserver := removeTabObserver c; leftPanelPuppet :=
     leftPanelPuppet c; rightPanelPuppet := rightPanelPuppet c; onEditorLoad
     := onEditorLoad c; unregisterComponent := unregisterComponent c;
     onPanelResizeFinish := onPanelResizeFinish c; editorMenuOnSelect :=
     editorMenuOnSelect c |}.
Definition set_removeAltKeyObserver (v : bool) (c : Ctrl) : Ctrl :=
  {| state := state c; editorValues := editorValues c; saveTimeout :=
     saveTimeout c; statusTimeout := statusTimeout c; removeAltKeyObserver :=
     v; removeTrashKeyObserver := removeTrashKeyObserver c;
     removeDeleteKeyObserver := removeDeleteKeyObserver c; removeTabObserver
     := removeTabObserver c; leftPanelPuppet := leftPanelPuppet c;
     rightPanelPuppet := rightPanelPuppet c; onEditorLoad := onEditorLoad c;
     unregisterComponent := unregisterComponent c; onPanelResizeFinish :=
     onPanelResizeFinish c; editorMenuOnSelect := editorMenuOnSelect c |}.
Definition set_removeTrashKeyObserver (v : bool) (c : Ctrl) : Ctrl :=
  {| state := state c; editorValues := editorValues c; saveTimeout :=
     saveTimeout c; statusTimeout := statusTimeout c; removeAltKeyObserver :=
     removeAltKeyObserver c; removeTrashKeyObserver := v;
     removeDeleteKeyObserver := removeDeleteKeyObserver c; removeTabObserver
     := removeTabObserver c; leftPanelPuppet := leftPanelPuppet c;
     rightPanelPuppet := rightPanelPuppet c; onEditorLoad := onEditorLoad c;
     unregisterComponent := unregisterComponent c; onPanelResizeFinish :=
     onPanelResizeFinish c; editorMenuOnSelect := editorMenuOnSelect c |}.
Definition set_removeDeleteKeyObserver (v : bool) (c : Ctrl) : Ctrl :=
  {| state := state c; editorValues := editorValues c; saveTimeout :=
     saveTimeout c; statusTimeout := statusTimeout c; removeAltKeyObserver :=
     removeAltKeyObserver c; removeTrashKeyObserver := removeTrashKeyObserver
     c; removeDeleteKeyObserver := v; removeTabObserver := removeTabObserver
     c; leftPanelPuppet := leftPanelPuppet c; rightPanelPuppet :=
     rightPanelPuppet c; onEditorLoad := onEditorLoad c; unregisterComponent
     := unregisterComponent c; onPanelResizeFinish := onPanelResizeFinish c;
     editorMenuOnSelect := editorMenuOnSelect c |}.
Definition set_removeTabObserver (v : bool) (c : Ctrl) : Ctrl :=
  {| state := state c; editorValues := editorValues c; saveTimeout :=
     saveTimeout c; statusTimeout := statusTimeout c; removeAltKeyObserver :=
     removeAltKeyObserver c; removeTrashKeyObserver := removeTrashKeyObserver
     c; removeDeleteKeyObserver := removeDeleteKeyObserver c;
     removeTabObserver := v; leftPanelPuppet := leftPanelPuppet c;
     rightPanelPuppet := rightPanelPuppet c; onEditorLoad := onEditorLoad c;
     unregisterComponent := unregisterComponent c; onPanelResizeFinish :=
     onPanelResizeFinish c; editorMenuOnSelect := editorMenuOnSelect c |}.
Definition set_leftPanelPuppet (v : bool) (c : Ctrl) : Ctrl :=
  {| state := state c; editorValues := editorValues c; saveTimeout :=
     saveTimeout c; statusTimeout := statusTimeout c; removeAltKeyObserver :=
     removeAltKeyObserver c; removeTrashKeyObserver := removeTrashKeyObserver
     c; removeDeleteKeyObserver := removeDeleteKeyObserver c;
     removeTabObserver := removeTabObserver c; leftPanelPuppet := v;
     rightPanelPuppet := rightPanelPuppet c; onEditorLoad := onEditorLoad c;
     unregisterComponent := unregisterComponent c; onPanelResizeFinish :=
     onPanelResizeFinish c; editorMenuOnSelect := editorMenuOnSelect c |}.
Definition set_rightPanelPuppet (v : bool) (c : Ctrl) : Ctrl :=
  {| state := state c; editorValues := editorValues c; saveTimeout :=
     saveTimeout c; statusTimeout := statusTimeout c; removeAltKeyObserver :=
     removeAltKeyObserver c; removeTrashKeyObserver := removeTrashKeyObserver
     c; removeDeleteKeyObserver := removeDeleteKeyObserver c;
     removeTabObserver := removeTabObserver c; leftPanelPuppet :=
     leftPanelPuppet c; rightPanelPuppet := v; onEditorLoad := onEditorLoad c;
     unregisterComponent := unregisterComponent c; onPanelResizeFinish :=
     onPanelResizeFinish c; editorMenuOnSelect := editorMenuOnSelect c |}.
Definition set_onEditorLoad (v : bool) (c : Ctrl) : Ctrl :=
  {| state := state c; editorValues := editorValues c; saveTimeout :=
     saveTimeout c; statusTimeout := statusTimeout c; removeAltKeyObserver :=
     removeAltKeyObserver c; removeTrashKeyObserver := removeTrashKeyObserver
     c; removeDeleteKeyObserver := removeDeleteKeyObserver c;
     removeTabObserver := removeTabObserver c; leftPanelPuppet :=
     leftPanelPuppet c; rightPanelPuppet := rightPanelPuppet c; onEditorLoad
     := v; unregisterComponent := unregisterComponent c; onPanelResizeFinish
     := onPanelResizeFinish c; editorMenuOnSelect := editorMenuOnSelect c |}.
Definition set_unregisterComponent (v : bool) (c : Ctrl) : Ctrl :=
  {| state := state c; editorValues := editorValues c; saveTimeout :=
     saveTimeout c; statusTimeout := statusTimeout c; removeAltKeyObserver :=
     removeAltKeyObserver c; removeTrashKeyObserver := removeTrashKeyObserver
     c; removeDeleteKeyObserver := removeDeleteKeyObserver c;
     removeTabObserver := removeTabObserver c; leftPanelPuppet :=
     leftPanelPuppet c; rightPanelPuppet := rightPanelPuppet c; onEditorLoad
     := onEditorLoad c; unregisterComponent := v; onPanelResizeFinish :=
     onPanelResizeFinish c; editorMenuOnSelect := editorMenuOnSelect c |}.
Definition set_onPanelResizeFinish (v : bool) (c : Ctrl) : Ctrl :=
  {| state := state c; editorValues := editorValues c; saveTimeout :=
     saveTimeout c; statusTimeout := statusTimeout c; removeAltKeyObserver :=
     removeAltKeyObserver c; removeTrashKeyObserver := removeTrashKeyObserver
     c; removeDeleteKeyObserver := removeDeleteKeyObserver c;
     removeTabObserver := removeTabObserver c; leftPanelPuppet :=
     leftPanelPuppet c; rightPanelPuppet := rightPanelPuppet c; onEditorLoad
     := onEditorLoad c; unregisterComponent := unregisterComponent c;
     onPanelResizeFinish := v; editorMenuOnSelect := editorMenuOnSelect c |}.
Definition set_editorMenuOnSelect (v : bool) (c : Ctrl) : Ctrl :=
  {| state := state c; editorValues := editorValues c; saveTimeout :=
     saveTimeout c; statusTimeout := statusTimeout c; removeAltKeyObserver :=
     removeAltKeyObserver c; removeTrashKeyObserver := removeTrashKeyObserver
     c; removeDeleteKeyObserver := removeDeleteKeyObserver c;
     removeTabObserver := removeTabObserver c; leftPanelPuppet :=
     leftPanelPuppet c; rightPanelPuppet := rightPanelPuppet c; onEditorLoad
     := onEditorLoad c; unregisterComponent := unregisterComponent c;
     onPanelResizeFinish := onPanelResizeFinish c; editorMenuOnSelect := v |}.
Definition set_ctrl (v : Ctrl) (w : World) : World :=
  {| ctrl := v; timeouts := timeouts w; items := items w; log := log w; clock
     := clock w; env := env w |}.
Definition set_timeouts (v : TimeoutService Callback) (w : World) : World :=
  {| ctrl := ctrl w; timeouts := v; items := items w; log := log w; clock :=
     clock w; env := env w |}.
Definition set_items (v : gmap string SNNote) (w : World) : World :=
  {| ctrl := ctrl w; timeouts := timeouts w; items := v; log := log w; clock
     := clock w; env := env w |}.
Definition set_log (v : list Effect) (w : World) : World :=
  {| ctrl := ctrl w; timeouts := timeouts w; items := items w; log := v; clock
     := clock w; env := env w |}.
Definition set_clock (v : Z) (w : World) : World :=
  {| ctrl := ctrl w; timeouts := timeouts w; items := items w; log := log w;
     clock := v; env := env w |}.
Definition set_env (v : Env) (w : World) : World :=
  {| ctrl := ctrl w; timeouts := timeouts w; items := items w; log := log w;
     clock := clock w; env := v |}.

(** ** Access to the world *)

Definition getc {A} (f : Ctrl → A) : M World A := gets (λ w, f (ctrl w)).
Definition setc (f : Ctrl → Ctrl) : M World unit :=
  modify (λ w, set_ctrl (f (ctrl w)) w).
Definition emit (e : Effect) : M World unit :=
  modify (λ w, set_log (log w ++ [e]) w).

(** [this.getState()] *)
Definition getState : M World EditorState := getc state.

(** Modelled from the spec: [setState] of the base controller [PureCtrl]
    is missing from the sources; controller state is "tracked in
    controller-local fields" that a transition replaces, so the given
    fields are merged into [this.state]. *)
Definition setState (patch : EditorState → EditorState) : M World unit :=
  setc (λ c, set_state (patch (state c)) c).

(** [this.$timeout(cb, delay)] *)
Definition timeout (cb : Callback) (delay : Z) : M World nat := λ w,
  let '(id, s) := schedule (clock w) delay cb (timeouts w) in
  (Val id, set_timeouts s w).

(** [this.$timeout.cancel(handle)]; an undefined handle is ignored. *)
Definition timeout_cancel (handle : option nat) : M World unit :=
  match handle with
  | Some id => modify (λ w, set_timeouts (cancel id (timeouts w)) w)
  | None => mret tt
  end.

(** [this.application.findItem(uuid)] *)
Definition findItem (id : string) : M World (option SNNote) :=
  gets (λ w, items w !! id).

(** Modelled from the spec: [application.changeItem] is missing from the
    sources; it is a "synchronous local mutation" of the item with the
    given uuid that "marks dirty".  The spec gives [isUserModified] no
    behaviour of its own. *)
Definition changeItem (id : string) (mutate : NoteMutator → NoteMutator)
    (isUserModified : bool) : M World unit :=
  modify (λ w,
    match items w !! id with
    | Some item => set_items (<[id := set_dirty true (mutate item)]> (items w)) w
    | None => w
    end).

(** [for (const x of l) { body }] *)
Fixpoint forEach {A} (l : list A) (body : A → M World unit) : M World unit :=
  match l with
  | [] => mret tt
  | x :: l' => body x;; forEach l' body
  end.

(** ** Status messages *)

Definition setStatus (status : NoteStatus) (wait : bool) : M World unit :=
  st ← getState;
  now ← gets clock;
  let waitForMs :=
    match noteStatus st with
    | None => 0%Z
    | Some current =>
        match date current with
        | None => 0%Z
        | Some shown => (MINIMUM_STATUS_DURATION - (now - shown))%Z
        end
    end in
  let waitForMs :=
    if negb wait || bool_decide (waitForMs < 0)%Z then 0%Z else waitForMs in
  previous ← getc statusTimeout;
  timeout_cancel previous;;
  id ← timeout (CbSetStatus status) waitForMs;
  setc (set_statusTimeout (Some id)).

Definition showSavingStatus : M World unit :=
  setStatus {| message := Some "Saving..."; desc := None; date := None |} false.

Definition showAllChangesSavedStatus : M World unit :=
  setState (λ s, set_syncTakingTooLong false (set_saveError false s));;
  setStatus {| message := Some "All changes saved"; desc := None; date := None |}
    true.

Definition showErrorStatus (error : option NoteStatus) : M World unit :=
  let error :=
    match error with
    | Some e => e
    | None => {| message := Some "Sync Unreachable";
                 desc := Some "Changes saved offline"; date := None |}
    end in
  setState (λ s, set_syncTakingTooLong false (set_saveError true s));;
  setStatus error true.

(** ** Saving *)

Definition performFirefoxPinnedTabFix : M World unit :=
  isHidden ← gets (λ w, documentHidden (env w));
  when isHidden (emit LocationReload).

(** The preview written by [saveNote]: [text.substring(0, LIMIT)] followed
    by the ellipsis when the text is longer than the limit. *)
Definition previewPlain (ellipses : jsstring) (text : jsstring) : jsstring :=
  let truncate := bool_decide (NOTE_PREVIEW_CHAR_LIMIT < length text) in
  let substring := substring 0 NOTE_PREVIEW_CHAR_LIMIT text in
  substring ++ (if truncate then ellipses else []).

Definition saveNote (bypassDebouncer isUserModified dontUpdatePreviews : bool)
    (customMutate : option (NoteMutator → NoteMutator)) : M World unit :=
  performFirefoxPinnedTabFix;;
  st ← getState;
  n ← deref (note st);
  if deleted n then
    s ← gets (λ w, STRING_DELETED_NOTE (env w));
    emit (Alert s)
  else
    found ← findItem (uuid n);
    if negb (bool_decide (is_Some found)) then
      s ← gets (λ w, STRING_INVALID_NOTE (env w));
      emit (Alert s)
    else
      showSavingStatus;;
      values ← getc editorValues;
      ellipses ← gets (λ w, STRING_ELLIPSES (env w));
      changeItem (uuid n)
        (λ mutator,
           let mutator :=
             match customMutate with
             | Some f => f mutator
             | None => mutator
             end in
           let mutator := set_title (values_title values) mutator in
           let mutator := set_text (values_text values) mutator in
           if negb dontUpdatePreviews then
             let text := default [] (text n) in
             set_preview_html None
               (set_preview_plain (Some (previewPlain ellipses text)) mutator)
           else mutator)
        isUserModified;;
      previous ← getc saveTimeout;
      timeout_cancel previous;;
      noAcc ← gets (λ w, noAccount (env w));
      let noDebounce := bypassDebouncer || noAcc in
      let syncDebouceMs :=
        if noDebounce then SAVE_TIMEOUT_NO_DEBOUNCE else SAVE_TIMEOUT_DEBOUNCE in
      id ← timeout CbSync syncDebouceMs;
      setc (set_saveTimeout (Some id)).

Definition contentChanged : M World unit := saveNote false true false None.

Definition onTitleChange : M World unit := saveNote false true true None.

Definition restoreTrashedNote : M World unit :=
  saveNote true false true (Some (set_trashed false)).

(** The toggles hand [saveNote] a mutator that reads
    [this.getState().note] when [changeItem] runs it.  Nothing between the
    call and the mutation writes the state, and [saveNote] has thrown on
    [note.deleted] before the mutation when there is no note: the note the
    mutator sees is the one of the state at the call. *)
Definition togglePin : M World unit :=
  st ← getState;
  saveNote true false true
    (Some (λ mutator,
             match note st with
             | Some n => set_pinned (negb (pinned n)) mutator
             | None => mutator
             end)).

Definition toggleLockNote : M World unit :=
  st ← getState;
  saveNote true false true
    (Some (λ mutator,
             match note st with
             | Some n => set_locked (negb (locked n)) mutator
             | None => mutator
             end)).

Definition toggleArchiveNote : M World unit :=
  st ← getState;
  saveNote true false true
    (Some (λ mutator,
             match note st with
             | Some n => set_archived (negb (archived n)) mutator
             | None => mutator
             end)).

Definition toggleNotePreview : M World unit :=
  st ← getState;
  saveNote true false true
    (Some (λ mutator,
             match note st with
             | Some n => set_hidePreview (negb (hidePreview n)) mutator
             | None => mutator
             end)).

(** ** Application events *)

Definition onAppEvent (eventName : ApplicationEvent) : M World unit :=
  st ← getState;
  match note st with
  | None => mret tt
  | Some _ =>
      match eventName with
      | HighLatencySync => setState (set_syncTakingTooLong true)
      | CompletedSync =>
          setState (set_syncTakingTooLong false);;
          st ← getState;
          n ← deref (note st);
          if dirty n then mret tt
          else
            let saved :=
              match lastSyncEnd n, lastSyncBegan n with
              | Some e, Some b => bool_decide (b < e)%Z
              | _, _ => false
              end in
            when (saveError st || saved) showAllChangesSavedStatus
      | FailedSync =>
          n ← deref (note st);
          when (dirty n) (showErrorStatus None)
      | LocalDatabaseWriteError =>
          showErrorStatus
            (Some {| message := Some "Offline Saving Issue";
                     desc := Some "Changes not saved"; date := None |})
      | OtherApplicationEvent => mret tt
      end
  end.

(** ** Components *)

Definition reloadComponentStackArray : M World unit :=
  components ← gets (λ w, componentsForEditorStack (env w));
  setState (set_componentStack components).

Definition reloadComponentContext : M World unit :=
  reloadComponentStackArray;;
  st ← getState;
  match note st with
  | Some n =>
      forEach (componentStack st) (λ c,
        comp ← gets (λ w, heap (env w) c);
        when (active comp)
          (emit (SetComponentHidden c
                   (negb (isExplicitlyEnabledForItem comp (uuid n))))))
  | None => mret tt
  end;;
  emit (ContextItemDidChangeInArea "note-tags");;
  emit (ContextItemDidChangeInArea "editor-stack");;
  emit (ContextItemDidChangeInArea "editor-editor").

Definition activationHandler (c : ref) : M World unit :=
  comp ← gets (λ w, heap (env w) c);
  if String.eqb (area comp) "note-tags" then
    setState (set_tagsComponent (if active comp then Some c else None))
  else if String.eqb (area comp) "editor-editor" then
    st ← getState;
    if bool_decide (selectedEditor st = Some c) && negb (active comp) then
      setState (set_selectedEditor None)
    else
      match selectedEditor st with
      | Some s =>
          selected ← gets (λ w, heap (env w) s);
          match note st with
          | Some n =>
              when (active selected)
                (when (isExplicitlyEnabledForItem comp (uuid n)
                       && negb (isExplicitlyEnabledForItem selected (uuid n)))
                   (setState (set_selectedEditor (Some c))))
          | None => mret tt
          end
      | None =>
          match note st with
          | Some n =>
              let enableable :=
                isExplicitlyEnabledForItem comp (uuid n) || isDefaultEditor comp in
              if active comp && enableable
              then setState (set_selectedEditor (Some c))
              else setState (set_selectedEditor None)
          | None => mret tt
          end
      end
  else if String.eqb (area comp) "editor-stack" then
    reloadComponentContext
  else mret tt.

(** What a handler hands back to the component manager. *)
Inductive Returned (A : Type) :=
| Undefined
| Return (a : A).
Arguments Undefined {A}.
Arguments Return {A} a.

Definition contextRequestHandler (st : EditorState) (c : ref)
  : Returned (option SNNote) :=
  if bool_decide (selectedEditor st = Some c)
     || bool_decide (tagsComponent st = Some c)
     || bool_decide (c ∈ componentStack st)
  then Return (note st)
  else Undefined.

(** The [SaveItems] branch of the action handler. *)
Definition actionHandlerSaveItems (uuids : list string) : M World unit :=
  st ← getState;
  n ← deref (note st);
  let includesNote := bool_decide (uuid n ∈ uuids) in
  when includesNote showSavingStatus.

(** ** Teardown *)

(** [super.deinit()] belongs to the base controller and is passed in. *)
Definition deinit (super_deinit : M World unit) : M World unit :=
  f ← getc removeAltKeyObserver;
  callable f;;
  emit (RemoveKeyObserver "alt");;
  setc (set_removeAltKeyObserver false);;
  g ← getc removeTrashKeyObserver;
  callable g;;
  emit (RemoveKeyObserver "trash");;
  setc (set_removeTrashKeyObserver false);;
  h ← getc removeDeleteKeyObserver;
  callable h;;
  emit (RemoveKeyObserver "delete");;
  setc (set_removeDeleteKeyObserver false);;
  t ← getc removeTabObserver;
  when t (emit (RemoveKeyObserver "tab"));;
  setc (set_removeTabObserver false);;
  setc (set_leftPanelPuppet false);;
  setc (set_rightPanelPuppet false);;
  setc (set_onEditorLoad false);;
  u ← getc unregisterComponent;
  callable u;;
  emit UnregisterComponent;;
  setc (set_unregisterComponent false);;
  setc (set_saveTimeout None);;
  setc (set_statusTimeout None);;
  setc (set_onPanelResizeFinish false);;
  setc (set_editorMenuOnSelect false);;
  super_deinit.

(** ** The event loop *)

Definition run_callback (cb : Callback) : M World unit :=
  match cb with
  | CbSync => emit Sync
  | CbSetStatus status =>
      now ← gets clock;
      setState (set_noteStatus
                  (Some {| message := message status; desc := desc status;
                           date := Some now |}))
  end.

Inductive Event :=
| Tick (d : nat)
| Surroundings (e : Env)
| Stored (store : gmap string SNNote)
| Elsewhere (patch : EditorState → EditorState)
| Typed (values : EditorValues)
| Fire (id : nat)
| SaveNote (bypassDebouncer isUserModified dontUpdatePreviews : bool)
    (customMutate : option (NoteMutator → NoteMutator))
| AppEvent (eventName : ApplicationEvent)
| Activated (c : ref)
| SavedItems (uuids : list string).

Definition task (m : M World unit) (w : World) : World :=
  match m w with
  | (Val _, w') => w'
  | (Thrown e, w') => set_log (log w' ++ [Uncaught e]) w'
  end.

Definition step (e : Event) (w : World) : World :=
  match e with
  | Tick d => set_clock (clock w + Z.of_nat d)%Z w
  | Surroundings e' => set_env e' w
  | Stored store => set_items store w
  | Elsewhere patch => task (setState patch) w
  | Typed values => task (setc (set_editorValues values)) w
  | Fire id =>
      match take_due (clock w) id (timeouts w) with
      | Some (cb, s) => task (run_callback cb) (set_timeouts s w)
      | None => w
      end
  | SaveNote b u d f => task (saveNote b u d f) w
  | AppEvent ev => task (onAppEvent ev) w
  | Activated c => task (activationHandler c) w
  | SavedItems uuids => task (actionHandlerSaveItems uuids) w
  end.

Definition run (es : list Event) (w : World) : World :=
  foldl (λ w e, step e w) w es.

(** ** Observations on runs *)

Definition is_sync_timer (t : Timer Callback) : bool :=
  match timer_cb t with
  | CbSync => true
  | CbSetStatus _ => false
  end.

(** The pending timers that will call [application.sync()]. *)
Definition sync_of (s : TimeoutService Callback) : list (Timer Callback) :=
  filter (λ t, is_sync_timer t = true) (pending s).

Definition sync_timers (w : World) : list (Timer Callback) :=
  sync_of (timeouts w).

Definition is_sync (x : Effect) : bool :=
  match x with
  | Sync => true
  | _ => false
  end.

(** Calls of [application.sync()] in a log. *)
Definition syncs (l : list Effect) : nat :=
  length (filter (λ x, is_sync x = true) l).

(** At most one sync timer is pending, and [saveTimeout] is its handle. *)
Definition single_slot (w : World) : Prop :=
  match sync_timers w with
  | [] => True
  | [t] => saveTimeout (ctrl w) = Some (timer_id t)
  | _ => False
  end.

Definition is_status_timer (t : Timer Callback) : bool :=
  match timer_cb t with
  | CbSetStatus _ => true
  | CbSync => false
  end.

(** The pending timers that will show a status message. *)
Definition status_of (s : TimeoutService Callback) : list (Timer Callback) :=
  filter (λ t, is_status_timer t = true) (pending s).

(** At most one status timer is pending, and [statusTimeout] is its
    handle. *)
Definition status_slot (w : World) : Prop :=
  match status_of (timeouts w) with
  | [] => True
  | [t] => statusTimeout (ctrl w) = Some (timer_id t)
  | _ => False
  end.

(** Calls of [sync] made so far and sync timers still pending stay
    within [k]. *)
Definition sync_budget (k : nat) (w : World) : Prop :=
  syncs (log w) + length (sync_timers w) ≤ k.

Definition saving_status : NoteStatus :=
  {| message := Some "Saving..."; desc := None; date := None |}.

Definition is_save (e : Event) : bool :=
  match e with
  | SaveNote _ _ _ _ => true
  | _ => false
  end.

(** The item [saveNote] leaves in the store. *)
Definition saved_item (d : bool) (f : option (NoteMutator → NoteMutator))
    (values : EditorValues) (ellipses : jsstring) (n item : SNNote) : SNNote :=
  let m := match f with Some g => g item | None => item end in
  let m := set_text (values_text values) (set_title (values_title values) m) in
  set_dirty true
    (if d then m
     else set_preview_html None
            (set_preview_plain
               (Some (previewPlain ellipses (default [] (text n)))) m)).

(** The timer queue an accepted [saveNote] leaves: the status slot and the
    save slot are emptied and refilled, in this order. *)
Definition queue_after_save (delay : Z) (w : World) : TimeoutService Callback :=
  (schedule (clock w) delay CbSync
     (cancel_handle (saveTimeout (ctrl w))
        (schedule (clock w) 0 (CbSetStatus saving_status)
           (cancel_handle (statusTimeout (ctrl w)) (timeouts w))).2)).2.

Definition save_delay (b : bool) (w : World) : Z :=
  if b || noAccount (env w)
  then SAVE_TIMEOUT_NO_DEBOUNCE else SAVE_TIMEOUT_DEBOUNCE.

(** How long a status requested with [wait] waits: the rest of the 400ms
    the status on display is owed. *)
Definition status_delay (w : World) : Z :=
  match noteStatus (state (ctrl w)) ≫= date with
  | Some shown => Z.max 0 (MINIMUM_STATUS_DURATION - (clock w - shown))
  | None => 0
  end.

(** The calls [reloadComponentContext] makes for a stack of components. *)
Definition hidden_calls (hp : ref → SNComponent) (id : string) (stack : list ref)
  : list Effect :=
  (λ c, SetComponentHidden c (negb (isExplicitlyEnabledForItem (hp c) id)))
    <$> filter (λ c, active (hp c) = true) stack.

(** ** A sample editor *)

Definition sample_note : SNNote :=
  {| uuid := "note-1"; deleted := false; dirty := false;
     title := Some (units "Title"); text := Some (units "Text");
     preview_plain := None;
     preview_html := None; trashed := false; pinned := false;
     locked := false; protected := false; archived := false;
     hidePreview := false; lastSyncBegan := Some 1%Z; lastSyncEnd := Some 5%Z |}.

Definition sample_editor_component : SNComponent :=
  {| area := "editor-editor"; name := "sample"; active := true;
     offlineOnly := false; local_url := None; hasValidHostedUrl := true;
     valid_until := None; isEditor := true; isDefaultEditor := false;
     isExplicitlyEnabledForItem := λ _, false |}.

Definition sample_env : Env :=
  {| heap := λ _, sample_editor_component; documentHidden := false;
     noAccount := false; componentsForEditorStack := [];
     STRING_DELETED_NOTE := "deleted"; STRING_INVALID_NOTE := "invalid";
     STRING_ELLIPSES := units "..." |}.

Definition sample_world : World :=
  {| ctrl :=
       {| state :=
            {| note := Some sample_note; saveError := false;
               syncTakingTooLong := false; selectedEditor := None;
               noteStatus := None; tagsComponent := None;
               componentStack := [] |};
          editorValues := {| values_title := Some (units "Title");
                             values_text := Some (units "Text, edited") |};
          saveTimeout := None; statusTimeout := None;
          removeAltKeyObserver := true; removeTrashKeyObserver := true;
          removeDeleteKeyObserver := true; removeTabObserver := false;
          leftPanelPuppet := true; rightPanelPuppet := true;
          onEditorLoad := true; unregisterComponent := true;
          onPanelResizeFinish := true; editorMenuOnSelect := true |};
     timeouts := no_timers;
     items := {[ "note-1"%string := sample_note ]};
     log := []; clock := 0; env := sample_env |}.

(** Two editors: component 0 is the default editor, component 1 is
    explicitly enabled for the sample note; component 0 is selected. *)
Definition two_editors_env : Env :=
  {| heap := λ r,
       {| area := "editor-editor"; name := "editor"; active := true;
          offlineOnly := false; local_url := None; hasValidHostedUrl := true;
          valid_until := None; isEditor := true;
          isDefaultEditor := bool_decide (r = 0);
          isExplicitlyEnabledForItem := λ _, bool_decide (r = 1) |};
     documentHidden := false; noAccount := false;
     componentsForEditorStack := [];
     STRING_DELETED_NOTE := "deleted"; STRING_INVALID_NOTE := "invalid";
     STRING_ELLIPSES := units "..." |}.

Definition default_editor_selected : World :=
  run [Surroundings two_editors_env; Elsewhere (set_selectedEditor (Some 0))]
    sample_world.

(** A tags component stands behind every reference. *)
Definition sample_tags_env : Env :=
  {| heap := λ _,
       {| area := "note-tags"; name := "tags"; active := true;
          offlineOnly := false; local_url := None; hasValidHostedUrl := true;
          valid_until := None; isEditor := false; isDefaultEditor := false;
          isExplicitlyEnabledForItem := λ _, false |};
     documentHidden := false; noAccount := false;
     componentsForEditorStack := [];
     STRING_DELETED_NOTE := "deleted"; STRING_INVALID_NOTE := "invalid";
     STRING_ELLIPSES := units "..." |}.

(** A sync completes and "All changes saved" is shown; ten milliseconds
    later the user types and "Saving..." is shown. *)
Definition saved_then_typed : list Event :=
  [AppEvent CompletedSync; Fire 0; Tick 10; SaveNote false true false None;
   Fire 1].

(** Three edits within one debounce window, and the window elapsing. *)
Definition three_edits : list Event :=
  [SaveNote false true false None; Tick 100;
   SaveNote false true false None; Tick 100;
   SaveNote false true false None; Tick 350].

End Editor.

(** * The tab key of the plain editor *)

Module EditorKeys.
Import Editor.

(** The text area of the plain editor, as the tab observer uses it:
    [selectionStart] and [selectionEnd] are offsets in code units. *)
Record HTMLInputElement := {
  value : jsstring;
  selectionStart : nat;
  selectionEnd : nat;
}.

(** What the observer does to the text area where
    [document.execCommand] did not insert: the selection is replaced by four
    spaces and the cursor is put behind them. *)
Definition insertSpaces (editor : HTMLInputElement) : HTMLInputElement :=
  let start := selectionStart editor in
  let end_ := selectionEnd editor in
  let spaces := units "    " in
  {| value := (substring 0 start (value editor) ++ spaces)
              ++ substringFrom end_ (value editor);
     selectionStart := start + 4;
     selectionEnd := start + 4 |}.

(** [onKeyDown] of the tab observer.  [execCommand] is what
    [document.execCommand('insertText', false, '\t')] did: [None] when it
    returned [false], the text area as the browser left it when it
    returned [true].  The result is the text area and whether
    [event.preventDefault()] was called. *)
Definition tabKeyDown (shiftKey : bool) (execCommand : option HTMLInputElement)
    (editor : HTMLInputElement) : M World (HTMLInputElement * bool) :=
  st ← getState;
  n ← deref (note st);
  if locked n || shiftKey then mret (editor, false)
  else
    let editor :=
      match execCommand with
      | Some inserted => inserted
      | None => insertSpaces editor
      end in
    values ← getc editorValues;
    setc (set_editorValues
            {| values_title := values_title values;
               values_text := Some (value editor) |});;
    saveNote true false false None;;
    mret (editor, true).

Definition sample_textarea : HTMLInputElement :=
  {| value := units "let x"; selectionStart := 3; selectionEnd := 5 |}.

End EditorKeys.

(** * The menus of the editor panel *)

Module EditorMenus.

(** The menu flags are entries of [this.state] under the menu's name; a key
    that was never set reads [undefined]. *)
Definition MenuState := gmap string bool.

Definition allMenus : list string :=
  ["showOptionsMenu"; "showEditorMenu"; "showExtensions";
   "showSessionHistory"]%string.

(** Modelled from the spec: [setState] of the base controller is missing
    from the sources; as for [Editor.setState], the given keys are merged
    into [this.state]. *)
Definition setState (patch : gmap string bool) (st : MenuState) : MenuState :=
  patch ∪ st.

Definition closeAllMenus (exclude : option string) (st : MenuState)
  : MenuState :=
  let menuState :=
    foldl (λ menuState candidate,
             if bool_decide (Some candidate ≠ exclude)
             then <[candidate := false]> menuState
             else menuState)
          (∅ : gmap string bool) allMenus in
  setState menuState st.

Definition setMenuState (menu : string) (state : bool) (st : MenuState)
  : MenuState :=
  closeAllMenus (Some menu) (setState {[ menu := state ]} st).

(** [!this.state[menu]]: an entry that is [undefined] counts as [false]. *)
Definition toggleMenu (menu : string) (st : MenuState) : MenuState :=
  setMenuState menu (negb (default false (st !! menu))) st.

Definition clickedTextArea (st : MenuState) : MenuState :=
  setMenuState "showOptionsMenu" false st.

Definition selectedMenuItem (hide : bool) (st : MenuState) : MenuState :=
  if hide then setMenuState "showOptionsMenu" false st else st.

(** The menus of [allMenus] that are open. *)
Definition open_menus (st : MenuState) : list string :=
  filter (λ m, st !! m = Some true) allMenus.

End EditorMenus.

(** * The tags of the note *)

Module EditorTags.

(** The code unit of ['#']. *)
Definition HASH : N := 35.

(** [s.split(sep)] for a separator of one code unit. *)
Fixpoint split (sep : N) (s : jsstring) : list jsstring :=
  match s with
  | [] => [[]]
  | c :: s' =>
      if bool_decide (c = sep) then [] :: split sep s'
      else match split sep s' with
           | seg :: segs => (c :: seg) :: segs
           | [] => [[c]]
           end
  end.

Section Trim.
(** The code units [String.prototype.trim] strips: white space and line
    terminators, as the engine has them. *)
Context (WhiteSpace : N → bool).

Fixpoint trimStart (s : jsstring) : jsstring :=
  match s with
  | c :: s' => if WhiteSpace c then trimStart s' else s
  | [] => []
  end.

Definition trimEnd (s : jsstring) : jsstring :=
  reverse (trimStart (reverse s)).

Definition trim (s : jsstring) : jsstring := trimEnd (trimStart s).

(** The strings [saveTagsFromStrings] reads from the tags input when it is
    given none. *)
Definition inputStrings (tagsInputValue : jsstring) : list jsstring :=
  trim <$> filter (λ string, 0 < length string) (split HASH tagsInputValue).

End Trim.

Record SNTag := { tag_uuid : string; tag_title : jsstring }.

#[global] Instance SNTag_eq_dec : EqDecision SNTag.
Proof. solve_decision. Defined.

(** The tags [saveTagsFromStrings] takes the note away from. *)
Definition removeTags (strings : list jsstring) (currentTags : list SNTag)
  : list SNTag :=
  filter (λ tag, tag_title tag ∉ strings) currentTags.

(** The titles [saveTagsFromStrings] hands to [findOrCreateTag], in the
    order of the calls. *)
Definition newRelationships (strings : list jsstring)
    (currentTags : list SNTag) : list jsstring :=
  filter (λ title, title ∉ tag_title <$> currentTags) strings.

(** The titles of the note's tags once the relationships are updated:
    those of the tags it keeps, then those of the tags found or created. *)
Definition titlesAfter (strings : list jsstring) (currentTags : list SNTag)
  : list jsstring :=
  (tag_title <$> filter (λ tag, tag ∉ removeTags strings currentTags) currentTags)
  ++ newRelationships strings currentTags.

(** [separator]-joined segments. *)
Fixpoint join (sep : N) (l : list jsstring) : jsstring :=
  match l with
  | [] => []
  | [s] => s
  | s :: l' => s ++ sep :: join sep l'
  end.

End EditorTags.

(** * Properties *)

(** ** Reasoning about computations *)

Section Preservation.
Context {W : Type} (P : W → Prop).

Lemma preserves_ret {A} (a : A) : preserves P (mret a : M W A).
Proof. intros w H. exact H. Qed.

Lemma preserves_bind {A B} (m : M W A) (f : A → M W B) :
  preserves P m → (∀ a, preserves P (f a)) → preserves P (m ≫= f).
Proof.
  intros Hm Hf w H. specialize (Hm w H).
  unfold exec, mbind, M_bind in *.
  destruct (m w) as [[a|e] w1]; simpl in *; [by apply Hf | done].
Qed.

Lemma preserves_gets {A} (f : W → A) : preserves P (gets f).
Proof. intros w H. exact H. Qed.

Lemma preserves_throw {A} e : preserves P (throw e : M W A).
Proof. intros w H. exact H. Qed.

Lemma preserves_modify (f : W → W) :
  (∀ w, P w → P (f w)) → preserves P (modify f).
Proof. intros Hf w H. by apply Hf. Qed.

Lemma preserves_when c (m : M W unit) : preserves P m → preserves P (when c m).
Proof. destruct c; [done | intros _; apply preserves_ret]. Qed.

Lemma preserves_deref {A} (o : option A) : preserves P (deref o : M W A).
Proof. destruct o; [apply preserves_ret | apply preserves_throw]. Qed.

Lemma preserves_callable f : preserves P (callable f : M W unit).
Proof. destruct f; [apply preserves_ret | apply preserves_throw]. Qed.
End Preservation.

Module ComponentViewFacts.
Import ComponentView.

Ltac mstep := cbv [mbind M_bind mret M_ret gets modify throw when deref callable
   getc setc emit timeout timeout_cancel await async manager exec task] in *.

Ltac case_var c :=
  match c with
  | negb ?b => case_var b
  | andb ?a ?b => first [case_var a | case_var b]
  | orb ?a ?b => first [case_var a | case_var b]
  | eqb ?a ?b => first [case_var a | case_var b]
  | bool_decide ?P => destruct (bool_decide P) eqn:?
  | _ => is_var c; destruct c
  end.

Ltac split_ifs :=
  repeat (cbn; try match goal with
  | |- context [if ?b then _ else _] => case_var b
  | |- context [match ?x with _ => _ end] => is_var x; destruct x
  end).

(** A predicate that looks at the controller only through some of its
    fields is kept by every update of the rest of the world. *)
Section Frame.
Context (P : World → Prop).
Context (P_timeouts : ∀ s w, P w → P (set_timeouts s w)).
Context (P_log : ∀ l w, P w → P (set_log l w)).
Context (P_promises : ∀ l w, P w → P (set_promises l w)).

Lemma preserves_emit x : preserves P (emit x).
Proof. apply preserves_modify. intros w. apply P_log. Qed.

Lemma preserves_timeout cb d : preserves P (timeout cb d).
Proof. intros w H. apply P_timeouts, H. Qed.

Lemma preserves_timeout_cancel h : preserves P (timeout_cancel h).
Proof.
  destruct h; [|apply preserves_ret].
  apply preserves_modify. intros w. apply P_timeouts.
Qed.

Lemma preserves_await k : preserves P (await k).
Proof. apply preserves_modify. intros w. apply P_promises. Qed.

Lemma preserves_async m : preserves P m → preserves P (async m).
Proof.
  intros Hm w H. specialize (Hm w H). unfold exec, async in *.
  destruct (m w) as [[a|e] w1]; simpl in *; [done | by apply P_log].
Qed.

Lemma preserves_task m w : preserves P m → P w → P (task m w).
Proof.
  intros Hm H. specialize (Hm w H). unfold exec, task in *.
  destruct (m w) as [[a|e] w1]; simpl in *; [done | by apply P_log].
Qed.
End Frame.

Ltac keeps :=
  repeat first
    [ apply preserves_bind; [|intros ?]
    | apply preserves_ret
    | apply preserves_gets
    | apply preserves_throw
    | apply preserves_when
    | apply preserves_deref
    | apply preserves_callable
    | apply preserves_emit; [by intros ???]
    | apply preserves_timeout; [by intros ???]
    | apply preserves_timeout_cancel; [by intros ???]
    | apply preserves_await; [by intros ???]
    | apply preserves_async; [by intros ???|]
    | apply preserves_modify; by intros ??
    | match goal with
      | |- preserves _ (match ?x with _ => _ end) => destruct x
      | |- preserves _ (let _ := _ in _) => cbv zeta
      end ].

Lemma manager_attempted b : preserves (attempted b) manager.
Proof. unfold manager, getc. keeps. Qed.

Lemma reloadStatus_attempted b d : preserves (attempted b) (reloadStatus d).
Proof. unfold reloadStatus, getc, setc. keeps. Qed.

Lemma reloadComponent_attempted b : preserves (attempted b) reloadComponent.
Proof. unfold reloadComponent, getc, setc. keeps. Qed.


Lemma handleActivation_attempted b : preserves (attempted b) handleActivation.
Proof. unfold handleActivation, getc, setc. keeps. Qed.

Lemma handleIframeLoad_attempted b f : preserves (attempted b) (handleIframeLoad f).
Proof. unfold handleIframeLoad, getc, setc. keeps. Qed.

Lemma onVisibilityChangeHandler_attempted b :
  preserves (attempted b) onVisibilityChangeHandler.
Proof.
  unfold onVisibilityChangeHandler, getc. keeps.
Qed.

Lemma onChanges_attempted b : preserves (attempted b) onChanges.
Proof.
  unfold onChanges, registerComponentHandlers, registerPackageUpdateObserver,
    getc, setc.
  keeps.
Qed.

Lemma onDestroy_attempted b : preserves (attempted b) onDestroy.
Proof. unfold onDestroy, removeVisibilityListener, getc, setc. keeps. Qed.

Lemma activationHandler_attempted b c : preserves (attempted b) (activationHandler c).
Proof. unfold activationHandler, getc. keeps. Qed.

Lemma actionHandler_attempted b c a : preserves (attempted b) (actionHandler c a).
Proof. unfold actionHandler. keeps. Qed.

Lemma packageUpdateObserver_attempted b c :
  preserves (attempted b) (packageUpdateObserver c).
Proof.
  unfold packageUpdateObserver, getc. keeps.
Qed.

Lemma run_continuation_attempted b k : preserves (attempted b) (run_continuation k).
Proof.
  destruct k; simpl; try apply reloadStatus_attempted. keeps.
Qed.

(** Once set, [didAttemptReload] stays set. *)
Lemma handleIframeLoadTimeout_attempted :
  preserves (attempted true) handleIframeLoadTimeout.
Proof.
  unfold handleIframeLoadTimeout, addVisibilityListener, getc, setc.
  keeps.
Qed.

Lemma run_callback_attempted b cb :
  cb ≠ CbLoadTimeout → preserves (attempted b) (run_callback cb).
Proof.
  intros Hcb. destruct cb; simpl; try done.
  - apply handleActivation_attempted.
  - unfold getc, setc. keeps.
  - unfold setc. keeps.
Qed.


Lemma run_cons e es w : run (e :: es) w = run es (step e w).
Proof. reflexivity. Qed.

Lemma run_snoc es e w : run (es ++ [e]) w = step e (run es w).
Proof. unfold run. by rewrite foldl_app. Qed.

Lemma run_app es1 es2 w : run (es1 ++ es2) w = run es2 (run es1 w).
Proof. unfold run. by rewrite foldl_app. Qed.

(** The first load timeout: one reload is requested and no listener is
    registered. *)
Lemma load_timeout_first w :
  loading (ctrl w) = true →
  didAttemptReload (ctrl w) = false →
  let w2 := task (async handleIframeLoadTimeout) w in
  loading (ctrl w2) = false ∧ issueLoading (ctrl w2) = true ∧
  didAttemptReload (ctrl w2) = true ∧
  visibilityListener w2 = visibilityListener w ∧
  ∃ x, log w2 = log w ++ [x] ∧
       (application (ctrl w) = true → componentManager (env w) = true →
        x = ReloadComponent (component (ctrl w)) false).
Proof.
  intros Hl Ha.
  destruct w as [c t p vl io sl hr dobs lg ck e]; destruct c, e; simpl in *.
  subst. unfold handleIframeLoadTimeout, reloadComponent. mstep.
  split_ifs; repeat split; eexists; split; try reflexivity; done.
Qed.

(** A later load timeout: nothing is requested; the listener is registered. *)
Lemma load_timeout_later w :
  loading (ctrl w) = true →
  didAttemptReload (ctrl w) = true →
  let w2 := task (async handleIframeLoadTimeout) w in
  loading (ctrl w2) = false ∧ issueLoading (ctrl w2) = true ∧
  log w2 = log w ∧ promises w2 = promises w ∧ timeouts w2 = timeouts w ∧
  visibilityListener w2 = visibilityListener w || onVisibilityChange (ctrl w).
Proof.
  intros Hl Ha.
  destruct w as [c t p vl io sl hr dobs lg ck e]; destruct c, e; simpl in *.
  subst. unfold handleIframeLoadTimeout, addVisibilityListener. mstep.
  split_ifs; repeat split; by rewrite ?orb_true_r, ?orb_false_r.
Qed.

Lemma load_timeout_idle w :
  loading (ctrl w) = false → task (async handleIframeLoadTimeout) w = w.
Proof.
  intros Hl. unfold handleIframeLoadTimeout. mstep. by rewrite Hl.
Qed.

Lemma load_times_out_fire e w :
  load_times_out e w = true →
  ∃ id s, e = Fire id ∧
    take_due (clock w) id (timeouts w) = Some (CbLoadTimeout, s) ∧
    loading (ctrl w) = true ∧
    step e w = task (async handleIframeLoadTimeout) (set_timeouts s w).
Proof.
  destruct e; simpl; try done.
  destruct (take_due _ _ _) as [[[] s]|] eqn:Ht; try done.
  intros Hl. by exists id, s.
Qed.

Lemma async_attempted b m :
  preserves (attempted b) m → preserves (attempted b) (async m).
Proof. by apply preserves_async; intros ???. Qed.

Lemma task_attempted b m w :
  preserves (attempted b) m → attempted b w → attempted b (task m w).
Proof. by apply preserves_task; intros ???. Qed.

Lemma step_attempted e w :
  didAttemptReload (ctrl (step e w))
  = didAttemptReload (ctrl w) || load_times_out e w.
Proof.
  destruct (load_times_out e w) eqn:Hlt.
  - apply load_times_out_fire in Hlt as (id & s & -> & Ht & Hl & ->).
    rewrite orb_true_r.
    destruct (didAttemptReload (ctrl w)) eqn:Ha.
    + apply (task_attempted true); [|done].
      apply async_attempted, handleIframeLoadTimeout_attempted.
    + by apply (load_timeout_first (set_timeouts s w)).
  - rewrite orb_false_r.
    set (b := didAttemptReload (ctrl w)).
    assert (Hb : attempted b w) by done. clearbody b.
    pose proof (task_attempted b) as Hk.
    destruct e; simpl in *; try done.
    + destruct (take_due _ _ _) as [[cb s]|] eqn:Ht; [|done].
      destruct cb; try (by apply Hk; [apply run_callback_attempted|]).
      simpl. by rewrite load_timeout_idle.
    + destruct (promises w !! n); [|done].
      apply Hk; [|done]. apply async_attempted, run_continuation_attempted.
    + destruct (iframeOnload w); [|done].
      apply Hk; [|done]. apply async_attempted, handleIframeLoad_attempted.
    + destruct (visibilityListener w); [|done].
      by apply Hk; [apply onVisibilityChangeHandler_attempted|].
    + destruct (handlerRegistered w); [|done].
      by apply Hk; [apply activationHandler_attempted|].
    + destruct (handlerRegistered w); [|done].
      by apply Hk; [apply actionHandler_attempted|].
    + destruct (desktopObserving w); [|done].
      by apply Hk; [apply packageUpdateObserver_attempted|].
    + destruct (scopeListening w); [|done].
      by apply Hk; [apply reloadStatus_attempted|].
    + by apply Hk; [apply onChanges_attempted|].
    + by apply Hk; [apply onDestroy_attempted|].
Qed.


Lemma attempted_after_run es w :
  didAttemptReload (ctrl (run es w))
  = didAttemptReload (ctrl w) || bool_decide (0 < load_timeouts es w).
Proof.
  revert w. induction es as [|e es IH]; intros w.
  - simpl. by rewrite orb_false_r.
  - rewrite run_cons, IH, step_attempted. simpl.
    destruct (load_times_out e w); simpl.
    + by rewrite !orb_true_r.
    + by rewrite orb_false_r.
Qed.

Lemma reload_requests_snoc l x :
  reload_requests (l ++ [x])
  = reload_requests l + (if is_reload_request x then 1 else 0).
Proof.
  unfold reload_requests. rewrite filter_app, length_app.
  f_equal. rewrite filter_cons, filter_nil.
  destruct (is_reload_request x); by case_decide.
Qed.

Lemma automatic_reloads_bound es w :
  automatic_reloads es w ≤ (if didAttemptReload (ctrl w) then 0 else 1).
Proof.
  revert w. induction es as [|e es IH]; intros w; simpl.
  - destruct (didAttemptReload (ctrl w)); lia.
  - specialize (IH (step e w)). rewrite step_attempted in IH.
    destruct (load_times_out e w) eqn:Hlt.
    + rewrite orb_true_r in IH.
      apply load_times_out_fire in Hlt as (id & s & -> & Ht & Hl & Hs).
      rewrite Hs in *.
      destruct (didAttemptReload (ctrl w)) eqn:Ha.
      * destruct (load_timeout_later (set_timeouts s w) Hl Ha)
          as (_ & _ & -> & _). simpl. lia.
      * destruct (load_timeout_first (set_timeouts s w) Hl Ha)
          as (_ & _ & _ & _ & x & -> & _).
        simpl. rewrite reload_requests_snoc.
        destruct (is_reload_request x); lia.
    + rewrite orb_false_r in IH. lia.
Qed.

(** The listener reloads the component exactly when the page is visible
    and the issue flag is set. *)
Lemma visibility_change_reloads v w :
  visibilityListener w = true →
  let w2 := step (VisibilityChange v) w in
  (v = Hidden ∨ issueLoading (ctrl w) = false → log w2 = log w) ∧
  (v = Visible → issueLoading (ctrl w) = true →
   application (ctrl w) = true → componentManager (env w) = true →
   log w2 = log w ++ [ReloadComponent (component (ctrl w)) false]).
Proof.
  intros Hv.
  destruct w as [c t p vl io sl hr dobs lg ck e]; destruct c, e; simpl in *.
  subst. unfold onVisibilityChangeHandler, reloadComponent. mstep.
  split.
  - intros [->| ->]; split_ifs; done.
  - intros -> -> -> ->. done.
Qed.

(** C1: the first load timeout of a controller requests exactly one
    reload of the component; every later load timeout requests none and
    only registers the page-visibility listener, whose handler reloads the
    component when the page is visible and the issue flag is set.
    Along any run, load timeouts request at most one reload in total. *)
Theorem load_timeout_reloads_once w es :
  didAttemptReload (ctrl w) = false →
  automatic_reloads es w ≤ 1 ∧
  (∀ pre e post,
     es = pre ++ e :: post →
     let w1 := run pre w in
     let w2 := step e w1 in
     load_times_out e w1 = true →
     loading (ctrl w2) = false ∧ issueLoading (ctrl w2) = true ∧
     (load_timeouts pre w = 0 →
      visibilityListener w2 = visibilityListener w1 ∧
      (application (ctrl w1) = true → componentManager (env w1) = true →
       log w2 = log w1 ++ [ReloadComponent (component (ctrl w1)) false])) ∧
     (0 < load_timeouts pre w →
      log w2 = log w1 ∧
      visibilityListener w2
      = visibilityListener w1 || onVisibilityChange (ctrl w1))) ∧
  (∀ v w1,
     visibilityListener w1 = true →
     let w2 := step (VisibilityChange v) w1 in
     (v = Hidden ∨ issueLoading (ctrl w1) = false → log w2 = log w1) ∧
     (v = Visible → issueLoading (ctrl w1) = true →
      application (ctrl w1) = true → componentManager (env w1) = true →
      log w2 = log w1 ++ [ReloadComponent (component (ctrl w1)) false])).
Proof.
  intros Hfresh. split; [|split].
  - pose proof (automatic_reloads_bound es w) as H. by rewrite Hfresh in H.
  - intros pre e post _ w1 w2 Hlt.
    pose proof (attempted_after_run pre w) as Hflag.
    rewrite Hfresh in Hflag. simpl in Hflag. fold w1 in Hflag.
    apply load_times_out_fire in Hlt as (id & s & -> & Ht & Hl & Hs).
    subst w2. rewrite Hs.
    destruct (decide (load_timeouts pre w = 0)) as [Hz|Hnz].
    + rewrite Hz in Hflag. simpl in Hflag.
      destruct (load_timeout_first (set_timeouts s w1) Hl Hflag)
        as (? & ? & _ & ? & x & Hlog & Hx).
      repeat split; try done; try lia.
      intros Happ Hcm. simpl in *. by rewrite Hlog, (Hx Happ Hcm).
    + rewrite bool_decide_eq_true_2 in Hflag by lia.
      destruct (load_timeout_later (set_timeouts s w1) Hl Hflag)
        as (? & ? & ? & _ & _ & ?).
      repeat split; try done; lia.
  - intros v w1. apply visibility_change_reloads.
Qed.


(** ** Validation *)

Lemma reloadStatus_returns d w r :
  component (ctrl w) = Some r →
  application (ctrl w) = true →
  componentManager (env w) = true →
  let comp := heap (env w) r in
  let desktop := isDesktopApplication (env w) in
  let offlineRestricted := offlineOnly comp && negb desktop in
  let hasUrlError :=
    if desktop
    then negb (truthy (local_url comp)) && negb (hasValidHostedUrl comp)
    else negb (hasValidHostedUrl comp) in
  ∃ w', reloadStatus d w = (Val tt, w') ∧
        componentValid (ctrl w') = negb offlineRestricted && negb hasUrlError ∧
        error (ctrl w') =
          (if offlineRestricted then Some "offline-restricted"
           else if hasUrlError then Some "url-missing" else None).
Proof.
  intros Hc Ha Hm.
  destruct w as [c t p vl io sl hr dobs lg ck e]; destruct c, e; simpl in *.
  subst.
  destruct (heap0 r) as [ar nm act off lu hv vu ie ide iee] eqn:Hh.
  unfold reloadStatus. mstep. cbn. rewrite Hh. cbn.
  generalize (truthy lu); intros tl.
  generalize (match vu with Some d0 => bool_decide (d0 ≤ ck)%Z | None => false end).
  intros ex.
  split_ifs; eexists; (split; [reflexivity|split; reflexivity]).
Qed.

(** C4: after a validation pass, [componentValid] holds exactly when the
    component is not offline-restricted and has a usable URL: on a desktop
    host a local URL or a valid hosted URL, elsewhere a valid hosted URL. *)
Theorem reloadStatus_validity d w r :
  component (ctrl w) = Some r →
  application (ctrl w) = true →
  componentManager (env w) = true →
  let comp := heap (env w) r in
  let desktop := isDesktopApplication (env w) in
  ∃ w', reloadStatus d w = (Val tt, w') ∧
    (componentValid (ctrl w') = true ↔
       ¬ (offlineOnly comp = true ∧ desktop = false) ∧
       (if desktop
        then truthy (local_url comp) = true ∨ hasValidHostedUrl comp = true
        else hasValidHostedUrl comp = true)) ∧
    (offlineOnly comp = true → desktop = false →
     componentValid (ctrl w') = false) ∧
    (truthy (local_url comp) = false → hasValidHostedUrl comp = false →
     componentValid (ctrl w') = false).
Proof.
  intros Hc Ha Hm comp desktop.
  destruct (reloadStatus_returns d w r Hc Ha Hm) as (w' & Hr & Hv & _).
  exists w'. split; [done|]. rewrite Hv. fold comp desktop.
  destruct (offlineOnly comp), desktop, (truthy (local_url comp)),
    (hasValidHostedUrl comp); simpl; intuition congruence.
Qed.


(** ** The visibility listener and teardown *)

Lemma handleIframeLoad_listening b f : preserves (listening b) (handleIframeLoad f).
Proof. unfold handleIframeLoad, getc, setc. keeps. Qed.

Lemma load_completion_listening b de :
  preserves (listening b) (run_continuation (AfterRegisterComponentWindow de)) ∧
  preserves (listening b) (run_callback (CbLoadSettled de)).
Proof. split; simpl; unfold getc, setc; keeps. Qed.

Lemma async_listening b m :
  preserves (listening b) m → preserves (listening b) (async m).
Proof. by apply preserves_async; intros ???. Qed.

Lemma task_listening b m w :
  preserves (listening b) m → listening b w → listening b (task m w).
Proof. by apply preserves_task; intros ???. Qed.

(** What [$onDestroy] leaves behind when its disposers are in place. *)
Lemma onDestroy_result w :
  cleanUpOn (ctrl w) = true →
  unregisterComponentHandler (ctrl w) = true →
  unregisterDesktopObserver (ctrl w) = true →
  onVisibilityChange (ctrl w) = true →
  let w' := step Destroy w in
  timeouts w' = timeouts w ∧ promises w' = promises w ∧
  iframeOnload w' = iframeOnload w ∧
  visibilityListener w' = false ∧ scopeListening w' = false ∧
  handlerRegistered w' = false ∧ desktopObserving w' = false ∧
  component (ctrl w') = None ∧ onLoad (ctrl w') = false ∧
  application (ctrl w') = false ∧ onVisibilityChange (ctrl w') = false ∧
  loading (ctrl w') = loading (ctrl w) ∧
  loadTimeout (ctrl w') = loadTimeout (ctrl w).
Proof.
  intros H1 H2 H3 H4.
  destruct w as [c t p vl io sl hr dobs lg ck e]; destruct c, e; simpl in *.
  subst. unfold onDestroy, removeVisibilityListener. mstep.
  split_ifs; repeat split.
Qed.

(** The calls and the disposers of a teardown. *)
Lemma onDestroy_calls w :
  cleanUpOn (ctrl w) = true →
  unregisterComponentHandler (ctrl w) = true →
  unregisterDesktopObserver (ctrl w) = true →
  let w' := step Destroy w in
  cleanUpOn (ctrl w') = false ∧
  unregisterComponentHandler (ctrl w') = false ∧
  unregisterDesktopObserver (ctrl w') = false ∧
  log w' = log w
           ++ match component (ctrl w) with
              | Some r =>
                  if negb (manualDealloc (ctrl w)) && application (ctrl w)
                     && componentManager (env w)
                  then [DeregisterComponent r] else []
              | None => []
              end.
Proof.
  intros H1 H2 H3.
  destruct w as [c t p vl io sl hr dobs lg ck e]; destruct c, e; simpl in *.
  subst. unfold onDestroy, removeVisibilityListener. mstep.
  split_ifs; repeat split; by rewrite ?app_nil_r.
Qed.

Lemma load_settled w id s de :
  take_due (clock w) id (timeouts w) = Some (CbLoadSettled de, s) →
  let w' := step (Fire id) w in
  visibilityListener w' = visibilityListener w ∧
  loading (ctrl w') = false ∧ issueLoading (ctrl w') = de.
Proof.
  intros Ht. simpl. rewrite Ht.
  destruct w as [c t p vl io sl hr dobs lg ck e]; destruct c; simpl in *.
  mstep. split_ifs; repeat split.
Qed.

(** C5, as the code has it: teardown removes the page-visibility listener;
    a successful load leaves it registered and clears the issue flag
    instead (unless the desktop origin probe failed), after which a
    visibility change requests nothing. *)
Theorem visibility_listener_removed_by_teardown w :
  cleanUpOn (ctrl w) = true →
  unregisterComponentHandler (ctrl w) = true →
  unregisterDesktopObserver (ctrl w) = true →
  onVisibilityChange (ctrl w) = true →
  visibilityListener (step Destroy w) = false ∧
  (∀ w1 f, visibilityListener (step (IframeLoad f) w1) = visibilityListener w1) ∧
  (∀ w1 n de,
     promises w1 !! n = Some (AfterRegisterComponentWindow de) →
     visibilityListener (step (Resolve n) w1) = visibilityListener w1) ∧
  (∀ w1 id s de,
     take_due (clock w1) id (timeouts w1) = Some (CbLoadSettled de, s) →
     let w2 := step (Fire id) w1 in
     visibilityListener w2 = visibilityListener w1 ∧
     loading (ctrl w2) = false ∧ issueLoading (ctrl w2) = de) ∧
  (∀ w1 v,
     issueLoading (ctrl w1) = false →
     log (step (VisibilityChange v) w1) = log w1).
Proof.
  intros H1 H2 H3 H4. split; [|split; [|split; [|split]]].
  - by destruct (onDestroy_result w H1 H2 H3 H4) as (_ & _ & _ & ? & _).
  - intros w1 f. simpl. destruct (iframeOnload w1); [|done].
    apply (task_listening (visibilityListener w1)); [|done].
    apply async_listening, handleIframeLoad_listening.
  - intros w1 n de Hn. simpl. rewrite Hn.
    apply (task_listening (visibilityListener w1)); [|done].
    apply async_listening, load_completion_listening.
  - apply load_settled.
  - intros w1 v Hi. destruct (visibilityListener w1) eqn:Hv.
    + apply (visibility_change_reloads v w1 Hv). by right.
    + simpl. by rewrite Hv.
Qed.


Lemma visibility_listener_removed_by_teardown_witness :
  visibilityListener (step Destroy (run two_timeouts sample_world)) = false.
Proof.
  refine (proj1 (visibility_listener_removed_by_teardown
                   (run two_timeouts sample_world) _ _ _ _));
    vm_compute; reflexivity.
Defined.

(** C5 fails as stated: after two load timeouts the listener is registered,
    and it is still registered once a later load has completed. *)
Lemma listener_survives_load :
  visibilityListener (run two_timeouts sample_world) = true ∧
  load_timeouts two_timeouts sample_world = 2 ∧
  loading (ctrl (run late_load sample_world)) = false ∧
  issueLoading (ctrl (run late_load sample_world)) = false ∧
  last (log (run late_load sample_world)) = Some (OnLoad (Some 0)) ∧
  visibilityListener (run late_load sample_world) = true.
Proof. repeat split; vm_compute; reflexivity. Qed.

Lemma load_timeout_reloads_once_witness :
  automatic_reloads late_load sample_world ≤ 1.
Proof.
  refine (proj1 (load_timeout_reloads_once sample_world late_load _)).
  vm_compute; reflexivity.
Defined.

(** C2 fails as stated: a controller destroyed while its component is
    loading keeps the load timer, and the timer then changes the destroyed
    controller's fields. *)
Lemma load_timer_outlives_teardown :
  application (ctrl (run (activation ++ [Destroy]) sample_world)) = false ∧
  find_timer 2 (timeouts (run (activation ++ [Destroy]) sample_world))
  = Some {| timer_id := 2; timer_due := 4000; timer_cb := CbLoadTimeout |} ∧
  loading (ctrl (run (activation ++ [Destroy]) sample_world)) = true ∧
  issueLoading (ctrl (run (activation ++ [Destroy]) sample_world)) = false ∧
  loading
    (ctrl (run (activation ++ [Destroy; Tick 4000; Fire 2]) sample_world))
  = false ∧
  issueLoading
    (ctrl (run (activation ++ [Destroy; Tick 4000; Fire 2]) sample_world))
  = true.
Proof. repeat split; vm_compute; reflexivity. Qed.

Lemma reloadStatus_validity_witness :
  ∃ w', reloadStatus true sample_world = (Val tt, w') ∧
        componentValid (ctrl w') = true.
Proof.
  destruct (reloadStatus_validity true sample_world 0 eq_refl eq_refl eq_refl)
    as (w' & Hr & Hv & _).
  exists w'. split; [exact Hr|]. apply Hv. vm_compute.
  split; [intros [? ?]; discriminate | reflexivity].
Defined.

End ComponentViewFacts.

(** * Properties of the editor panel *)

Module EditorFacts.
Import Editor.

#[local] Arguments lookup : simpl never.
#[local] Arguments insert : simpl never.

Ltac mstep := cbv [mbind M_bind mret M_ret gets modify throw when deref callable
   getc setc emit getState setState timeout timeout_cancel findItem changeItem
   exec task] in *.

Ltac case_var c :=
  match c with
  | negb ?b => case_var b
  | andb ?a ?b => first [case_var a | case_var b]
  | orb ?a ?b => first [case_var a | case_var b]
  | eqb ?a ?b => first [case_var a | case_var b]
  | bool_decide ?P => destruct (bool_decide P) eqn:?
  | _ => is_var c; destruct c
  end.

Ltac split_ifs :=
  repeat (cbn; try match goal with
  | |- context [if ?b then _ else _] => case_var b
  | |- context [match ?x with _ => _ end] => is_var x; destruct x
  end).

(** ** Saving *)

Lemma saveNote_rejected b u d f w n :
  note (state (ctrl w)) = Some n →
  deleted n = true ∨ items w !! uuid n = None →
  ∃ w', saveNote b u d f w = (Val tt, w') ∧
        ctrl w' = ctrl w ∧ items w' = items w ∧ timeouts w' = timeouts w ∧
        log w' = log w
                 ++ (if documentHidden (env w) then [LocationReload] else [])
                 ++ [Alert (if deleted n then STRING_DELETED_NOTE (env w)
                            else STRING_INVALID_NOTE (env w))].
Proof.
  intros Hn Hbad.
  destruct w as [c t it lg ck e]; destruct c as [st ev sv stt ? ? ? ? ? ? ? ? ? ?];
    destruct st, e; simpl in *. subst.
  unfold saveNote, performFirefoxPinnedTabFix. mstep.
  destruct documentHidden0; cbn; destruct (deleted n) eqn:Hd; cbn.
  all: try (eexists; repeat split; by rewrite <- ?app_assoc).
  all: destruct Hbad as [?| ->]; [done|]; cbn.
  all: eexists; repeat split; by rewrite <- ?app_assoc.
Qed.


(** C7: saving a deleted note, or a note the item store does not know,
    alerts the user and changes neither the controller, the item store nor
    the timers. *)
Theorem saveNote_rejects_missing_note b u d f w n :
  note (state (ctrl w)) = Some n →
  deleted n = true ∨ items w !! uuid n = None →
  ∃ w', saveNote b u d f w = (Val tt, w') ∧
        ctrl w' = ctrl w ∧ items w' = items w ∧ timeouts w' = timeouts w ∧
        log w' = log w
                 ++ (if documentHidden (env w) then [LocationReload] else [])
                 ++ [Alert (if deleted n then STRING_DELETED_NOTE (env w)
                            else STRING_INVALID_NOTE (env w))].
Proof. apply saveNote_rejected. Qed.

Lemma saveNote_rejects_missing_note_witness :
  ∃ w', saveNote false true false None (step (Stored ∅) sample_world)
        = (Val tt, w') ∧
        ctrl w' = ctrl (step (Stored ∅) sample_world) ∧
        timeouts w' = timeouts (step (Stored ∅) sample_world).
Proof.
  destruct (saveNote_rejects_missing_note false true false None
              (step (Stored ∅) sample_world) sample_note eq_refl
              (or_intror (lookup_empty _)))
    as (w' & Hs & Hc & _ & Ht & _).
  exists w'. split; [exact Hs|]. split; [exact Hc | exact Ht].
Defined.

(** What an accepted [saveNote] does. *)
Lemma saveNote_accepted b u d f w n item :
  note (state (ctrl w)) = Some n →
  deleted n = false →
  items w !! uuid n = Some item →
  let w1 := exec showSavingStatus (exec performFirefoxPinnedTabFix w) in
  let s1 := timeouts (exec (timeout_cancel (saveTimeout (ctrl w))) w1) in
  let delay :=
    if b || noAccount (env w)
    then SAVE_TIMEOUT_NO_DEBOUNCE else SAVE_TIMEOUT_DEBOUNCE in
  ∃ w', saveNote b u d f w = (Val tt, w') ∧
        items w' =
          <[uuid n := saved_item d f (editorValues (ctrl w))
                        (STRING_ELLIPSES (env w)) n item]> (items w) ∧
        timeouts w' = (schedule (clock w) delay CbSync s1).2 ∧
        saveTimeout (ctrl w') = Some (next_id s1) ∧
        statusTimeout (ctrl w') = statusTimeout (ctrl w1) ∧
        state (ctrl w') = state (ctrl w) ∧
        editorValues (ctrl w') = editorValues (ctrl w) ∧
        log w' = log w1 ∧ clock w' = clock w ∧ env w' = env w.
Proof.
  intros Hn Hd Hi.
  destruct w as [c t it lg ck e];
    destruct c as [st ev sv stt ? ? ? ? ? ? ? ? ? ?];
    destruct st as [? ? ? ? ns ? ?], e; simpl in *. subst.
  unfold saveNote, showSavingStatus, setStatus, performFirefoxPinnedTabFix,
    saved_item.
  mstep.
  destruct documentHidden0, stt, sv, b, noAccount0, d;
    repeat (cbn; unfold NoteMutator; rewrite ?Hd, ?Hi);
    eexists; repeat split.
Qed.


Lemma substring_from_0 (k : nat) (t : jsstring) : substring 0 k t = take k t.
Proof. unfold substring. by rewrite Nat.min_0_l, Nat.max_0_l, Nat.sub_0_r. Qed.

(** C9: an accepted [saveNote] that updates previews stores, as
    [preview_plain], the first 80 characters of the text the note had
    before the change, followed by the ellipsis exactly when that text is
    longer than 80 characters, and clears [preview_html].  Characters are
    UTF-16 code units, as [length] and [substring] count them. *)
Theorem saveNote_preview b u f w n item :
  note (state (ctrl w)) = Some n →
  deleted n = false →
  items w !! uuid n = Some item →
  let old := default [] (text n) in
  let head := take 80 old in
  ∃ w' item',
    saveNote b u false f w = (Val tt, w') ∧
    items w' !! uuid n = Some item' ∧
    preview_plain item' =
      Some (head ++ (if bool_decide (80 < length old)
                     then STRING_ELLIPSES (env w) else [])) ∧
    preview_html item' = None ∧
    text item' = values_text (editorValues (ctrl w)) ∧
    head `prefix_of` old ∧
    length head = Nat.min 80 (length old) ∧
    (∀ i, i < 80 → head !! i = old !! i).
Proof.
  intros Hn Hd Hi old head.
  destruct (saveNote_accepted b u false f w n item Hn Hd Hi)
    as (w' & Hs & Hit & _).
  eexists w', _. split; [exact Hs|]. split.
  { rewrite Hit. apply lookup_insert_eq. }
  split.
  { unfold saved_item, previewPlain, NOTE_PREVIEW_CHAR_LIMIT. simpl.
    by rewrite substring_from_0. }
  split; [done|]. split; [done|]. split; [apply prefix_take|].
  split; [apply length_take|].
  intros i Hi80. by apply lookup_take_lt.
Qed.

Lemma saveNote_preview_witness :
  ∃ w' item',
    saveNote false true false None sample_world = (Val tt, w') ∧
    items w' !! "note-1"%string = Some item' ∧
    preview_plain item' = Some (units "Text").
Proof.
  destruct (saveNote_preview false true None sample_world sample_note
              sample_note eq_refl eq_refl eq_refl)
    as (w' & item' & Hs & Hi & Hp & _).
  exists w', item'. split; [exact Hs|]. split; [exact Hi | exact Hp].
Defined.

(** ** Components *)

(** C8: an active editor component that is explicitly enabled for the
    current note replaces a selected editor that is active but not
    explicitly enabled for the note, whether or not the selected editor is
    the default editor. *)
Theorem activation_prefers_explicitly_enabled c s n w :
  area (heap (env w) c) = "editor-editor"%string →
  active (heap (env w) c) = true →
  note (state (ctrl w)) = Some n →
  selectedEditor (state (ctrl w)) = Some s →
  active (heap (env w) s) = true →
  isExplicitlyEnabledForItem (heap (env w) c) (uuid n) = true →
  isExplicitlyEnabledForItem (heap (env w) s) (uuid n) = false →
  ∃ w', activationHandler c w = (Val tt, w') ∧
        selectedEditor (state (ctrl w')) = Some c ∧
        note (state (ctrl w')) = Some n.
Proof.
  intros Ha Hact Hn Hs Hsact Hc Hsel.
  destruct w as [ct t it lg ck e];
    destruct ct as [st ev sv stt ? ? ? ? ? ? ? ? ? ?];
    destruct st, e; simpl in *. subst.
  unfold activationHandler. mstep. cbn.
  rewrite Ha, Hact. cbn. rewrite andb_false_r. cbn.
  rewrite Hsact, Hc, Hsel. cbn.
  by eexists.
Qed.

Lemma activation_prefers_explicitly_enabled_witness :
  ∃ w', activationHandler 1 default_editor_selected = (Val tt, w') ∧
        selectedEditor (state (ctrl w')) = Some 1.
Proof.
  destruct (activation_prefers_explicitly_enabled 1 0 sample_note
              default_editor_selected eq_refl eq_refl eq_refl eq_refl eq_refl
              eq_refl eq_refl)
    as (w' & Hs & Hsel & _).
  exists w'. split; [exact Hs | exact Hsel].
Defined.

(** C10: the context request handler hands the current note to the
    selected editor, the tags component and the members of the component
    stack, and to nobody else. *)
Theorem contextRequestHandler_recipients st c :
  (selectedEditor st = Some c ∨ tagsComponent st = Some c
   ∨ c ∈ componentStack st →
   contextRequestHandler st c = Return (note st)) ∧
  (contextRequestHandler st c ≠ Undefined →
   selectedEditor st = Some c ∨ tagsComponent st = Some c
   ∨ c ∈ componentStack st) ∧
  (selectedEditor st ≠ Some c → tagsComponent st ≠ Some c →
   c ∉ componentStack st →
   contextRequestHandler st c = Undefined).
Proof.
  unfold contextRequestHandler.
  destruct (bool_decide (selectedEditor st = Some c)) eqn:H1;
    destruct (bool_decide (tagsComponent st = Some c)) eqn:H2;
    destruct (bool_decide (c ∈ componentStack st)) eqn:H3; simpl;
    try apply bool_decide_eq_true in H1;
    try apply bool_decide_eq_true in H2;
    try apply bool_decide_eq_true in H3;
    try apply bool_decide_eq_false in H1;
    try apply bool_decide_eq_false in H2;
    try apply bool_decide_eq_false in H3;
    repeat split; try done; auto; intros; tauto.
Qed.


(** ** The timer queue *)

Section Timers.
Context {C : Type}.
Implicit Types (s : TimeoutService C) (t : Timer C).

Lemma fresh_ids_cancel id s : fresh_ids s → fresh_ids (cancel id s).
Proof.
  intros [Hnd Hlt]. split; simpl.
  - eapply sublist_NoDup; [exact Hnd|].
    apply fmap_sublist, sublist_filter.
  - rewrite Forall_forall in *. intros t [_ Hin]%list_elem_of_filter. auto.
Qed.

Lemma fresh_ids_schedule now d cb s :
  fresh_ids s → fresh_ids (schedule now d cb s).2.
Proof.
  intros [Hnd Hlt]. split; simpl.
  - rewrite fmap_app. apply NoDup_app. split; [done|]. split.
    + intros x Hx ->%list_elem_of_singleton.
      apply list_elem_of_fmap in Hx as (t & Ht & Hin).
      rewrite Forall_forall in Hlt. specialize (Hlt t Hin). simpl in *. lia.
    + apply NoDup_singleton.
  - apply Forall_app. split.
    + eapply Forall_impl; [exact Hlt|]. simpl. lia.
    + apply Forall_singleton. simpl. lia.
Qed.

(** A timer can be found under its handle while handles are distinct. *)
Lemma find_timer_elem s t :
  fresh_ids s → t ∈ pending s → find_timer (timer_id t) s = Some t.
Proof.
  intros [Hnd _]. unfold find_timer.
  induction (pending s) as [|t' l IH]; intros Hin; [by inversion Hin|].
  rewrite fmap_cons in Hnd. apply NoDup_cons in Hnd as [Hni Hnd].
  rewrite filter_cons. apply elem_of_cons in Hin as [->|Hin].
  - by rewrite decide_True.
  - rewrite decide_False; [by apply IH|].
    intros Heq. apply Hni. rewrite Heq. by apply list_elem_of_fmap_2.
Qed.

Lemma find_timer_schedule now d cb s :
  fresh_ids s →
  find_timer (next_id s) (schedule now d cb s).2
  = Some {| timer_id := next_id s; timer_due := (now + d)%Z; timer_cb := cb |}.
Proof.
  intros Hf.
  apply (find_timer_elem (schedule now d cb s).2
           {| timer_id := next_id s; timer_due := (now + d)%Z; timer_cb := cb |}).
  - by apply fresh_ids_schedule.
  - simpl. apply elem_of_app. right. by apply list_elem_of_singleton.
Qed.

Lemma find_timer_Some id s t :
  find_timer id s = Some t → t ∈ pending s ∧ timer_id t = id.
Proof.
  unfold find_timer. intros H. apply head_Some_elem_of in H.
  by apply list_elem_of_filter in H as [? ?].
Qed.
End Timers.


(** ** Status messages *)

(** What [setStatus] does: the status shown stays, the previous status
    timer is cancelled and one new timer is armed. *)
Lemma setStatus_result status (wait : bool) (w : World) :
  let waitForMs :=
    match noteStatus (state (ctrl w)) ≫= date with
    | Some shown =>
        if wait
        then Z.max 0 (MINIMUM_STATUS_DURATION - (clock w - shown))
        else 0%Z
    | None => 0%Z
    end in
  let s0 := timeouts (exec (timeout_cancel (statusTimeout (ctrl w))) w) in
  ∃ w', setStatus status wait w = (Val tt, w') ∧
        timeouts w' = (schedule (clock w) waitForMs (CbSetStatus status) s0).2 ∧
        statusTimeout (ctrl w') = Some (next_id (timeouts w)) ∧
        saveTimeout (ctrl w') = saveTimeout (ctrl w) ∧
        state (ctrl w') = state (ctrl w) ∧
        editorValues (ctrl w') = editorValues (ctrl w) ∧
        items w' = items w ∧ log w' = log w ∧ clock w' = clock w ∧
        env w' = env w.
Proof.
  destruct w as [c t it lg ck e];
    destruct c as [st ev sv stt ? ? ? ? ? ? ? ? ? ?];
    destruct st as [? ? ? ? ns ? ?]; simpl.
  unfold setStatus. mstep. cbn.
  assert (Hw : ∀ z : Z,
    (if negb wait || bool_decide (z < 0)%Z then 0%Z else z)
    = (if wait then Z.max 0 z else 0%Z)).
  { intros z. destruct wait; simpl; [|done]. case_bool_decide; lia. }
  destruct ns as [[? ? [shown|]]|]; cbn; rewrite ?Hw;
    destruct stt, wait; cbn; eexists; repeat split.
Qed.

Lemma fire_due id w t :
  find_timer id (timeouts w) = Some t →
  (timer_due t ≤ clock w)%Z →
  step (Fire id) w
  = task (run_callback (timer_cb t)) (set_timeouts (cancel id (timeouts w)) w).
Proof.
  intros Hf Hd. simpl. unfold take_due. rewrite Hf.
  by rewrite bool_decide_eq_true_2.
Qed.

Lemma fire_early id w t :
  find_timer id (timeouts w) = Some t →
  (clock w < timer_due t)%Z →
  step (Fire id) w = w.
Proof.
  intros Hf Hd. simpl. unfold take_due. rewrite Hf.
  rewrite bool_decide_eq_false_2; [done | lia].
Qed.

(** C3, as the code has it: a status requested with [wait] replaces the
    status on display no sooner than 400ms after that status was shown; a
    status requested without [wait], as "Saving..." is, replaces it as
    soon as the timer queue runs. *)
Theorem status_waits_minimum_duration status (wait : bool) (w : World)
    current shown :
  noteStatus (state (ctrl w)) = Some current →
  date current = Some shown →
  fresh_ids (timeouts w) →
  let w1 := exec (setStatus status wait) w in
  let id := next_id (timeouts w) in
  let due :=
    (clock w + (if wait
                then Z.max 0 (MINIMUM_STATUS_DURATION - (clock w - shown))
                else 0))%Z in
  statusTimeout (ctrl w1) = Some id ∧
  noteStatus (state (ctrl w1)) = Some current ∧
  find_timer id (timeouts w1)
  = Some {| timer_id := id; timer_due := due; timer_cb := CbSetStatus status |} ∧
  (wait = true → (shown + MINIMUM_STATUS_DURATION ≤ due)%Z) ∧
  (wait = false → due = clock w) ∧
  ∀ w2,
    timeouts w2 = timeouts w1 →
    ((clock w2 < due)%Z → step (Fire id) w2 = w2) ∧
    ((due ≤ clock w2)%Z →
     noteStatus (state (ctrl (step (Fire id) w2)))
     = Some {| message := message status; desc := desc status;
               date := Some (clock w2) |}).
Proof.
  intros Hs Hd Hf w1 id due.
  destruct (setStatus_result status wait w)
    as (w' & Hr & Ht & Hst & _ & Hstate & _).
  assert (Hw1 : w1 = w') by (unfold w1, exec; by rewrite Hr). clearbody w1.
  subst w'. rewrite Hs in Ht. destruct current as [m ds dt].
  simpl in Hd. subst dt.
  set (s0 := timeouts (exec (timeout_cancel (statusTimeout (ctrl w))) w)) in *.
  assert (Hs0 : fresh_ids s0 ∧ next_id s0 = next_id (timeouts w)).
  { unfold s0. destruct (statusTimeout (ctrl w)); simpl; [|done].
    split; [by apply fresh_ids_cancel | done]. }
  destruct Hs0 as [Hf0 Hn0].
  assert (Hfind : find_timer id (timeouts w1)
    = Some {| timer_id := id; timer_due := due;
              timer_cb := CbSetStatus status |}).
  { rewrite Ht. unfold id. rewrite <- Hn0.
    by rewrite find_timer_schedule. }
  split; [done|]. split; [by rewrite Hstate|]. split; [done|].
  split; [|split].
  - intros ->. unfold due, MINIMUM_STATUS_DURATION. lia.
  - intros ->. unfold due. lia.
  - intros w2 Heq. rewrite <- Heq in Hfind. split; intros Hc.
    + by rewrite (fire_early id w2 _ Hfind).
    + by rewrite (fire_due id w2 _ Hfind).
Qed.

Lemma status_waits_minimum_duration_witness :
  statusTimeout
    (ctrl (exec (setStatus
                   {| message := Some "Sync Unreachable"%string;
                      desc := None; date := None |} true)
             (run [AppEvent CompletedSync; Fire 0; Tick 10] sample_world)))
  = Some (next_id
            (timeouts
               (run [AppEvent CompletedSync; Fire 0; Tick 10] sample_world))).
Proof.
  refine (proj1
    (status_waits_minimum_duration
       {| message := Some "Sync Unreachable"%string; desc := None; date := None |}
       true
       (run [AppEvent CompletedSync; Fire 0; Tick 10] sample_world)
       {| message := Some "All changes saved"%string; desc := None;
          date := Some 0%Z |}
       0%Z _ _ _)); try (vm_compute; reflexivity).
  split; vm_compute; [apply NoDup_nil_2 | apply Forall_nil_2].
Defined.

(** C3 fails as stated: "All changes saved" is shown at time 0, the user
    types at time 10, and "Saving..." replaces it at time 10. *)
Lemma saving_status_replaces_at_once :
  noteStatus (state (ctrl (run [AppEvent CompletedSync; Fire 0] sample_world)))
  = Some {| message := Some "All changes saved"%string; desc := None;
            date := Some 0%Z |} ∧
  noteStatus (state (ctrl (run saved_then_typed sample_world)))
  = Some {| message := Some "Saving..."%string; desc := None;
            date := Some 10%Z |}.
Proof. split; vm_compute; reflexivity. Qed.


(** ** Frame: what the handlers leave alone *)

Lemma preserves_forEach {A} (P : World → Prop) (l : list A) body :
  (∀ x, preserves P (body x)) → preserves P (forEach l body).
Proof.
  intros Hb. induction l as [|x l IH]; simpl.
  - apply preserves_ret.
  - apply preserves_bind; [apply Hb | intros _; apply IH].
Qed.

(** A property that looks at the save slot, the timer queue and the calls
    of [sync] only is kept by every event except [saveNote]. *)
Section Frame.
Context (P : World → Prop).
Context (P_ctrl : ∀ c w, saveTimeout c = saveTimeout (ctrl w) →
                         P w → P (set_ctrl c w)).
Context (P_log : ∀ x w, is_sync x = false → P w → P (set_log (log w ++ [x]) w)).
Context (P_items : ∀ i w, P w → P (set_items i w)).
Context (P_clock : ∀ z w, P w → P (set_clock z w)).
Context (P_env : ∀ e w, P w → P (set_env e w)).
Context (P_cancel : ∀ id w, P w → P (set_timeouts (cancel id (timeouts w)) w)).
Context (P_status : ∀ now d st w,
           P w → P (set_timeouts (schedule now d (CbSetStatus st) (timeouts w)).2 w)).
Context (P_sync : ∀ id w, is_sync_timer <$> find_timer id (timeouts w) = Some true →
           P w →
           P (set_log (log w ++ [Sync]) (set_timeouts (cancel id (timeouts w)) w))).

Lemma keeps_setState f : preserves P (setState f).
Proof. apply preserves_modify. intros w. by apply P_ctrl. Qed.

Lemma keeps_emit x : is_sync x = false → preserves P (emit x).
Proof. intros Hx. apply preserves_modify. intros w. by apply P_log. Qed.

Lemma keeps_timeout_cancel h : preserves P (timeout_cancel h).
Proof.
  destruct h; [|apply preserves_ret].
  apply preserves_modify. intros w. apply P_cancel.
Qed.

Lemma keeps_setStatus status wait : preserves P (setStatus status wait).
Proof.
  unfold setStatus, getState, getc.
  repeat first [apply preserves_bind; [|intros ?] | apply preserves_gets].
  - apply keeps_timeout_cancel.
  - intros w Hw. apply P_status, Hw.
  - apply preserves_modify. intros w. by apply P_ctrl.
Qed.

Lemma keeps_showAllChangesSavedStatus : preserves P showAllChangesSavedStatus.
Proof.
  apply preserves_bind; [apply keeps_setState | intros _; apply keeps_setStatus].
Qed.

Lemma keeps_showErrorStatus e : preserves P (showErrorStatus e).
Proof.
  apply preserves_bind; [apply keeps_setState | intros _; apply keeps_setStatus].
Qed.

Ltac keeps :=
  repeat match goal with
    | |- preserves _ (setState _) => apply keeps_setState
    | |- preserves _ (setStatus _ _) => apply keeps_setStatus
    | |- preserves _ showSavingStatus => apply keeps_setStatus
    | |- preserves _ showAllChangesSavedStatus =>
        apply keeps_showAllChangesSavedStatus
    | |- preserves _ (showErrorStatus _) => apply keeps_showErrorStatus
    | |- preserves _ (emit _) => apply keeps_emit; reflexivity
    | |- preserves _ (mret _) => apply preserves_ret
    | |- preserves _ (gets _) => apply preserves_gets
    | |- preserves _ (throw _) => apply preserves_throw
    | |- preserves _ (when _ _) => apply preserves_when
    | |- preserves _ (deref _) => apply preserves_deref
    | |- preserves _ (forEach _ _) => apply preserves_forEach; intros ?
    | |- preserves _ (mbind _ _) => apply preserves_bind; [|intros ?]
    | |- preserves _ (match ?x with _ => _ end) => destruct x
    | |- preserves _ (let _ := _ in _) => cbv zeta
    end.

Lemma keeps_onAppEvent ev : preserves P (onAppEvent ev).
Proof. unfold onAppEvent, getState, getc. keeps. Qed.

Lemma keeps_reloadComponentContext : preserves P reloadComponentContext.
Proof.
  unfold reloadComponentContext, reloadComponentStackArray, getState, getc.
  keeps.
Qed.

Lemma keeps_activationHandler c : preserves P (activationHandler c).
Proof.
  unfold activationHandler, getState, getc. keeps.
  apply keeps_reloadComponentContext.
Qed.

Lemma keeps_actionHandlerSaveItems l : preserves P (actionHandlerSaveItems l).
Proof.
  unfold actionHandlerSaveItems, showSavingStatus, getState, getc. keeps.
Qed.

Lemma keeps_task m w : preserves P m → P w → P (task m w).
Proof.
  intros Hm H. specialize (Hm w H). unfold exec, task in *.
  destruct (m w) as [[a|e] w1]; simpl in *; [done | by apply P_log].
Qed.

Lemma step_keeps e w : is_save e = false → P w → P (step e w).
Proof.
  intros He Hw. destruct e; simpl in *; try done.
  - by apply P_clock.
  - by apply P_env.
  - by apply P_items.
  - by apply keeps_task; [apply keeps_setState|].
  - apply keeps_task; [|done]. apply preserves_modify.
    intros w'. by apply P_ctrl.
  - unfold take_due.
    destruct (find_timer id (timeouts w)) as [t|] eqn:Hf; [|done].
    case_bool_decide; [|done].
    destruct t as [i due [|status]]; simpl.
    + unfold task, emit, modify. simpl. apply P_sync; [|done].
      by rewrite Hf.
    + apply keeps_task; [|by apply P_cancel].
      apply preserves_bind; [apply preserves_gets|intros ?].
      apply keeps_setState.
  - by apply keeps_task; [apply keeps_onAppEvent|].
  - by apply keeps_task; [apply keeps_activationHandler|].
  - by apply keeps_task; [apply keeps_actionHandlerSaveItems|].
Qed.
End Frame.


(** ** The sync timers *)

Lemma sync_of_cancel id s :
  sync_of (cancel id s) = filter (λ t, timer_id t ≠ id) (sync_of s).
Proof.
  unfold sync_of. simpl. induction (pending s) as [|t l IH]; [done|].
  rewrite !filter_cons.
  destruct (decide (timer_id t ≠ id)), (decide (is_sync_timer t = true));
    rewrite ?filter_cons, ?decide_True, ?decide_False by done;
    by rewrite ?IH.
Qed.

Lemma sync_of_cancel_handle h s :
  sync_of (cancel_handle h s)
  = filter (λ t, Some (timer_id t) ≠ h) (sync_of s).
Proof.
  destruct h as [id|]; simpl.
  - rewrite sync_of_cancel. apply list_filter_iff. intros t. naive_solver.
  - symmetry. induction (sync_of s) as [|t l IH]; [done|].
    by rewrite filter_cons, decide_True, IH.
Qed.

Lemma sync_of_schedule now d cb s :
  sync_of (schedule now d cb s).2
  = sync_of s ++
    match cb with
    | CbSync => [{| timer_id := next_id s; timer_due := (now + d)%Z;
                    timer_cb := CbSync |}]
    | CbSetStatus _ => []
    end.
Proof.
  unfold sync_of. simpl. rewrite filter_app. f_equal. by destruct cb.
Qed.

Lemma syncs_snoc l x :
  syncs (l ++ [x]) = syncs l + (if is_sync x then 1 else 0).
Proof.
  unfold syncs. rewrite filter_app, length_app. f_equal.
  rewrite filter_cons, filter_nil. destruct (is_sync x); by case_decide.
Qed.

Lemma timeouts_cancel_handle h w :
  timeouts (exec (timeout_cancel h) w) = cancel_handle h (timeouts w).
Proof. by destruct h. Qed.

Lemma single_slot_filter (Q : Timer Callback → Prop) `{∀ t, Decision (Q t)}
    (l : list (Timer Callback)) (h : option nat) :
  match l with [] => True | [t] => h = Some (timer_id t) | _ => False end →
  match filter Q l with [] => True | [t] => h = Some (timer_id t) | _ => False end.
Proof.
  destruct l as [|t [|t' l]]; try done.
  rewrite filter_cons, filter_nil. by case_decide.
Qed.

Lemma single_slot_frame :
  (∀ c w, saveTimeout c = saveTimeout (ctrl w) →
          single_slot w → single_slot (set_ctrl c w)) ∧
  (∀ id w, single_slot w →
           single_slot (set_timeouts (cancel id (timeouts w)) w)) ∧
  (∀ now d st w, single_slot w →
     single_slot (set_timeouts (schedule now d (CbSetStatus st) (timeouts w)).2 w)).
Proof.
  unfold single_slot, sync_timers. split; [|split].
  - intros c w Hc. simpl. by rewrite Hc.
  - intros id w. simpl. rewrite sync_of_cancel. apply single_slot_filter.
  - intros now d st w. cbn [timeouts set_timeouts ctrl].
    by rewrite sync_of_schedule, app_nil_r.
Qed.

Lemma sync_budget_frame k :
  (∀ x w, is_sync x = false →
          sync_budget k w → sync_budget k (set_log (log w ++ [x]) w)) ∧
  (∀ id w, sync_budget k w →
           sync_budget k (set_timeouts (cancel id (timeouts w)) w)) ∧
  (∀ now d st w, sync_budget k w →
     sync_budget k (set_timeouts (schedule now d (CbSetStatus st) (timeouts w)).2 w)) ∧
  (∀ id w, is_sync_timer <$> find_timer id (timeouts w) = Some true →
     sync_budget k w →
     sync_budget k
       (set_log (log w ++ [Sync]) (set_timeouts (cancel id (timeouts w)) w))).
Proof.
  unfold sync_budget, sync_timers. split; [|split; [|split]].
  - intros x w Hx. simpl. rewrite syncs_snoc, Hx. lia.
  - intros id w. simpl. rewrite sync_of_cancel.
    pose proof (length_filter (λ t, timer_id t ≠ id) (sync_of (timeouts w))).
    lia.
  - intros now d st w. cbn [timeouts set_timeouts log set_log].
    rewrite sync_of_schedule, app_nil_r. lia.
  - intros id w Hf. simpl. rewrite syncs_snoc, sync_of_cancel. simpl.
    destruct (find_timer id (timeouts w)) as [t|] eqn:Ht; [|done].
    simpl in Hf. injection Hf as Hf.
    apply find_timer_Some in Ht as [Hin Hid].
    assert (Hlt : length (filter (λ t, timer_id t ≠ id) (sync_of (timeouts w)))
                  < length (sync_of (timeouts w))).
    { apply (length_filter_lt _ _ t); [|by intros ?].
      by apply list_elem_of_filter. }
    lia.
Qed.


Lemma performFirefoxPinnedTabFix_result w :
  ∃ w0, performFirefoxPinnedTabFix w = (Val tt, w0) ∧
        ctrl w0 = ctrl w ∧ timeouts w0 = timeouts w ∧ items w0 = items w ∧
        clock w0 = clock w ∧ env w0 = env w ∧
        log w0 = log w ++ (if documentHidden (env w) then [LocationReload] else []).
Proof.
  unfold performFirefoxPinnedTabFix. mstep.
  destruct (documentHidden (env w)); eexists; repeat split.
  by rewrite app_nil_r.
Qed.

Lemma saveNote_without_note b u d f w :
  note (state (ctrl w)) = None →
  saveNote b u d f w = (Thrown TypeError, exec performFirefoxPinnedTabFix w).
Proof.
  intros Hn. unfold saveNote, performFirefoxPinnedTabFix. mstep.
  destruct (documentHidden (env w)); cbn; by rewrite Hn.
Qed.

Lemma saveNote_accepted_queue b u d f w n item :
  note (state (ctrl w)) = Some n →
  deleted n = false →
  items w !! uuid n = Some item →
  let w' := task (saveNote b u d f) w in
  timeouts w' = queue_after_save (save_delay b w) w ∧
  saveTimeout (ctrl w') = Some (S (next_id (timeouts w))) ∧
  statusTimeout (ctrl w') = Some (next_id (timeouts w)) ∧
  syncs (log w') = syncs (log w) ∧
  state (ctrl w') = state (ctrl w) ∧ clock w' = clock w ∧ env w' = env w.
Proof.
  intros Hn Hd Hi.
  destruct (saveNote_accepted b u d f w n item Hn Hd Hi)
    as (w' & Hs & _ & Ht & Hsv & Hst & Hstate & _ & Hlog & Hck & Henv).
  unfold task. rewrite Hs. clear Hs.
  destruct (performFirefoxPinnedTabFix_result w)
    as (w0 & H0 & Hc0 & Ht0 & _ & Hk0 & He0 & Hl0).
  assert (E0 : exec performFirefoxPinnedTabFix w = w0)
    by (unfold exec; by rewrite H0).
  rewrite E0 in *. clear E0 H0.
  destruct (setStatus_result saving_status false w0)
    as (w1 & H1 & Ht1 & Hst1 & Hsv1 & _ & _ & _ & Hl1 & _).
  assert (E1 : exec showSavingStatus w0 = w1)
    by (unfold exec, showSavingStatus; fold saving_status; by rewrite H1).
  rewrite E1 in *. clear E1 H1.
  assert (Hz : match noteStatus (state (ctrl w0)) ≫= date with
               | Some _ => 0%Z | None => 0%Z end = 0%Z)
    by (by destruct (_ ≫= _)).
  rewrite Hz, timeouts_cancel_handle, Hc0, Ht0, Hk0 in Ht1.
  rewrite timeouts_cancel_handle, Ht1 in Ht, Hsv. simpl.
  repeat split; try done.
  - by rewrite Hsv; destruct (saveTimeout (ctrl w)), (statusTimeout (ctrl w)).
  - by rewrite Hst, Hst1, Ht0.
  - rewrite Hlog, Hl1, Hl0.
    destruct (documentHidden (env w)); [|by rewrite app_nil_r].
    by rewrite syncs_snoc, Nat.add_0_r.
Qed.

(** Whatever [saveNote] does, it calls no [sync] itself, and it either
    leaves the timers alone or refills both slots. *)
Lemma saveNote_effect b u d f w :
  let w' := task (saveNote b u d f) w in
  syncs (log w') = syncs (log w) ∧
  ((timeouts w' = timeouts w ∧ saveTimeout (ctrl w') = saveTimeout (ctrl w)) ∨
   (timeouts w' = queue_after_save (save_delay b w) w ∧
    saveTimeout (ctrl w') = Some (S (next_id (timeouts w))))).
Proof.
  destruct (note (state (ctrl w))) as [n|] eqn:Hn.
  - destruct (deleted n) eqn:Hd; [|destruct (items w !! uuid n) as [item|] eqn:Hi].
    + destruct (saveNote_rejected b u d f w n Hn (or_introl Hd))
        as (w' & Hs & Hc & _ & Ht & Hl).
      unfold task. rewrite Hs. simpl. rewrite Hc, Ht, Hl. split; [|by left].
      rewrite app_assoc, syncs_snoc, Nat.add_0_r.
      destruct (documentHidden (env w)); [|by rewrite app_nil_r].
      by rewrite syncs_snoc, Nat.add_0_r.
    + destruct (saveNote_accepted_queue b u d f w n item Hn Hd Hi)
        as (? & ? & _ & ? & _). split; [done|by right].
    + destruct (saveNote_rejected b u d f w n Hn (or_intror Hi))
        as (w' & Hs & Hc & _ & Ht & Hl).
      unfold task. rewrite Hs. simpl. rewrite Hc, Ht, Hl. split; [|by left].
      rewrite app_assoc, syncs_snoc, Nat.add_0_r.
      destruct (documentHidden (env w)); [|by rewrite app_nil_r].
      by rewrite syncs_snoc, Nat.add_0_r.
  - unfold task. rewrite (saveNote_without_note _ _ _ _ _ Hn).
    destruct (performFirefoxPinnedTabFix_result w)
      as (w0 & H0 & Hc0 & Ht0 & _ & _ & _ & Hl0).
    unfold exec. rewrite H0. simpl. rewrite Hc0, Ht0, Hl0.
    split; [|by left].
    rewrite syncs_snoc, Nat.add_0_r.
    destruct (documentHidden (env w)); [|by rewrite app_nil_r].
    by rewrite syncs_snoc, Nat.add_0_r.
Qed.


(** ** Invariants of runs *)

Lemma editor_run_cons e es w : run (e :: es) w = run es (step e w).
Proof. reflexivity. Qed.

Lemma editor_run_app es1 es2 w :
  run (es1 ++ es2) w = run es2 (run es1 w).
Proof. unfold run. by rewrite foldl_app. Qed.

Lemma step_single_slot e w : single_slot w → single_slot (step e w).
Proof.
  intros Hw. destruct (is_save e) eqn:He.
  - destruct e; try done. simpl.
    destruct (saveNote_effect bypassDebouncer isUserModified
                dontUpdatePreviews customMutate w) as (_ & [[Ht Hs]|[Ht Hs]]);
      unfold single_slot, sync_timers in *; rewrite Ht, Hs; [done|].
    unfold queue_after_save.
    rewrite sync_of_schedule, sync_of_cancel_handle, sync_of_schedule,
      app_nil_r, sync_of_cancel_handle.
    assert (Hnil : filter (λ t, Some (timer_id t) ≠ saveTimeout (ctrl w))
                     (filter (λ t, Some (timer_id t) ≠ statusTimeout (ctrl w))
                        (sync_of (timeouts w))) = []).
    { destruct (sync_of (timeouts w)) as [|t [|t' l]]; try done.
      rewrite filter_cons, filter_nil. case_decide; [|done].
      rewrite filter_cons, filter_nil, decide_False; [done|].
      intros Hne. by rewrite Hw in Hne. }
    rewrite Hnil. simpl. f_equal.
    by destruct (saveTimeout (ctrl w)), (statusTimeout (ctrl w)).
  - destruct single_slot_frame as (Hc & Hk & Hs).
    apply step_keeps; try done.
    intros id w' _ Hw'. by apply (Hk id w') in Hw'.
Qed.

Lemma step_fresh e w : fresh_ids (timeouts w) → fresh_ids (timeouts (step e w)).
Proof.
  intros Hw. destruct (is_save e) eqn:He.
  - destruct e; try done. simpl.
    destruct (saveNote_effect bypassDebouncer isUserModified
                dontUpdatePreviews customMutate w) as (_ & [[Ht Hs]|[Ht Hs]]);
      rewrite Ht; [done|].
    unfold queue_after_save.
    apply fresh_ids_schedule.
    assert (Hch : ∀ h (s : TimeoutService Callback),
               fresh_ids s → fresh_ids (cancel_handle h s)).
    { intros [id|] s' Hs'; [by apply fresh_ids_cancel | done]. }
    by apply Hch, fresh_ids_schedule, Hch.
  - apply (step_keeps (λ w, fresh_ids (timeouts w))); try done.
    + intros id w'. apply fresh_ids_cancel.
    + intros now d st w'. apply fresh_ids_schedule.
    + intros id w' _. apply fresh_ids_cancel.
Qed.

Lemma step_sync_budget k e w :
  is_save e = false → sync_budget k w → sync_budget k (step e w).
Proof.
  intros He. destruct (sync_budget_frame k) as (Hl & Hc & Hs & Hf).
  by apply step_keeps.
Qed.

Lemma run_single_slot es w : single_slot w → single_slot (run es w).
Proof.
  revert w. induction es as [|e es IH]; intros w Hw; [done|].
  rewrite editor_run_cons. by apply IH, step_single_slot.
Qed.

Lemma run_fresh es w : fresh_ids (timeouts w) → fresh_ids (timeouts (run es w)).
Proof.
  revert w. induction es as [|e es IH]; intros w Hw; [done|].
  rewrite editor_run_cons. by apply IH, step_fresh.
Qed.

Lemma run_sync_budget k es w :
  Forall (λ e, is_save e = false) es →
  sync_budget k w → sync_budget k (run es w).
Proof.
  revert w. induction es as [|e es IH]; intros w Hes Hw; [done|].
  apply Forall_cons in Hes as [He Hes].
  rewrite editor_run_cons. by apply IH, step_sync_budget.
Qed.

Lemma single_slot_length w : single_slot w → length (sync_timers w) ≤ 1.
Proof.
  unfold single_slot. destruct (sync_timers w) as [|t [|t' l]]; simpl; try done; lia.
Qed.

Lemma no_timers_invariants w :
  pending (timeouts w) = [] → single_slot w ∧ fresh_ids (timeouts w).
Proof.
  intros Hp. unfold single_slot, sync_timers, sync_of, fresh_ids.
  rewrite Hp. repeat split; [apply NoDup_nil_2 | apply Forall_nil_2].
Qed.



(** ** Teardown *)

Lemma deinit_result super_deinit w :
  removeAltKeyObserver (ctrl w) = true →
  removeTrashKeyObserver (ctrl w) = true →
  removeDeleteKeyObserver (ctrl w) = true →
  unregisterComponent (ctrl w) = true →
  ∃ w1, deinit super_deinit w = super_deinit w1 ∧
        timeouts w1 = timeouts w ∧
        saveTimeout (ctrl w1) = None ∧ statusTimeout (ctrl w1) = None ∧
        state (ctrl w1) = state (ctrl w) ∧ items w1 = items w ∧
        clock w1 = clock w.
Proof.
  intros H1 H2 H3 H4.
  destruct w as [c t it lg ck e];
    destruct c as [st ev sv stt ? ? ? rt ? ? ? ? ? ?]; simpl in *. subst.
  unfold deinit. mstep. destruct rt; cbn; eexists; repeat split.
Qed.

(** The calls and the disposers of a teardown, up to [super.deinit()]. *)
Lemma deinit_calls super_deinit w :
  removeAltKeyObserver (ctrl w) = true →
  removeTrashKeyObserver (ctrl w) = true →
  removeDeleteKeyObserver (ctrl w) = true →
  unregisterComponent (ctrl w) = true →
  ∃ w1, deinit super_deinit w = super_deinit w1 ∧
        timeouts w1 = timeouts w ∧
        saveTimeout (ctrl w1) = None ∧ statusTimeout (ctrl w1) = None ∧
        state (ctrl w1) = state (ctrl w) ∧ items w1 = items w ∧
        clock w1 = clock w ∧
        removeAltKeyObserver (ctrl w1) = false ∧
        removeTrashKeyObserver (ctrl w1) = false ∧
        removeDeleteKeyObserver (ctrl w1) = false ∧
        removeTabObserver (ctrl w1) = false ∧
        leftPanelPuppet (ctrl w1) = false ∧
        rightPanelPuppet (ctrl w1) = false ∧
        onEditorLoad (ctrl w1) = false ∧
        unregisterComponent (ctrl w1) = false ∧
        onPanelResizeFinish (ctrl w1) = false ∧
        editorMenuOnSelect (ctrl w1) = false ∧
        log w1 = log w
                 ++ [RemoveKeyObserver "alt"; RemoveKeyObserver "trash";
                     RemoveKeyObserver "delete"]
                 ++ (if removeTabObserver (ctrl w)
                     then [RemoveKeyObserver "tab"] else [])
                 ++ [UnregisterComponent].
Proof.
  intros H1 H2 H3 H4.
  destruct w as [c t it lg ck e];
    destruct c as [st ev sv stt ? ? ? rt ? ? ? ? ? ?]; simpl in *. subst.
  unfold deinit. mstep.
  destruct rt; cbn; eexists; (split; [reflexivity|]); cbn;
    repeat split; by rewrite <- ?app_assoc.
Qed.

End EditorFacts.

(** * Teardown of both controllers *)

(** C2, as the code has it.  [$onDestroy] removes the scope listener, the
    component handler, the desktop observer and the visibility listener,
    deregisters the component at most once (not under [manualDealloc], and
    only while application and component manager are live) and nulls its
    references.  [deinit], before it hands over to [super.deinit()] of the
    base class, removes its key observers, unregisters its component
    handler, drops its puppets and bound callbacks and forgets the handles
    of its save and status timers.  Neither cancels a timer: every timer
    armed before stays in the queue. *)
Theorem teardown_leaves_timers_pending
    (w : ComponentView.World) (v : Editor.World)
    (super_deinit : M Editor.World unit) :
  ComponentView.cleanUpOn (ComponentView.ctrl w) = true →
  ComponentView.unregisterComponentHandler (ComponentView.ctrl w) = true →
  ComponentView.unregisterDesktopObserver (ComponentView.ctrl w) = true →
  ComponentView.onVisibilityChange (ComponentView.ctrl w) = true →
  Editor.removeAltKeyObserver (Editor.ctrl v) = true →
  Editor.removeTrashKeyObserver (Editor.ctrl v) = true →
  Editor.removeDeleteKeyObserver (Editor.ctrl v) = true →
  Editor.unregisterComponent (Editor.ctrl v) = true →
  (let w' := ComponentView.step ComponentView.Destroy w in
   ComponentView.timeouts w' = ComponentView.timeouts w ∧
   ComponentView.promises w' = ComponentView.promises w ∧
   ComponentView.iframeOnload w' = ComponentView.iframeOnload w ∧
   ComponentView.visibilityListener w' = false ∧
   ComponentView.scopeListening w' = false ∧
   ComponentView.handlerRegistered w' = false ∧
   ComponentView.desktopObserving w' = false ∧
   ComponentView.component (ComponentView.ctrl w') = None ∧
   ComponentView.onLoad (ComponentView.ctrl w') = false ∧
   ComponentView.application (ComponentView.ctrl w') = false ∧
   ComponentView.onVisibilityChange (ComponentView.ctrl w') = false ∧
   ComponentView.loading (ComponentView.ctrl w')
   = ComponentView.loading (ComponentView.ctrl w) ∧
   ComponentView.loadTimeout (ComponentView.ctrl w')
   = ComponentView.loadTimeout (ComponentView.ctrl w) ∧
   ComponentView.cleanUpOn (ComponentView.ctrl w') = false ∧
   ComponentView.unregisterComponentHandler (ComponentView.ctrl w') = false ∧
   ComponentView.unregisterDesktopObserver (ComponentView.ctrl w') = false ∧
   ComponentView.log w'
   = ComponentView.log w
     ++ match ComponentView.component (ComponentView.ctrl w) with
        | Some r =>
            if negb (ComponentView.manualDealloc (ComponentView.ctrl w))
               && ComponentView.application (ComponentView.ctrl w)
               && ComponentView.componentManager (ComponentView.env w)
            then [ComponentView.DeregisterComponent r] else []
        | None => []
        end) ∧
  (∃ v1, Editor.deinit super_deinit v = super_deinit v1 ∧
         Editor.timeouts v1 = Editor.timeouts v ∧
         Editor.saveTimeout (Editor.ctrl v1) = None ∧
         Editor.statusTimeout (Editor.ctrl v1) = None ∧
         Editor.state (Editor.ctrl v1) = Editor.state (Editor.ctrl v) ∧
         Editor.items v1 = Editor.items v ∧
         Editor.clock v1 = Editor.clock v ∧
         Editor.removeAltKeyObserver (Editor.ctrl v1) = false ∧
         Editor.removeTrashKeyObserver (Editor.ctrl v1) = false ∧
         Editor.removeDeleteKeyObserver (Editor.ctrl v1) = false ∧
         Editor.removeTabObserver (Editor.ctrl v1) = false ∧
         Editor.leftPanelPuppet (Editor.ctrl v1) = false ∧
         Editor.rightPanelPuppet (Editor.ctrl v1) = false ∧
         Editor.onEditorLoad (Editor.ctrl v1) = false ∧
         Editor.unregisterComponent (Editor.ctrl v1) = false ∧
         Editor.onPanelResizeFinish (Editor.ctrl v1) = false ∧
         Editor.editorMenuOnSelect (Editor.ctrl v1) = false ∧
         Editor.log v1
         = Editor.log v
           ++ [Editor.RemoveKeyObserver "alt"; Editor.RemoveKeyObserver "trash";
               Editor.RemoveKeyObserver "delete"]
           ++ (if Editor.removeTabObserver (Editor.ctrl v)
               then [Editor.RemoveKeyObserver "tab"] else [])
           ++ [Editor.UnregisterComponent]).
Proof.
  intros H1 H2 H3 H4 H5 H6 H7 H8. split.
  - pose proof (ComponentViewFacts.onDestroy_result w H1 H2 H3 H4) as Hr.
    pose proof (ComponentViewFacts.onDestroy_calls w H1 H2 H3) as Hc.
    cbv zeta in *.
    destruct Hr as (?&?&?&?&?&?&?&?&?&?&?&?&?).
    destruct Hc as (?&?&?&?).
    by repeat (split; [assumption|]).
  - by apply EditorFacts.deinit_calls.
Qed.

Lemma teardown_leaves_timers_pending_witness :
  ComponentView.timeouts
    (ComponentView.step ComponentView.Destroy
       (ComponentView.run ComponentView.activation ComponentView.sample_world))
  = ComponentView.timeouts
      (ComponentView.run ComponentView.activation ComponentView.sample_world).
Proof.
  refine (proj1 (proj1 (teardown_leaves_timers_pending
    (ComponentView.run ComponentView.activation ComponentView.sample_world)
    (Editor.run Editor.three_edits Editor.sample_world)
    (mret tt) _ _ _ _ _ _ _ _))); vm_compute; reflexivity.
Defined.

(** * Further properties of the component view *)

Module ComponentViewMore.
Import ComponentView ComponentViewFacts.
Import EditorFacts(fresh_ids_cancel, fresh_ids_schedule, find_timer_elem,
                   find_timer_schedule, find_timer_Some).

(** ** Activation *)

(** What [handleActivation] does when it goes ahead. *)
Lemma handleActivation_arms w r f :
  component (ctrl w) = Some r →
  active (heap (env w) r) = true →
  application (ctrl w) = true →
  componentManager (env w) = true →
  iframeForComponent (env w) = Some f →
  ∃ w', handleActivation w = (Val tt, w') ∧
        timeouts w' =
          (schedule (clock w) MAX_LOAD_THRESHOLD CbLoadTimeout
             (cancel_handle (loadTimeout (ctrl w)) (timeouts w))).2 ∧
        loadTimeout (ctrl w') = Some (next_id (timeouts w)) ∧
        loading (ctrl w') = true ∧ iframeOnload w' = true ∧
        log w' = log w ∧ promises w' = promises w ∧
        visibilityListener w' = visibilityListener w ∧
        didAttemptReload (ctrl w') = didAttemptReload (ctrl w) ∧
        issueLoading (ctrl w') = issueLoading (ctrl w) ∧
        componentValid (ctrl w') = componentValid (ctrl w).
Proof.
  intros Hc Ha Happ Hcm Hf.
  destruct w as [c t p vl io sl hr dobs lg ck e]; destruct c, e; simpl in *.
  subst. unfold handleActivation. mstep. cbn. rewrite Ha. cbn.
  destruct loadTimeout0; cbn; eexists; repeat split.
Qed.

(** When the component is unbound or inactive, the manager is gone or no
    frame exists yet, [handleActivation] changes nothing. *)
Lemma handleActivation_aborts w :
  (match component (ctrl w) with
   | None => True
   | Some r =>
       active (heap (env w) r) = false ∨ application (ctrl w) = false ∨
       componentManager (env w) = false ∨ iframeForComponent (env w) = None
   end) →
  exec handleActivation w = w.
Proof.
  destruct w as [c t p vl io sl hr dobs lg ck e]; destruct c, e; simpl.
  unfold handleActivation. mstep. cbn.
  destruct component0 as [r|]; [|done]. cbn.
  destruct (active (heap0 r)); cbn; [|done].
  destruct application0; cbn; [|done].
  destruct componentManager0; cbn; [|done].
  destruct iframeForComponent0; cbn; [|done].
  intros [?|[?|[?|?]]]; done.
Qed.


(** ** Frame: what the handlers leave alone *)

(** A property that looks at the load slot and the timer queue only is
    kept by every handler except [handleActivation]. *)
Section LoadFrame.
Context (P : World → Prop).
Context (P_ctrl : ∀ c w, loadTimeout c = loadTimeout (ctrl w) →
                         P w → P (set_ctrl c w)).
Context (P_log : ∀ l w, P w → P (set_log l w)).
Context (P_promises : ∀ l w, P w → P (set_promises l w)).
Context (P_listener : ∀ b w, P w → P (set_visibilityListener b w)).
Context (P_onload : ∀ b w, P w → P (set_iframeOnload b w)).
Context (P_scope : ∀ b w, P w → P (set_scopeListening b w)).
Context (P_handler : ∀ b w, P w → P (set_handlerRegistered b w)).
Context (P_desktop : ∀ b w, P w → P (set_desktopObserving b w)).
Context (P_clock : ∀ z w, P w → P (set_clock z w)).
Context (P_env : ∀ e w, P w → P (set_env e w)).
Context (P_cancel : ∀ id w, P w → P (set_timeouts (cancel id (timeouts w)) w)).
Context (P_schedule : ∀ now d cb w,
           cb ≠ CbLoadTimeout →
           P w → P (set_timeouts (schedule now d cb (timeouts w)).2 w)).
Context (P_activation : preserves P handleActivation).

Lemma frame_setc f :
  (∀ c, loadTimeout (f c) = loadTimeout c) → preserves P (setc f).
Proof. intros Hf. apply preserves_modify. intros w. by apply P_ctrl. Qed.

Lemma frame_emit x : preserves P (emit x).
Proof. apply preserves_modify. intros w. apply P_log. Qed.

Lemma frame_await k : preserves P (await k).
Proof. apply preserves_modify. intros w. apply P_promises. Qed.

Lemma frame_timeout cb d : cb ≠ CbLoadTimeout → preserves P (timeout cb d).
Proof. intros Hcb w Hw. by apply P_schedule. Qed.

Lemma frame_timeout_cancel h : preserves P (timeout_cancel h).
Proof.
  destruct h; [|apply preserves_ret].
  apply preserves_modify. intros w. apply P_cancel.
Qed.

Lemma frame_async m : preserves P m → preserves P (async m).
Proof.
  intros Hm w H. specialize (Hm w H). unfold exec, async in *.
  destruct (m w) as [[a|e] w1]; simpl in *; [done | by apply P_log].
Qed.

Lemma frame_task m w : preserves P m → P w → P (task m w).
Proof.
  intros Hm H. specialize (Hm w H). unfold exec, task in *.
  destruct (m w) as [[a|e] w1]; simpl in *; [done | by apply P_log].
Qed.

Ltac frames :=
  repeat match goal with
    | |- preserves _ (setc _) => apply frame_setc; by intros ?
    | |- preserves _ (getc _) => apply preserves_gets
    | |- preserves _ (emit _) => apply frame_emit
    | |- preserves _ (await _) => apply frame_await
    | |- preserves _ (timeout _ _) => apply frame_timeout; by intros ?
    | |- preserves _ (timeout_cancel _) => apply frame_timeout_cancel
    | |- preserves _ (async _) => apply frame_async
    | |- preserves _ (modify (set_visibilityListener _)) =>
        apply preserves_modify; intros ?; apply P_listener
    | |- preserves _ (modify (set_iframeOnload _)) =>
        apply preserves_modify; intros ?; apply P_onload
    | |- preserves _ (modify (set_scopeListening _)) =>
        apply preserves_modify; intros ?; apply P_scope
    | |- preserves _ (modify (set_handlerRegistered _)) =>
        apply preserves_modify; intros ?; apply P_handler
    | |- preserves _ (modify (set_desktopObserving _)) =>
        apply preserves_modify; intros ?; apply P_desktop
    | |- preserves _ (mret _) => apply preserves_ret
    | |- preserves _ (gets _) => apply preserves_gets
    | |- preserves _ (throw _) => apply preserves_throw
    | |- preserves _ (when _ _) => apply preserves_when
    | |- preserves _ (deref _) => apply preserves_deref
    | |- preserves _ (callable _) => apply preserves_callable
    | |- preserves _ (mbind _ _) => apply preserves_bind; [|intros ?]
    | |- preserves _ (match ?x with _ => _ end) => destruct x
    | |- preserves _ (let _ := _ in _) => cbv zeta
    end.

Lemma frame_manager : preserves P manager.
Proof. unfold manager. frames. Qed.

Lemma frame_reloadStatus d : preserves P (reloadStatus d).
Proof.
  unfold reloadStatus. frames; try apply frame_manager.
Qed.

Lemma frame_reloadComponent : preserves P reloadComponent.
Proof. unfold reloadComponent. frames; apply frame_manager. Qed.

Lemma frame_handleIframeLoadTimeout : preserves P handleIframeLoadTimeout.
Proof.
  unfold handleIframeLoadTimeout, addVisibilityListener. frames.
  apply frame_reloadComponent.
Qed.

Lemma frame_handleIframeLoad f : preserves P (handleIframeLoad f).
Proof. unfold handleIframeLoad. frames; apply frame_manager. Qed.

Lemma frame_onVisibilityChangeHandler : preserves P onVisibilityChangeHandler.
Proof. unfold onVisibilityChangeHandler. frames. apply frame_reloadComponent. Qed.

Lemma frame_onChanges : preserves P onChanges.
Proof.
  unfold onChanges, registerComponentHandlers, registerPackageUpdateObserver.
  frames; apply frame_manager.
Qed.

Lemma frame_onDestroy : preserves P onDestroy.
Proof. unfold onDestroy, removeVisibilityListener. frames. Qed.

Lemma frame_run_callback cb : preserves P (run_callback cb).
Proof.
  destruct cb; simpl; frames.
  - apply P_activation.
  - apply frame_handleIframeLoadTimeout.
Qed.

Lemma frame_run_continuation k : preserves P (run_continuation k).
Proof. destruct k; simpl; try apply frame_reloadStatus. frames. Qed.

Lemma frame_step e w : P w → P (step e w).
Proof.
  intros Hw. destruct e; simpl.
  - by apply P_clock.
  - by apply P_env.
  - unfold take_due.
    destruct (find_timer id (timeouts w)) as [t|]; [|done].
    case_bool_decide; [|done].
    apply frame_task; [apply frame_run_callback | by apply P_cancel].
  - destruct (promises w !! n); [|done].
    apply frame_task; [|by apply P_promises].
    apply frame_async, frame_run_continuation.
  - destruct (iframeOnload w); [|done].
    by apply frame_task; [apply frame_async, frame_handleIframeLoad|].
  - destruct (visibilityListener _);
      [apply frame_task; [apply frame_onVisibilityChangeHandler|] |];
      by apply P_env.
  - destruct (handlerRegistered w); [|done].
    apply frame_task; [|done]. unfold activationHandler. frames.
  - destruct (handlerRegistered w); [|done].
    apply frame_task; [|done]. unfold actionHandler. frames.
    apply frame_manager.
  - destruct (desktopObserving w); [|done].
    apply frame_task; [|done]. unfold packageUpdateObserver. frames.
    apply frame_reloadComponent.
  - destruct (scopeListening w); [|done].
    by apply frame_task; [apply frame_reloadStatus|].
  - apply frame_task; [apply frame_onChanges|]. by apply P_ctrl.
  - by apply frame_task; [apply frame_onDestroy|].
Qed.

Lemma frame_run es w : P w → P (run es w).
Proof.
  revert w. induction es as [|e es IH]; intros w Hw; [done|].
  rewrite run_cons. by apply IH, frame_step.
Qed.
End LoadFrame.


(** ** The load timer *)

#[local] Abbreviation load_of s :=
  (filter (λ t, is_load_timer t = true) (pending s)).

Lemma load_of_cancel id (s : TimeoutService Callback) :
  load_of (cancel id s) = filter (λ t, timer_id t ≠ id) (load_of s).
Proof.
  simpl. induction (pending s) as [|t l IH]; [done|].
  rewrite !filter_cons.
  destruct (decide (timer_id t ≠ id)), (decide (is_load_timer t = true));
    rewrite ?filter_cons, ?decide_True, ?decide_False by done;
    by rewrite ?IH.
Qed.

Lemma load_of_schedule now d cb (s : TimeoutService Callback) :
  load_of (schedule now d cb s).2
  = load_of s ++
    match cb with
    | CbLoadTimeout => [{| timer_id := next_id s; timer_due := (now + d)%Z;
                           timer_cb := cb |}]
    | _ => []
    end.
Proof. simpl. rewrite filter_app. f_equal. by destruct cb. Qed.

Lemma slot_filter (Q : Timer Callback → Prop) `{∀ t, Decision (Q t)}
    (l : list (Timer Callback)) (h : option nat) :
  match l with [] => True | [t] => h = Some (timer_id t) | _ => False end →
  match filter Q l with [] => True | [t] => h = Some (timer_id t) | _ => False end.
Proof.
  destruct l as [|t [|t' l]]; try done.
  rewrite filter_cons, filter_nil. by case_decide.
Qed.

Lemma handleActivation_cases w :
  handleActivation w = (Val tt, w) ∨
  handleActivation w = (Thrown TypeError, w) ∨
  ∃ w', handleActivation w = (Val tt, w') ∧
        timeouts w' =
          (schedule (clock w) MAX_LOAD_THRESHOLD CbLoadTimeout
             (cancel_handle (loadTimeout (ctrl w)) (timeouts w))).2 ∧
        loadTimeout (ctrl w') = Some (next_id (timeouts w)).
Proof.
  destruct (component (ctrl w)) as [r|] eqn:Hc.
  - destruct (active (heap (env w) r)) eqn:Ha;
      [destruct (application (ctrl w)) eqn:Happ;
       [destruct (componentManager (env w)) eqn:Hcm;
        [destruct (iframeForComponent (env w)) as [f|] eqn:Hf|]|]|].
    + right. right.
      destruct (handleActivation_arms w r f Hc Ha Happ Hcm Hf)
        as (w' & ? & ? & ? & _). by exists w'.
    + left. unfold handleActivation, manager. mstep.
      by repeat (cbn; rewrite ?Hc, ?Ha, ?Happ, ?Hcm, ?Hf).
    + right. left. unfold handleActivation, manager. mstep.
      by repeat (cbn; rewrite ?Hc, ?Ha, ?Happ, ?Hcm).
    + right. left. unfold handleActivation, manager. mstep.
      by repeat (cbn; rewrite ?Hc, ?Ha, ?Happ).
    + left. unfold handleActivation. mstep.
      by repeat (cbn; rewrite ?Hc, ?Ha).
  - left. unfold handleActivation. mstep. by rewrite Hc.
Qed.

Lemma handleActivation_load_slot : preserves load_slot handleActivation.
Proof.
  intros w Hw. unfold exec.
  destruct (handleActivation_cases w) as [->|[->|(w' & -> & Ht & Hl)]];
    try done.
  simpl. unfold load_slot, load_timers in *. rewrite Ht, Hl.
  rewrite load_of_schedule.
  assert (Hnil : load_of (cancel_handle (loadTimeout (ctrl w)) (timeouts w))
                 = []).
  { destruct (loadTimeout (ctrl w)) as [id|] eqn:Hid; unfold cancel_handle.
    - rewrite load_of_cancel.
      destruct (load_of (timeouts w)) as [|t [|t' l]]; try done.
      rewrite filter_cons, filter_nil, decide_False; [done|].
      intros Hne. injection Hw as Hw. by rewrite Hw in Hne.
    - by destruct (load_of (timeouts w)) as [|t [|t' l]]. }
  rewrite Hnil. simpl. by destruct (loadTimeout (ctrl w)).
Qed.

Lemma step_load_slot e w : load_slot w → load_slot (step e w).
Proof.
  apply frame_step; try done.
  - intros c w' Hc. unfold load_slot, load_timers. simpl. by rewrite Hc.
  - intros id w'. unfold load_slot, load_timers.
    cbn [timeouts set_timeouts ctrl]. rewrite load_of_cancel.
    apply slot_filter.
  - intros now d cb w' Hcb. unfold load_slot, load_timers.
    cbn [timeouts set_timeouts ctrl]. rewrite load_of_schedule.
    destruct cb; try done; by rewrite app_nil_r.
  - apply handleActivation_load_slot.
Qed.

Lemma handleActivation_fresh :
  preserves (λ w, fresh_ids (timeouts w)) handleActivation.
Proof.
  intros w Hw. unfold exec.
  destruct (handleActivation_cases w) as [->|[->|(w' & -> & Ht & Hl)]];
    try done.
  simpl. rewrite Ht. apply fresh_ids_schedule.
  destruct (loadTimeout (ctrl w)); [by apply fresh_ids_cancel | done].
Qed.

Lemma view_step_fresh e w : fresh_ids (timeouts w) → fresh_ids (timeouts (step e w)).
Proof.
  apply (frame_step (λ w, fresh_ids (timeouts w))); try done.
  - intros id w'. apply fresh_ids_cancel.
  - intros now d cb w' _. apply fresh_ids_schedule.
  - apply handleActivation_fresh.
Qed.

Lemma run_load_slot es w : load_slot w → load_slot (run es w).
Proof.
  revert w. induction es as [|e es IH]; intros w Hw; [done|].
  rewrite run_cons. by apply IH, step_load_slot.
Qed.

Lemma view_run_fresh es w : fresh_ids (timeouts w) → fresh_ids (timeouts (run es w)).
Proof.
  revert w. induction es as [|e es IH]; intros w Hw; [done|].
  rewrite run_cons. by apply IH, view_step_fresh.
Qed.


(** ** Validation *)

(** Everything a validation pass does. *)
Lemma reloadStatus_effect d w r :
  component (ctrl w) = Some r →
  application (ctrl w) = true →
  componentManager (env w) = true →
  let comp := heap (env w) r in
  let restricted := offlineRestrictedOf (isDesktopApplication (env w)) comp in
  let urlError := hasUrlErrorOf (isDesktopApplication (env w)) comp in
  let valid := negb restricted && negb urlError in
  let isExpired := expiredOf (clock w) comp in
  ∃ w', reloadStatus d w = (Val tt, w') ∧
    componentValid (ctrl w') = valid ∧
    error (ctrl w') =
      (if restricted then Some "offline-restricted"%string
       else if urlError then Some "url-missing"%string else None) ∧
    loading (ctrl w') = (valid && loading (ctrl w)) ∧
    expired (ctrl w') = isExpired ∧
    reloading (ctrl w') = true ∧
    issueLoading (ctrl w') = issueLoading (ctrl w) ∧
    loadTimeout (ctrl w') = loadTimeout (ctrl w) ∧
    log w' =
      log w
      ++ (if lockReadonly (env w) then []
          else [SetReadonlyStateForComponent r true])
      ++ (if valid && negb (componentValid (ctrl w))
          then [ReloadComponent (Some r) true] else [])
      ++ (if isExpired && d then [Broadcast "reload-ext-dat"] else []) ∧
    timeouts w' = (schedule (clock w) 500 CbReloadingDone (timeouts w)).2 ∧
    promises w' = promises w ∧ visibilityListener w' = visibilityListener w.
Proof.
  intros Hc Ha Hm.
  destruct w as [c t p vl io sl hr dobs lg ck e]; destruct c, e; simpl in *.
  subst.
  unfold offlineRestrictedOf, hasUrlErrorOf, expiredOf.
  destruct (heap0 r) as [ar nm act off lu hv vu ie ide iee] eqn:Hh.
  unfold reloadStatus. mstep. cbn. rewrite Hh. cbn.
  generalize (truthy lu); intros tl.
  generalize (match vu with Some d0 => bool_decide (d0 ≤ ck)%Z | None => false end).
  intros ex.
  split_ifs; eexists; repeat split; by rewrite <- ?app_assoc, ?app_nil_r.
Qed.


Lemma no_timers_load_slot w :
  pending (timeouts w) = [] → load_slot w ∧ fresh_ids (timeouts w).
Proof.
  intros Hp. unfold load_slot, load_timers, fresh_ids. rewrite Hp.
  repeat split; [apply NoDup_nil_2 | apply Forall_nil_2].
Qed.

(** X1: At most one load timer is ever pending, and [loadTimeout] holds its
    handle. *)
Theorem single_pending_load_timer w es :
  pending (timeouts w) = [] →
  length (load_timers (run es w)) ≤ 1 ∧
  ∀ t, t ∈ load_timers (run es w) →
       loadTimeout (ctrl (run es w)) = Some (timer_id t).
Proof.
  intros Hp. apply no_timers_load_slot in Hp as [Hslot _].
  apply (run_load_slot es) in Hslot. unfold load_slot in Hslot.
  destruct (load_timers (run es w)) as [|t [|t' l]]; try done.
  - split; [simpl; lia | by intros t Ht; inversion Ht].
  - split; [simpl; lia|]. by intros t0 ->%list_elem_of_singleton.
Qed.

Lemma single_pending_load_timer_witness :
  length (load_timers (run late_load sample_world)) ≤ 1.
Proof.
  refine (proj1 (single_pending_load_timer sample_world late_load _)).
  vm_compute; reflexivity.
Defined.

Lemma handleIframeLoad_timeouts f w :
  timeouts (task (async (handleIframeLoad f)) w)
  = cancel_handle (loadTimeout (ctrl w)) (timeouts w) ∧
  loadTimeout (ctrl (task (async (handleIframeLoad f)) w)) = loadTimeout (ctrl w).
Proof.
  destruct w as [c t p vl io sl hr dobs lg ck e]; destruct c, e; simpl.
  unfold handleIframeLoad. mstep.
  destruct loadTimeout0, application0, componentManager0; by cbn.
Qed.

Lemma load_slot_cancel_handle w :
  load_slot w →
  load_of (cancel_handle (loadTimeout (ctrl w)) (timeouts w)) = [].
Proof.
  unfold load_slot, load_timers. intros Hw.
  destruct (loadTimeout (ctrl w)) as [id|] eqn:Hid; unfold cancel_handle.
  - rewrite load_of_cancel.
    destruct (load_of (timeouts w)) as [|t [|t' l]]; try done.
    rewrite filter_cons, filter_nil, decide_False; [done|].
    intros Hne. injection Hw as Hw. by rewrite Hw in Hne.
  - by destruct (load_of (timeouts w)) as [|t [|t' l]].
Qed.

(** X2: The frame's load event cancels the load timer: once the event has been
    handled no load timer is pending, so no load timeout can follow it
    until the component is activated again. *)
Theorem load_event_cancels_load_timer w es f :
  pending (timeouts w) = [] →
  iframeOnload (run es w) = true →
  load_timers (step (IframeLoad f) (run es w)) = [] ∧
  ∀ id, load_times_out (Fire id) (step (IframeLoad f) (run es w)) = false.
Proof.
  intros Hp Hon. apply no_timers_load_slot in Hp as [Hslot _].
  apply (run_load_slot es) in Hslot.
  assert (Hnil : load_timers (step (IframeLoad f) (run es w)) = []).
  { simpl. rewrite Hon. unfold load_timers.
    destruct (handleIframeLoad_timeouts f (run es w)) as [-> _].
    by apply load_slot_cancel_handle. }
  split; [done|]. intros id. simpl. rewrite Hon.
  unfold take_due.
  destruct (find_timer id _) as [t|] eqn:Hf; [|done].
  case_bool_decide; [|done].
  destruct (timer_cb t) eqn:Hcb; try done.
  apply find_timer_Some in Hf as [Hin _].
  assert (Hl : t ∈ load_timers (step (IframeLoad f) (run es w))).
  { unfold load_timers. apply list_elem_of_filter. split.
    - unfold is_load_timer. by rewrite Hcb.
    - simpl. by rewrite Hon. }
  rewrite Hnil in Hl. by inversion Hl.
Qed.

Lemma load_event_cancels_load_timer_witness :
  load_timers
    (step (IframeLoad sample_iframe) (run activation sample_world)) = [].
Proof.
  refine (proj1 (load_event_cancels_load_timer sample_world activation
                   sample_iframe _ _)); vm_compute; reflexivity.
Defined.

(** ** Binding *)

(** X3: Rebinding to another component deregisters the old component before
    it registers the new one; rebinding to the same component calls the
    manager for neither. *)
Theorem rebinding_deregisters_before_registering w a b :
  lastComponentValue (ctrl w) = Some a →
  a ≠ b →
  didRegisterObservers (ctrl w) = true →
  application (ctrl w) = true →
  componentManager (env w) = true →
  (let w' := step (Bind (Some b)) w in
   log w' = log w ++ [DeregisterComponent a; RegisterComponent b] ∧
   promises w' = promises w ++ [AfterRegisterComponent] ∧
   component (ctrl w') = Some b ∧ lastComponentValue (ctrl w') = Some b) ∧
  (let w' := step (Bind (Some a)) w in
   log w' = log w ∧ promises w' = promises w ∧
   lastComponentValue (ctrl w') = Some a) ∧
  (let w' := step (Bind None) w in
   log w' = log w ++ [DeregisterComponent a] ∧ promises w' = promises w ∧
   lastComponentValue (ctrl w') = None).
Proof.
  intros Hl Hab Hd Happ Hcm.
  destruct w as [c t p vl io sl hr dobs lg ck e]; destruct c, e; simpl in *.
  subst. unfold onChanges. mstep. cbn.
  rewrite (bool_decide_eq_false_2 (Some a = Some b)) by congruence.
  rewrite (bool_decide_eq_false_2 (Some b = Some a)) by congruence.
  rewrite (bool_decide_eq_true_2 (Some a = Some a)) by done.
  cbn. repeat split. by rewrite <- app_assoc.
Qed.

Lemma rebinding_deregisters_before_registering_witness :
  log (step (Bind (Some 1)) (run activation sample_world))
  = log (run activation sample_world)
    ++ [DeregisterComponent 0; RegisterComponent 1].
Proof.
  refine (proj1 (proj1 (rebinding_deregisters_before_registering
    (run activation sample_world) 0 1 _ _ _ _ _)));
    first [vm_compute; reflexivity | intros ?; discriminate].
Defined.


(** ** After teardown *)

Ltac torn :=
  repeat match goal with
    | |- preserves _ (setc _) =>
        apply preserves_modify; intros ? (?&?&?&?&?&?); by repeat split
    | |- preserves _ (modify _) =>
        apply preserves_modify; intros ? (?&?&?&?&?&?); by repeat split
    | |- preserves _ (emit _) =>
        apply preserves_modify; intros ? (?&?&?&?&?&?); by repeat split
    | |- preserves _ (await _) =>
        apply preserves_modify; intros ? (?&?&?&?&?&?); by repeat split
    | |- preserves _ (timeout _ _) => by intros ? (?&?&?&?&?&?)
    | |- preserves _ (timeout_cancel ?h) =>
        destruct h; [apply preserves_modify; intros ? (?&?&?&?&?&?);
                     by repeat split | apply preserves_ret]
    | |- preserves _ (async _) =>
        apply preserves_async; [by intros ?? (?&?&?&?&?&?)|]
    | |- preserves _ (getc _) => apply preserves_gets
    | |- preserves _ (mret _) => apply preserves_ret
    | |- preserves _ (gets _) => apply preserves_gets
    | |- preserves _ (throw _) => apply preserves_throw
    | |- preserves _ (when _ _) => apply preserves_when
    | |- preserves _ (deref _) => apply preserves_deref
    | |- preserves _ (callable _) => apply preserves_callable
    | |- preserves _ (mbind _ _) => apply preserves_bind; [|intros ?]
    | |- preserves _ (match ?x with _ => _ end) => destruct x
    | |- preserves _ (let _ := _ in _) => cbv zeta
    end.

Lemma torn_manager : preserves torn_down manager.
Proof. unfold manager. torn. Qed.

Lemma torn_reloadStatus d : preserves torn_down (reloadStatus d).
Proof. unfold reloadStatus. torn; apply torn_manager. Qed.

Lemma torn_reloadComponent : preserves torn_down reloadComponent.
Proof. unfold reloadComponent. torn; apply torn_manager. Qed.

Lemma torn_handleActivation : preserves torn_down handleActivation.
Proof. unfold handleActivation. torn; apply torn_manager. Qed.

Lemma torn_handleIframeLoad f : preserves torn_down (handleIframeLoad f).
Proof. unfold handleIframeLoad. torn; apply torn_manager. Qed.

(** A destroyed controller has no bound listener left to register. *)
Lemma torn_addVisibilityListener : preserves torn_down addVisibilityListener.
Proof.
  intros w Hw. pose proof Hw as (_&_&_&_&_&Hv).
  unfold exec, addVisibilityListener. mstep. by rewrite Hv.
Qed.

Lemma torn_handleIframeLoadTimeout : preserves torn_down handleIframeLoadTimeout.
Proof.
  unfold handleIframeLoadTimeout. torn.
  - apply torn_reloadComponent.
  - apply torn_addVisibilityListener.
Qed.

(** A destroyed controller cannot reach the component manager or the
    desktop service, so it registers nothing. *)
Lemma torn_registerComponentHandlers :
  preserves torn_down registerComponentHandlers.
Proof.
  intros w Hw. pose proof Hw as (_&_&_&_&Ha&_).
  unfold exec, registerComponentHandlers, manager. mstep. by rewrite Ha.
Qed.

Lemma torn_registerPackageUpdateObserver :
  preserves torn_down registerPackageUpdateObserver.
Proof.
  intros w Hw. pose proof Hw as (_&_&_&_&Ha&_).
  unfold exec, registerPackageUpdateObserver. mstep. by rewrite Ha.
Qed.

Lemma torn_onChanges : preserves torn_down onChanges.
Proof.
  unfold onChanges. torn;
    first [apply torn_manager | apply torn_registerComponentHandlers
          | apply torn_registerPackageUpdateObserver].
Qed.

Lemma torn_onDestroy : preserves torn_down onDestroy.
Proof. unfold onDestroy, removeVisibilityListener. torn. Qed.

Lemma torn_task m w : preserves torn_down m → torn_down w → torn_down (task m w).
Proof. by apply preserves_task; intros ?? (?&?&?&?&?&?). Qed.

Lemma torn_step e w : torn_down w → torn_down (step e w).
Proof.
  intros Hw. pose proof Hw as (Hs&Hh&Hd&Hv&Ha&Ho).
  destruct e; simpl; rewrite ?Hs, ?Hh, ?Hd, ?Hv; try done.
  - unfold take_due.
    destruct (find_timer id (timeouts w)) as [t|]; [|done].
    case_bool_decide; [|done].
    apply torn_task; [|done].
    destruct (timer_cb t); simpl; torn.
    + apply torn_handleActivation.
    + apply torn_handleIframeLoadTimeout.
  - destruct (promises w !! n) as [k|]; [|done].
    apply torn_task; [|done]. torn.
    destruct k; simpl; try apply torn_reloadStatus. torn.
  - destruct (iframeOnload w); [|done].
    apply torn_task; [|done]. torn. apply torn_handleIframeLoad.
  - by apply torn_task; [apply torn_onChanges|].
  - by apply torn_task; [apply torn_onDestroy|].
Qed.

Lemma torn_run es w : torn_down w → torn_down (run es w).
Proof.
  revert w. induction es as [|e es IH]; intros w Hw; [done|].
  rewrite run_cons. by apply IH, torn_step.
Qed.

(** X4: Teardown is final: whatever happens afterwards, nothing is registered
    again, and the signals that used to reach the controller through its
    registrations leave it untouched. *)
Theorem teardown_is_final w es :
  cleanUpOn (ctrl w) = true →
  unregisterComponentHandler (ctrl w) = true →
  unregisterDesktopObserver (ctrl w) = true →
  onVisibilityChange (ctrl w) = true →
  let w1 := run es (step Destroy w) in
  torn_down w1 ∧
  (∀ e, is_signal e = true → step e w1 = w1) ∧
  (∀ v, step (VisibilityChange v) w1
        = set_env (set_visibilityState v (env w1)) w1).
Proof.
  intros H1 H2 H3 H4 w1.
  assert (Ht : torn_down w1).
  { apply torn_run.
    destruct (onDestroy_result w H1 H2 H3 H4)
      as (_&_&_&?&?&?&?&_&_&?&?&_). by repeat split. }
  split; [done|]. destruct Ht as (Hs&Hh&Hd&Hv&_). split.
  - intros [] He; simpl in *; try done; by rewrite ?Hs, ?Hh, ?Hd.
  - intros v. simpl. by rewrite Hv.
Qed.

Lemma teardown_is_final_witness :
  torn_down
    (run [Tick 4000; Fire 2; Bind (Some 1); VisibilityChange Visible]
       (step Destroy (run activation sample_world))).
Proof.
  refine (proj1 (teardown_is_final (run activation sample_world)
    [Tick 4000; Fire 2; Bind (Some 1); VisibilityChange Visible] _ _ _ _));
    vm_compute; reflexivity.
Defined.

(** X5: [$onDestroy] cannot be repeated: a second call throws at
    [this.cleanUpOn()] before it changes anything, and the event loop reports
    the exception. *)
Theorem destroy_twice_throws w :
  cleanUpOn (ctrl w) = true →
  unregisterComponentHandler (ctrl w) = true →
  unregisterDesktopObserver (ctrl w) = true →
  let w1 := step Destroy w in
  onDestroy w1 = (Thrown TypeError, w1) ∧
  step Destroy w1 = set_log (log w1 ++ [Uncaught TypeError]) w1 ∧
  log w1 = log w
           ++ match component (ctrl w) with
              | Some r =>
                  if negb (manualDealloc (ctrl w)) && application (ctrl w)
                     && componentManager (env w)
                  then [DeregisterComponent r] else []
              | None => []
              end.
Proof.
  intros H1 H2 H3.
  destruct w as [c t p vl io sl hr dobs lg ck e]; destruct c, e; simpl in *.
  subst. unfold onDestroy, removeVisibilityListener. mstep.
  split_ifs; repeat split; by rewrite ?app_nil_r.
Qed.

Lemma destroy_twice_throws_witness :
  onDestroy (step Destroy (step (Bind (Some 0)) sample_world))
  = (Thrown TypeError, step Destroy (step (Bind (Some 0)) sample_world)).
Proof.
  refine (proj1 (destroy_twice_throws (step (Bind (Some 0)) sample_world) _ _ _));
    vm_compute; reflexivity.
Defined.

(** X6: A promise of the component manager that settles after the teardown
    runs a validation on a controller without component: the validation
    throws before it validates, the rejection is not handled, [reloading]
    stays set and no timer is armed to clear it. *)
Theorem promise_after_teardown w n k :
  component (ctrl w) = None →
  promises w !! n = Some k →
  k = AfterRegisterComponent ∨ k = AfterReloadComponent →
  let w' := step (Resolve n) w in
  w' = set_log (log w ++ [UnhandledRejection TypeError])
         (set_ctrl (set_reloading true (ctrl w))
            (set_promises (delete n (promises w)) w)) ∧
  timeouts w' = timeouts w ∧ reloading (ctrl w') = true.
Proof.
  intros Hc Hp Hk.
  destruct w as [c t p vl io sl hr dobs lg ck e]; destruct c, e; simpl in *.
  subst. rewrite Hp. unfold run_continuation, reloadStatus, async.
  destruct Hk as [-> | ->]; mstep; cbn; done.
Qed.

Lemma promise_after_teardown_witness :
  reloading (ctrl (step (Resolve 0) (step Destroy (step (Bind (Some 0)) sample_world))))
  = true.
Proof.
  refine (proj2 (proj2 (promise_after_teardown
                          (step Destroy (step (Bind (Some 0)) sample_world))
                          0 AfterRegisterComponent _ _ _))).
  - vm_compute; reflexivity.
  - vm_compute; reflexivity.
  - by left.
Defined.



(** ** What a validation pass reports and requests *)

(** X7: The error reason mirrors validity: no error exactly when the
    component is valid, the offline restriction taking precedence over a
    missing URL; an invalid component is never left loading. *)
Theorem reloadStatus_error_reason d w r :
  component (ctrl w) = Some r →
  application (ctrl w) = true →
  componentManager (env w) = true →
  let comp := heap (env w) r in
  let desktop := isDesktopApplication (env w) in
  ∃ w', reloadStatus d w = (Val tt, w') ∧
    (error (ctrl w') = None ↔ componentValid (ctrl w') = true) ∧
    (error (ctrl w') = Some "offline-restricted"%string ↔
       offlineOnly comp = true ∧ desktop = false) ∧
    (error (ctrl w') = Some "url-missing"%string ↔
       ¬ (offlineOnly comp = true ∧ desktop = false) ∧
       componentValid (ctrl w') = false) ∧
    (componentValid (ctrl w') = false → loading (ctrl w') = false) ∧
    (componentValid (ctrl w') = true → loading (ctrl w') = loading (ctrl w)).
Proof.
  intros Hc Ha Hm comp desktop.
  destruct (reloadStatus_effect d w r Hc Ha Hm)
    as (w' & Hr & Hv & He & Hl & _).
  exists w'. split; [done|]. rewrite Hv, He, Hl.
  unfold offlineRestrictedOf, hasUrlErrorOf. fold comp desktop.
  destruct (offlineOnly comp), desktop, (truthy (local_url comp)),
    (hasValidHostedUrl comp); simpl; intuition congruence.
Qed.

Lemma reloadStatus_error_reason_witness :
  ∃ w', reloadStatus true sample_world = (Val tt, w') ∧
        (error (ctrl w') = None ↔ componentValid (ctrl w') = true).
Proof.
  destruct (reloadStatus_error_reason true sample_world 0 eq_refl eq_refl
              eq_refl) as (w' & Hr & He & _).
  exists w'. split; [exact Hr | exact He].
Defined.

(** X8: The calls of a validation pass, in order: readonly is forced unless
    the lock is pinned; a forced reload is requested exactly when validity
    turns from false to true; the re-fetch broadcast goes out exactly when
    the component has expired and the pass is a manual one.  One timer is
    armed, to clear [reloading] after 500ms. *)
Theorem reloadStatus_calls d w r :
  component (ctrl w) = Some r →
  application (ctrl w) = true →
  componentManager (env w) = true →
  ∃ w', reloadStatus d w = (Val tt, w') ∧
    log w' =
      log w
      ++ (if lockReadonly (env w) then []
          else [SetReadonlyStateForComponent r true])
      ++ (if componentValid (ctrl w') && negb (componentValid (ctrl w))
          then [ReloadComponent (Some r) true] else [])
      ++ (if expired (ctrl w') && d then [Broadcast "reload-ext-dat"] else []) ∧
    (expired (ctrl w') = true ↔
       ∃ until, valid_until (heap (env w) r) = Some until ∧
                (until ≤ clock w)%Z) ∧
    timeouts w' = (schedule (clock w) 500 CbReloadingDone (timeouts w)).2 ∧
    promises w' = promises w.
Proof.
  intros Hc Ha Hm.
  destruct (reloadStatus_effect d w r Hc Ha Hm)
    as (w' & Hr & Hv & _ & _ & Hx & _ & _ & _ & Hlog & Ht & Hp & _).
  exists w'. split; [done|]. rewrite Hv, Hx. repeat split; try done.
  - unfold expiredOf. destruct (valid_until _) as [u|]; [|done].
    intros Hu%bool_decide_eq_true. by exists u.
  - intros (u & Hu & Hle). unfold expiredOf. rewrite Hu.
    by apply bool_decide_eq_true.
Qed.

Lemma reloadStatus_calls_witness :
  ∃ w', reloadStatus true sample_world = (Val tt, w') ∧
        timeouts w'
        = (schedule (clock sample_world) 500 CbReloadingDone
             (timeouts sample_world)).2.
Proof.
  destruct (reloadStatus_calls true sample_world 0 eq_refl eq_refl eq_refl)
    as (w' & Hr & _ & _ & Ht & _).
  exists w'. split; [exact Hr | exact Ht].
Defined.

Lemma broadcasts_snoc l x :
  broadcasts (l ++ [x]) = broadcasts l + (if is_broadcast x then 1 else 0).
Proof.
  unfold broadcasts. rewrite filter_app, length_app. f_equal.
  rewrite filter_cons, filter_nil. destruct (is_broadcast x); by case_decide.
Qed.

Lemma no_broadcast_emit k x :
  is_broadcast x = false → preserves (no_broadcast k) (emit x).
Proof.
  intros Hx. apply preserves_modify. intros w Hw. unfold no_broadcast in *.
  simpl. rewrite broadcasts_snoc, Hx. lia.
Qed.

(** X9: The pass that follows "ext-reload-complete" never broadcasts
    "reload-ext-dat": the two cannot feed each other. *)
Theorem ext_reload_complete_never_broadcasts w :
  broadcasts (log (step ExtReloadComplete w)) = broadcasts (log w).
Proof.
  simpl. destruct (scopeListening w); [|done].
  assert (Hp : preserves (no_broadcast (broadcasts (log w))) (reloadStatus false)).
  { unfold reloadStatus, manager.
    repeat match goal with
      | |- preserves _ (setc _) => apply preserves_modify; by intros ??
      | |- preserves _ (getc _) => apply preserves_gets
      | |- preserves _ (gets _) => apply preserves_gets
      | |- preserves _ (mret _) => apply preserves_ret
      | |- preserves _ (deref _) => apply preserves_deref
      | |- preserves _ (callable _) => apply preserves_callable
      | |- preserves _ (timeout _ _) => by intros ??
      | |- preserves _ (when (_ && false) _) =>
          rewrite andb_false_r; apply preserves_ret
      | |- preserves _ (when _ _) => apply preserves_when
      | |- preserves _ (emit _) => apply no_broadcast_emit; reflexivity
      | |- preserves _ (mbind _ _) => apply preserves_bind; [|intros ?]
      | |- preserves _ (let _ := _ in _) => cbv zeta
      end. }
  specialize (Hp w eq_refl). unfold no_broadcast, exec, task in *.
  destruct (reloadStatus false w) as [[a|e] w1]; simpl in *; [done|].
  by rewrite broadcasts_snoc, Nat.add_0_r.
Qed.

(** ** Activation and load completion *)

(** X10: An activation that goes ahead sets [loading], cancels the previous
    load timer and arms one new load timer, due after 4000ms; it goes
    ahead only for a bound, active component whose frame exists, and
    otherwise changes nothing. *)
Theorem activation_arms_load_timer w :
  (∀ r f,
     component (ctrl w) = Some r →
     active (heap (env w) r) = true →
     application (ctrl w) = true →
     componentManager (env w) = true →
     iframeForComponent (env w) = Some f →
     ∃ w', handleActivation w = (Val tt, w') ∧
           loading (ctrl w') = true ∧ iframeOnload w' = true ∧
           loadTimeout (ctrl w') = Some (next_id (timeouts w)) ∧
           timeouts w' =
             (schedule (clock w) 4000 CbLoadTimeout
                (cancel_handle (loadTimeout (ctrl w)) (timeouts w))).2 ∧
           log w' = log w ∧ promises w' = promises w) ∧
  (component (ctrl w) = None → handleActivation w = (Val tt, w)) ∧
  (∀ r, component (ctrl w) = Some r →
        active (heap (env w) r) = false → handleActivation w = (Val tt, w)) ∧
  (∀ r, component (ctrl w) = Some r →
        application (ctrl w) = true → componentManager (env w) = true →
        iframeForComponent (env w) = None → handleActivation w = (Val tt, w)).
Proof.
  split; [|split; [|split]].
  - intros r f Hc Ha Happ Hcm Hf.
    destruct (handleActivation_arms w r f Hc Ha Happ Hcm Hf)
      as (w' & ? & ? & ? & ? & ? & ? & ? & _).
    by exists w'.
  - intros Hc. unfold handleActivation. mstep. by rewrite Hc.
  - intros r Hc Ha. unfold handleActivation. mstep.
    by repeat (cbn; rewrite ?Hc, ?Ha).
  - intros r Hc Happ Hcm Hf. unfold handleActivation, manager. mstep.
    rewrite Hc. cbn. destruct (active (heap (env w) r)); cbn; [|done].
    by repeat (cbn; rewrite ?Happ, ?Hcm, ?Hf).
Qed.

Lemma activation_arms_load_timer_witness :
  ∃ w', handleActivation sample_world = (Val tt, w') ∧
        loading (ctrl w') = true ∧ loadTimeout (ctrl w') = Some 0.
Proof.
  destruct (proj1 (activation_arms_load_timer sample_world) 0 sample_iframe
              eq_refl eq_refl eq_refl eq_refl eq_refl)
    as (w' & Hr & Hl & _ & Ht & _).
  exists w'. split; [exact Hr|]. split; [exact Hl | exact Ht].
Defined.

Lemma handleIframeLoad_effect f w :
  application (ctrl w) = true →
  componentManager (env w) = true →
  let w1 := task (async (handleIframeLoad f)) w in
  timeouts w1 = cancel_handle (loadTimeout (ctrl w)) (timeouts w) ∧
  promises w1 =
    promises w ++
    [AfterRegisterComponentWindow
       (desktopErrorOf (isDesktopApplication (env w)) f)] ∧
  log w1 = log w ++ [RegisterComponentWindow (component (ctrl w))] ∧
  ctrl w1 = ctrl w ∧ clock w1 = clock w ∧ env w1 = env w ∧
  visibilityListener w1 = visibilityListener w.
Proof.
  intros Ha Hm.
  destruct w as [c t p vl io sl hr dobs lg ck e]; destruct c, e; simpl in *.
  subst. unfold handleIframeLoad. mstep. by destruct loadTimeout0; cbn.
Qed.

Lemma resolve_window w n de :
  promises w !! n = Some (AfterRegisterComponentWindow de) →
  let w' := step (Resolve n) w in
  timeouts w' = (schedule (clock w) 7 (CbLoadSettled de) (timeouts w)).2 ∧
  promises w' = delete n (promises w) ∧
  ctrl w' = ctrl w ∧ log w' = log w ∧ clock w' = clock w ∧ env w' = env w.
Proof. intros Hn. simpl. by rewrite Hn. Qed.

Lemma fire_settled w id t de :
  find_timer id (timeouts w) = Some t →
  timer_cb t = CbLoadSettled de →
  (timer_due t ≤ clock w)%Z →
  let w' := step (Fire id) w in
  loading (ctrl w') = false ∧ issueLoading (ctrl w') = de ∧
  log w' = log w ++ (if onLoad (ctrl w) then [OnLoad (component (ctrl w))]
                     else []) ∧
  promises w' = promises w.
Proof.
  intros Hf Hcb Hd. simpl. unfold take_due. rewrite Hf, Hcb.
  rewrite bool_decide_eq_true_2 by done.
  destruct w as [c s p vl io sl hr dobs lg ck e]; destruct c; simpl.
  mstep. destruct onLoad0; cbn; repeat split. by rewrite app_nil_r.
Qed.

(** X11: From the frame's load event to the settled state: the window is
    registered, and 7ms after the registration resolves [loading] is
    cleared, [issueLoading] tells whether the desktop origin probe failed,
    and [onLoad] is called if bound.  Outside the desktop application, and
    when reading the origin throws, the probe never fails. *)
Theorem load_completion_settles w f :
  fresh_ids (timeouts w) →
  iframeOnload w = true →
  application (ctrl w) = true →
  componentManager (env w) = true →
  let w3 :=
    run [IframeLoad f; Resolve (length (promises w)); Tick 7;
         Fire (next_id (timeouts w))] w in
  loading (ctrl w3) = false ∧
  issueLoading (ctrl w3) = desktopErrorOf (isDesktopApplication (env w)) f ∧
  (isDesktopApplication (env w) = false ∨ contentWindow_origin f = OriginThrows →
   issueLoading (ctrl w3) = false) ∧
  log w3 =
    log w ++ [RegisterComponentWindow (component (ctrl w))]
    ++ (if onLoad (ctrl w) then [OnLoad (component (ctrl w))] else []) ∧
  promises w3 = promises w.
Proof.
  intros Hf Hon Ha Hm.
  set (de := desktopErrorOf (isDesktopApplication (env w)) f).
  set (w1 := step (IframeLoad f) w).
  set (w2 := step (Resolve (length (promises w))) w1).
  set (w2' := step (Tick 7) w2).
  assert (H1 : timeouts w1 = cancel_handle (loadTimeout (ctrl w)) (timeouts w) ∧
               promises w1 = promises w ++ [AfterRegisterComponentWindow de] ∧
               log w1 = log w ++ [RegisterComponentWindow (component (ctrl w))] ∧
               ctrl w1 = ctrl w ∧ clock w1 = clock w).
  { unfold w1. simpl. rewrite Hon.
    by destruct (handleIframeLoad_effect f w Ha Hm) as (?&?&?&?&?&_). }
  destruct H1 as (Ht1 & Hp1 & Hl1 & Hc1 & Hk1).
  assert (Hlook : promises w1 !! length (promises w)
                  = Some (AfterRegisterComponentWindow de)).
  { rewrite Hp1. by apply list_lookup_middle. }
  destruct (resolve_window w1 _ de Hlook) as (Ht2 & Hp2 & Hc2 & Hl2 & Hk2 & _).
  fold w2 in Ht2, Hp2, Hc2, Hl2, Hk2.
  set (s0 := cancel_handle (loadTimeout (ctrl w)) (timeouts w)) in *.
  assert (Hf0 : fresh_ids s0 ∧ next_id s0 = next_id (timeouts w)).
  { unfold s0. destruct (loadTimeout (ctrl w)); simpl; [|done].
    split; [by apply fresh_ids_cancel | done]. }
  destruct Hf0 as [Hf0 Hn0].
  assert (Hfind : find_timer (next_id (timeouts w)) (timeouts w2')
                  = Some {| timer_id := next_id (timeouts w);
                            timer_due := (clock w + 7)%Z;
                            timer_cb := CbLoadSettled de |}).
  { change (timeouts w2') with (timeouts w2).
    rewrite Ht2, Ht1, Hk1, <- Hn0. by apply find_timer_schedule. }
  assert (Hdue : (clock w + 7 ≤ clock w2')%Z).
  { change (clock w2') with (clock w2 + Z.of_nat 7)%Z. rewrite Hk2, Hk1. lia. }
  destruct (fire_settled w2' _ _ de Hfind eq_refl Hdue) as (Hl & Hi & Hlog & Hp).
  change (run _ w) with (step (Fire (next_id (timeouts w))) w2').
  split; [done|]. split; [done|]. split; [|split].
  - rewrite Hi. unfold de, desktopErrorOf. intros [-> | ->]; [done|].
    apply andb_false_r.
  - rewrite Hlog. change (log w2') with (log w2).
    change (ctrl w2') with (ctrl w2).
    by rewrite Hl2, Hl1, Hc2, Hc1, <- app_assoc.
  - rewrite Hp. change (promises w2') with (promises w2).
    rewrite Hp2, Hp1. by rewrite (delete_middle (promises w) []), app_nil_r.
Qed.

Lemma load_completion_settles_witness :
  loading
    (ctrl (run [IframeLoad sample_iframe;
                Resolve (length (promises (run activation sample_world)));
                Tick 7;
                Fire (next_id (timeouts (run activation sample_world)))]
             (run activation sample_world)))
  = false.
Proof.
  refine (proj1 (load_completion_settles (run activation sample_world)
                   sample_iframe _ _ _ _)); try (vm_compute; reflexivity).
  split; apply (bool_decide_unpack _); vm_compute; exact I.
Defined.

(** ** Foreign components *)

(** X12: A view reacts to its own component only: an activation or a package
    update that names another component changes nothing at all, and
    neither does a package update of the bound component while it is
    inactive. *)
Theorem foreign_components_ignored w c :
  component (ctrl w) ≠ Some c ∨ active (heap (env w) c) = false →
  step (PackageUpdated c) w = w ∧
  (component (ctrl w) ≠ Some c → step (Activated c) w = w).
Proof.
  intros Hc. split.
  - simpl. destruct (desktopObserving w); [|done].
    unfold packageUpdateObserver. mstep.
    destruct Hc as [Hc | ->].
    + rewrite bool_decide_eq_false_2; [done | congruence].
    + by rewrite andb_false_r.
  - intros Hne. simpl. destruct (handlerRegistered w); [|done].
    unfold activationHandler. mstep.
    rewrite bool_decide_eq_false_2; [done | congruence].
Qed.

Lemma foreign_components_ignored_witness :
  step (PackageUpdated 1) (run activation sample_world)
  = run activation sample_world.
Proof.
  refine (proj1 (foreign_components_ignored (run activation sample_world) 1 _)).
  left. vm_compute. discriminate.
Defined.

End ComponentViewMore.

(** * Further properties of the editor panel *)

Module EditorMore.
Import Editor EditorFacts.

#[local] Arguments lookup : simpl never.
#[local] Arguments insert : simpl never.

(** ** The status timer *)

(** A property that looks at the status slot and the timer queue only is
    kept by every event once [setStatus] keeps it. *)
Section StatusFrame.
Context (P : World → Prop).
Context (P_ctrl : ∀ c w, statusTimeout c = statusTimeout (ctrl w) →
                         P w → P (set_ctrl c w)).
Context (P_log : ∀ l w, P w → P (set_log l w)).
Context (P_items : ∀ i w, P w → P (set_items i w)).
Context (P_clock : ∀ z w, P w → P (set_clock z w)).
Context (P_env : ∀ e w, P w → P (set_env e w)).
Context (P_cancel : ∀ id w, P w → P (set_timeouts (cancel id (timeouts w)) w)).
Context (P_sync : ∀ now d w,
           P w → P (set_timeouts (schedule now d CbSync (timeouts w)).2 w)).
Context (P_setStatus : ∀ status wait, preserves P (setStatus status wait)).

Ltac frames :=
  repeat match goal with
    | |- preserves _ (setStatus _ _) => apply P_setStatus
    | |- preserves _ showSavingStatus => apply P_setStatus
    | |- preserves _ (setState _) =>
        apply preserves_modify; intros ?; by apply P_ctrl
    | |- preserves _ (setc _) =>
        apply preserves_modify; intros ?; by apply P_ctrl
    | |- preserves _ (emit _) => apply preserves_modify; intros ?; apply P_log
    | |- preserves _ (changeItem _ _ _) =>
        apply preserves_modify; intros w' ?;
        destruct (items w' !! _); [by apply P_items | done]
    | |- preserves _ (timeout CbSync _) => intros ? ?; by apply P_sync
    | |- preserves _ (timeout_cancel ?h) =>
        destruct h; [apply preserves_modify; intros ?; apply P_cancel
                    | apply preserves_ret]
    | |- preserves _ (findItem _) => apply preserves_gets
    | |- preserves _ getState => apply preserves_gets
    | |- preserves _ (getc _) => apply preserves_gets
    | |- preserves _ (mret _) => apply preserves_ret
    | |- preserves _ (gets _) => apply preserves_gets
    | |- preserves _ (throw _) => apply preserves_throw
    | |- preserves _ (when _ _) => apply preserves_when
    | |- preserves _ (deref _) => apply preserves_deref
    | |- preserves _ (forEach _ _) => apply preserves_forEach; intros ?
    | |- preserves _ (mbind _ _) => apply preserves_bind; [|intros ?]
    | |- preserves _ (match ?x with _ => _ end) => destruct x
    | |- preserves _ (let _ := _ in _) => cbv zeta
    end.

Lemma status_frame_saveNote b u d f : preserves P (saveNote b u d f).
Proof. unfold saveNote, performFirefoxPinnedTabFix. frames. Qed.

Lemma status_frame_onAppEvent ev : preserves P (onAppEvent ev).
Proof.
  unfold onAppEvent, showAllChangesSavedStatus, showErrorStatus. frames.
Qed.

Lemma status_frame_activationHandler c : preserves P (activationHandler c).
Proof.
  unfold activationHandler, reloadComponentContext, reloadComponentStackArray.
  frames.
Qed.

Lemma status_frame_task m w : preserves P m → P w → P (task m w).
Proof.
  intros Hm H. specialize (Hm w H). unfold exec, task in *.
  destruct (m w) as [[a|e] w1]; simpl in *; [done | by apply P_log].
Qed.

Lemma status_frame_step e w : P w → P (step e w).
Proof.
  intros Hw. destruct e; simpl.
  - by apply P_clock.
  - by apply P_env.
  - by apply P_items.
  - apply status_frame_task; [|done]. frames.
  - apply status_frame_task; [|done]. frames.
  - unfold take_due.
    destruct (find_timer id (timeouts w)) as [t|]; [|done].
    case_bool_decide; [|done].
    apply status_frame_task; [|by apply P_cancel].
    destruct (timer_cb t); simpl; frames.
  - by apply status_frame_task; [apply status_frame_saveNote|].
  - by apply status_frame_task; [apply status_frame_onAppEvent|].
  - by apply status_frame_task; [apply status_frame_activationHandler|].
  - apply status_frame_task; [|done]. unfold actionHandlerSaveItems. frames.
Qed.
End StatusFrame.

Lemma status_of_cancel id s :
  status_of (cancel id s) = filter (λ t, timer_id t ≠ id) (status_of s).
Proof.
  unfold status_of. simpl. induction (pending s) as [|t l IH]; [done|].
  rewrite !filter_cons.
  destruct (decide (timer_id t ≠ id)), (decide (is_status_timer t = true));
    rewrite ?filter_cons, ?decide_True, ?decide_False by done;
    by rewrite ?IH.
Qed.

Lemma status_of_schedule now d cb s :
  status_of (schedule now d cb s).2
  = status_of s ++
    match cb with
    | CbSync => []
    | CbSetStatus _ =>
        [{| timer_id := next_id s; timer_due := (now + d)%Z; timer_cb := cb |}]
    end.
Proof.
  unfold status_of. simpl. rewrite filter_app. f_equal. by destruct cb.
Qed.

Lemma setStatus_status_slot status wait :
  preserves status_slot (setStatus status wait).
Proof.
  intros w Hw.
  destruct (setStatus_result status wait w) as (w' & Hr & Ht & Hst & _).
  unfold exec. rewrite Hr. simpl. unfold status_slot in *.
  rewrite Ht, Hst, status_of_schedule, timeouts_cancel_handle.
  assert (Hnil : status_of (cancel_handle (statusTimeout (ctrl w)) (timeouts w))
                 = []).
  { destruct (statusTimeout (ctrl w)) as [id|] eqn:Hid; unfold cancel_handle.
    - rewrite status_of_cancel.
      destruct (status_of (timeouts w)) as [|t [|t' l]]; try done.
      rewrite filter_cons, filter_nil, decide_False; [done|].
      intros Hne. injection Hw as Hw. by rewrite Hw in Hne.
    - by destruct (status_of (timeouts w)) as [|t [|t' l]]. }
  rewrite Hnil. simpl. by destruct (statusTimeout (ctrl w)).
Qed.

Lemma step_status_slot e w : status_slot w → status_slot (step e w).
Proof.
  apply status_frame_step; try done.
  - intros c w' Hc. unfold status_slot. simpl. by rewrite Hc.
  - intros id w'. unfold status_slot. cbn [timeouts set_timeouts ctrl].
    rewrite status_of_cancel. apply single_slot_filter.
  - intros now d w'. unfold status_slot. cbn [timeouts set_timeouts ctrl].
    by rewrite status_of_schedule, app_nil_r.
  - apply setStatus_status_slot.
Qed.

(** X13: At most one status timer is ever pending, and [statusTimeout] holds
    its handle: a status message waiting to be shown is replaced, never
    queued behind another. *)
Theorem single_pending_status_timer w es :
  pending (timeouts w) = [] →
  length (status_of (timeouts (run es w))) ≤ 1 ∧
  ∀ t, t ∈ status_of (timeouts (run es w)) →
       statusTimeout (ctrl (run es w)) = Some (timer_id t).
Proof.
  intros Hp.
  assert (Hslot : status_slot (run es w)).
  { assert (H0 : status_slot w) by (unfold status_slot, status_of; by rewrite Hp).
    clear Hp. revert w H0. induction es as [|e es IH]; intros w H0; [done|].
    rewrite editor_run_cons. by apply IH, step_status_slot. }
  unfold status_slot in Hslot.
  destruct (status_of (timeouts (run es w))) as [|t [|t' l]]; try done.
  - split; [simpl; lia | by intros t Ht; inversion Ht].
  - split; [simpl; lia|]. by intros t0 ->%list_elem_of_singleton.
Qed.

Lemma single_pending_status_timer_witness :
  length (status_of (timeouts (run three_edits sample_world))) ≤ 1.
Proof.
  refine (proj1 (single_pending_status_timer sample_world three_edits _)).
  vm_compute; reflexivity.
Defined.


(** ** Application events *)

Ltac open_world w :=
  let wc := fresh "wc" in
  let wst := fresh "wst" in
  destruct w as [wc t it lg ck e];
  destruct wc as [wst ev sv stt ? ? ? ? ? ? ? ? ? ?];
  destruct wst as [nt se sl sel ns tc cs]; simpl in *.

Ltac finish :=
  repeat match goal with
    | H : true = false |- _ => discriminate H
    | H : false = true |- _ => discriminate H
    | |- _ ∧ _ => split
    | |- _ → _ => intros ?
    | |- ∃ _, _ => eexists
    | |- _ = _ =>
        first [ reflexivity
              | rewrite Z.max_l by lia; reflexivity
              | rewrite Z.max_r by lia; reflexivity ]
    end.

(** X14: Without a note the application events are ignored: whatever events
    arrive, in whatever number, the controller, the timers, the item store
    and the log stay as they were. *)
Theorem app_events_need_a_note (evs : list ApplicationEvent) (w : World) :
  note (state (ctrl w)) = None → run (AppEvent <$> evs) w = w.
Proof.
  intros Hn. induction evs as [|ev evs IH]; [done|].
  rewrite fmap_cons, editor_run_cons.
  replace (step (AppEvent ev) w) with w; [exact IH|].
  simpl. unfold onAppEvent. mstep. by rewrite Hn.
Qed.

Lemma app_events_need_a_note_witness :
  run (AppEvent <$> [FailedSync; CompletedSync; LocalDatabaseWriteError])
    (step (Elsewhere (set_note None)) sample_world)
  = step (Elsewhere (set_note None)) sample_world.
Proof.
  refine (app_events_need_a_note [FailedSync; CompletedSync; LocalDatabaseWriteError]
            (step (Elsewhere (set_note None)) sample_world) _).
  reflexivity.
Defined.

(** X15: A completed sync never touches the status while the note is dirty;
    otherwise it shows "All changes saved", and leaves the error state,
    exactly when the controller was in the error state or the note's last
    sync has ended after it began. *)
Theorem completed_sync_status w n :
  note (state (ctrl w)) = Some n →
  let saved :=
    match lastSyncEnd n, lastSyncBegan n with
    | Some e, Some b => bool_decide (b < e)%Z
    | _, _ => false
    end in
  let shows := negb (dirty n) && (saveError (state (ctrl w)) || saved) in
  ∃ w', onAppEvent CompletedSync w = (Val tt, w') ∧
        syncTakingTooLong (state (ctrl w')) = false ∧
        noteStatus (state (ctrl w')) = noteStatus (state (ctrl w)) ∧
        items w' = items w ∧ log w' = log w ∧
        (shows = false →
         timeouts w' = timeouts w ∧
         saveError (state (ctrl w')) = saveError (state (ctrl w)) ∧
         statusTimeout (ctrl w') = statusTimeout (ctrl w)) ∧
        (shows = true →
         saveError (state (ctrl w')) = false ∧
         statusTimeout (ctrl w') = Some (next_id (timeouts w)) ∧
         timeouts w' =
           (schedule (clock w) (status_delay w)
              (CbSetStatus {| message := Some "All changes saved"%string;
                              desc := None; date := None |})
              (cancel_handle (statusTimeout (ctrl w)) (timeouts w))).2).
Proof.
  intros Hn. open_world w. subst.
  unfold onAppEvent, showAllChangesSavedStatus, setStatus, status_delay.
  mstep. cbn.
  destruct (dirty n); cbn.
  { eexists. repeat split; done. }
  destruct se; cbn;
    [|destruct (lastSyncEnd n) as [le|]; cbn;
      [destruct (lastSyncBegan n) as [lb|]; cbn;
       [destruct (bool_decide (lb < le)%Z); cbn|]|]].
  all: try (eexists; repeat split; done).
  all: destruct ns as [[? ? [shown|]]|]; cbn;
    try case_bool_decide; destruct stt; cbn; eexists; finish.
Qed.

Lemma completed_sync_status_witness :
  ∃ w', onAppEvent CompletedSync sample_world = (Val tt, w') ∧
        syncTakingTooLong (state (ctrl w')) = false.
Proof.
  destruct (completed_sync_status sample_world sample_note eq_refl)
    as (w' & Hr & Hs & _).
  exists w'. split; [exact Hr | exact Hs].
Defined.

(** X16: A failed sync is reported only for a dirty note, as "Sync Unreachable";
    a local database write error is always reported, as "Offline Saving
    Issue".  Reporting enters the error state and arms the status timer;
    nothing is alerted and no sync is requested. *)
Theorem sync_failures_reported w n :
  note (state (ctrl w)) = Some n →
  (dirty n = false → onAppEvent FailedSync w = (Val tt, w)) ∧
  (∀ ev message' desc',
     (ev = FailedSync ∧ dirty n = true ∧
      message' = "Sync Unreachable"%string ∧
      desc' = "Changes saved offline"%string) ∨
     (ev = LocalDatabaseWriteError ∧
      message' = "Offline Saving Issue"%string ∧
      desc' = "Changes not saved"%string) →
     ∃ w',
       onAppEvent ev w = (Val tt, w') ∧
       saveError (state (ctrl w')) = true ∧
       syncTakingTooLong (state (ctrl w')) = false ∧
       statusTimeout (ctrl w') = Some (next_id (timeouts w)) ∧
       timeouts w' =
         (schedule (clock w) (status_delay w)
            (CbSetStatus {| message := Some message'; desc := Some desc';
                            date := None |})
            (cancel_handle (statusTimeout (ctrl w)) (timeouts w))).2 ∧
       log w' = log w ∧ items w' = items w).
Proof.
  intros Hn. open_world w. subst. split.
  - intros Hd. unfold onAppEvent. mstep. cbn. by rewrite Hd.
  - intros event m ds [(-> & Hd & -> & ->)|(-> & -> & ->)];
      unfold onAppEvent, showErrorStatus, setStatus, status_delay; mstep; cbn;
      rewrite ?Hd; cbn;
      destruct ns as [[? ? [shown|]]|]; cbn;
      try case_bool_decide; destruct stt; cbn; eexists; finish.
Qed.

Lemma sync_failures_reported_witness :
  onAppEvent FailedSync sample_world = (Val tt, sample_world).
Proof.
  refine (proj1 (sync_failures_reported sample_world sample_note _) _);
    reflexivity.
Defined.


(** ** What a save stores *)

(** X17: An accepted [saveNote] rewrites the note's own entry of the item store
    and no other: the entry takes its title and text from the editor and
    is marked dirty; when previews are not updated and there is no custom
    mutation, every other field of the stored item stays. *)
Theorem saveNote_stores_editor_values b u d f w n item :
  note (state (ctrl w)) = Some n →
  deleted n = false →
  items w !! uuid n = Some item →
  ∃ w' item',
    saveNote b u d f w = (Val tt, w') ∧
    items w' !! uuid n = Some item' ∧
    (∀ id, id ≠ uuid n → items w' !! id = items w !! id) ∧
    title item' = values_title (editorValues (ctrl w)) ∧
    text item' = values_text (editorValues (ctrl w)) ∧
    dirty item' = true ∧
    (d = true → f = None →
     item' = set_dirty true
               (set_text (values_text (editorValues (ctrl w)))
                  (set_title (values_title (editorValues (ctrl w))) item)) ∧
     uuid item' = uuid item ∧
     preview_plain item' = preview_plain item ∧
     preview_html item' = preview_html item ∧
     pinned item' = pinned item ∧ locked item' = locked item ∧
     trashed item' = trashed item ∧ archived item' = archived item).
Proof.
  intros Hn Hd Hi.
  destruct (saveNote_accepted b u d f w n item Hn Hd Hi)
    as (w' & Hs & Hit & _).
  eexists w', _. split; [exact Hs|]. split.
  { rewrite Hit. apply lookup_insert_eq. }
  split.
  { intros id Hid. rewrite Hit. by apply lookup_insert_ne. }
  unfold saved_item.
  split; [by destruct d|]. split; [by destruct d|]. split; [by destruct d|].
  intros -> ->. by repeat split.
Qed.

Lemma saveNote_stores_editor_values_witness :
  ∃ w' item',
    saveNote false true true None sample_world = (Val tt, w') ∧
    items w' !! "note-1"%string = Some item' ∧
    text item' = Some (units "Text, edited").
Proof.
  destruct (saveNote_stores_editor_values false true true None sample_world
              sample_note sample_note eq_refl eq_refl eq_refl)
    as (w' & item' & Hs & Hi & _ & _ & Ht & _).
  exists w', item'. split; [exact Hs|]. split; [exact Hi | exact Ht].
Defined.

(** X18: A text of at most 80 code units is its own preview; a longer text
    is cut to its first 80 code units followed by the ellipsis, so that no
    preview is longer than 80 code units plus the ellipsis. *)
Theorem preview_is_bounded (ellipses t : jsstring) :
  (length t ≤ 80 → previewPlain ellipses t = t) ∧
  (80 < length t →
   previewPlain ellipses t = take 80 t ++ ellipses ∧
   length (previewPlain ellipses t) = 80 + length ellipses) ∧
  length (previewPlain ellipses t) ≤ 80 + length ellipses ∧
  take 80 t `prefix_of` t.
Proof.
  unfold previewPlain, NOTE_PREVIEW_CHAR_LIMIT. rewrite substring_from_0.
  pose proof (length_take t 80) as Hlen.
  split; [|split; [|split]].
  - intros Hs. rewrite bool_decide_eq_false_2 by lia.
    by rewrite take_ge, app_nil_r.
  - intros Hl. rewrite bool_decide_eq_true_2 by done. split; [done|].
    rewrite length_app, Hlen. lia.
  - case_bool_decide; rewrite length_app, Hlen; cbn [length]; lia.
  - apply prefix_take.
Qed.

(** ** Activation of editor-panel components *)

(** X19: In the editor area: a selected editor that was deactivated is
    deselected, with or without a note; with no editor selected and a note
    present, the activated component is selected when it is active and
    either explicitly enabled for the note or the default editor, and the
    selection is cleared otherwise.  Without a note nothing changes, unless
    the component is the selected editor and inactive.  The note, the
    timers and the item store are never touched. *)
Theorem editor_activation_selection c w :
  area (heap (env w) c) = "editor-editor"%string →
  let comp := heap (env w) c in
  ∃ w', activationHandler c w = (Val tt, w') ∧
    note (state (ctrl w')) = note (state (ctrl w)) ∧
    tagsComponent (state (ctrl w')) = tagsComponent (state (ctrl w)) ∧
    timeouts w' = timeouts w ∧ items w' = items w ∧ log w' = log w ∧
    (selectedEditor (state (ctrl w')) = selectedEditor (state (ctrl w)) ∨
     selectedEditor (state (ctrl w')) = None ∨
     selectedEditor (state (ctrl w')) = Some c) ∧
    (selectedEditor (state (ctrl w)) = Some c → active comp = false →
     selectedEditor (state (ctrl w')) = None) ∧
    (∀ n, selectedEditor (state (ctrl w)) = None →
          note (state (ctrl w)) = Some n →
          selectedEditor (state (ctrl w')) =
            if active comp
               && (isExplicitlyEnabledForItem comp (uuid n)
                   || isDefaultEditor comp)
            then Some c else None) ∧
    (note (state (ctrl w)) = None →
     selectedEditor (state (ctrl w)) ≠ Some c ∨ active comp = true →
     w' = w).
Proof.
  intros Ha comp. subst comp. open_world w.
  destruct e as [hp dh na cfs s1 s2 s3]. simpl in *.
  unfold activationHandler. mstep. cbn. rewrite Ha. cbn.
  destruct (active (hp c)) eqn:Hact; cbn;
    rewrite ?andb_false_r, ?andb_true_r; cbn.
  - destruct sel as [s|]; cbn.
    + destruct nt as [n|]; cbn.
      * destruct (active (hp s)); cbn;
          [destruct (isExplicitlyEnabledForItem (hp c) (uuid n)
                     && negb (isExplicitlyEnabledForItem (hp s) (uuid n)));
           cbn|];
          eexists; repeat split; auto; try done; by intros.
      * eexists; repeat split; auto; try done; by intros.
    + destruct nt as [n|]; cbn.
      * destruct (isExplicitlyEnabledForItem (hp c) (uuid n)
                  || isDefaultEditor (hp c)) eqn:Hen; cbn;
          eexists; repeat split; auto; try done;
          intros n' _ [= <-]; by rewrite Hen.
      * eexists; repeat split; auto; try done; by intros.
  - destruct (bool_decide (sel = Some c)) eqn:Hsel; cbn.
    + apply bool_decide_eq_true in Hsel. subst sel.
      eexists; repeat split; auto; try done.
      intros _ [H|H]; [by contradict H | done].
    + apply bool_decide_eq_false in Hsel.
      destruct sel as [s|]; cbn.
      * destruct nt as [n|]; cbn.
        -- destruct (active (hp s)); cbn;
             [destruct (isExplicitlyEnabledForItem (hp c) (uuid n)
                        && negb (isExplicitlyEnabledForItem (hp s) (uuid n)));
              cbn|];
             eexists; repeat split; auto; try done; by intros.
        -- eexists; repeat split; auto; try done; by intros.
      * destruct nt as [n|]; cbn;
          eexists; repeat split; auto; try done; by intros.
Qed.

Lemma editor_activation_selection_witness :
  ∃ w', activationHandler 1 default_editor_selected = (Val tt, w') ∧
        note (state (ctrl w')) = note (state (ctrl default_editor_selected)).
Proof.
  destruct (editor_activation_selection 1 default_editor_selected eq_refl)
    as (w' & Hr & Hn & _).
  exists w'. split; [exact Hr | exact Hn].
Defined.

(** X20: In the tags area the activated component becomes the tags component
    while it is active, and the tags component is cleared otherwise;
    nothing else changes.  From then on an active tags component is handed
    the note when it asks for its context, and a deactivated one is handed
    nothing unless it is also the selected editor or on the stack. *)
Theorem tags_activation c w :
  area (heap (env w) c) = "note-tags"%string →
  ∃ w', activationHandler c w = (Val tt, w') ∧
    tagsComponent (state (ctrl w')) =
      (if active (heap (env w) c) then Some c else None) ∧
    selectedEditor (state (ctrl w')) = selectedEditor (state (ctrl w)) ∧
    note (state (ctrl w')) = note (state (ctrl w)) ∧
    componentStack (state (ctrl w')) = componentStack (state (ctrl w)) ∧
    timeouts w' = timeouts w ∧ items w' = items w ∧ log w' = log w ∧
    (active (heap (env w) c) = true →
     contextRequestHandler (state (ctrl w')) c
     = Return (note (state (ctrl w)))) ∧
    (active (heap (env w) c) = false →
     selectedEditor (state (ctrl w)) ≠ Some c →
     c ∉ componentStack (state (ctrl w)) →
     contextRequestHandler (state (ctrl w')) c = Undefined).
Proof.
  intros Ha. open_world w. destruct e as [hp dh na cfs s1 s2 s3]. simpl in *.
  unfold activationHandler. mstep. cbn. rewrite Ha. cbn.
  eexists. split; [reflexivity|]. cbn. do 7 (split; [done|]).
  unfold contextRequestHandler. cbn. split.
  - intros ->. rewrite (bool_decide_eq_true_2 (Some c = Some c)) by done.
    by rewrite orb_true_r.
  - intros -> Hsel Hst.
    by rewrite !bool_decide_eq_false_2.
Qed.

Lemma tags_activation_witness :
  ∃ w', activationHandler 0 (step (Surroundings sample_tags_env) sample_world)
        = (Val tt, w') ∧
        tagsComponent (state (ctrl w')) = Some 0.
Proof.
  destruct (tags_activation 0 (step (Surroundings sample_tags_env) sample_world)
              eq_refl) as (w' & Hr & Ht & _).
  exists w'. split; [exact Hr | exact Ht].
Defined.

(** ** The component stack *)

Lemma forEach_hidden id stack w :
  forEach stack (λ c,
    comp ← gets (λ w, heap (env w) c);
    when (active comp)
      (emit (SetComponentHidden c
               (negb (isExplicitlyEnabledForItem comp id))))) w
  = (Val tt, set_log (log w ++ hidden_calls (heap (env w)) id stack) w).
Proof.
  revert w. induction stack as [|c l IH]; intros w.
  - unfold hidden_calls. simpl. rewrite app_nil_r. by destruct w.
  - simpl. mstep. unfold hidden_calls. rewrite filter_cons.
    destruct (active (heap (env w) c)) eqn:Ha.
    + rewrite decide_True by done. rewrite IH. simpl.
      by rewrite <- app_assoc.
    + rewrite decide_False by (by intros ?). rewrite IH. by destruct w.
Qed.

(** X21: Reloading the component context takes the stack from the component
    manager, then shows every active stack component that is explicitly
    enabled for the note and hides every other active one, leaving the
    inactive ones alone, and finally announces the context change to the
    tags, stack and editor areas, in this order. *)
Theorem reloadComponentContext_calls w :
  let stack := componentsForEditorStack (env w) in
  ∃ w', reloadComponentContext w = (Val tt, w') ∧
    componentStack (state (ctrl w')) = stack ∧
    note (state (ctrl w')) = note (state (ctrl w)) ∧
    selectedEditor (state (ctrl w')) = selectedEditor (state (ctrl w)) ∧
    timeouts w' = timeouts w ∧ items w' = items w ∧
    log w' =
      log w
      ++ match note (state (ctrl w)) with
         | Some n => hidden_calls (heap (env w)) (uuid n) stack
         | None => []
         end
      ++ [ContextItemDidChangeInArea "note-tags";
          ContextItemDidChangeInArea "editor-stack";
          ContextItemDidChangeInArea "editor-editor"] ∧
    (∀ id c h,
       SetComponentHidden c h ∈ hidden_calls (heap (env w)) id stack ↔
       c ∈ stack ∧ active (heap (env w) c) = true ∧
       h = negb (isExplicitlyEnabledForItem (heap (env w) c) id)).
Proof.
  intros stack.
  assert (Hmem : ∀ id c h,
    SetComponentHidden c h ∈ hidden_calls (heap (env w)) id stack ↔
    c ∈ stack ∧ active (heap (env w) c) = true ∧
    h = negb (isExplicitlyEnabledForItem (heap (env w) c) id)).
  { intros id c h. unfold hidden_calls. rewrite list_elem_of_fmap. split.
    - intros (c' & [= -> ->] & [Ha Hin]%list_elem_of_filter). done.
    - intros (Hin & Ha & ->). exists c. split; [done|].
      by apply list_elem_of_filter. }
  unfold reloadComponentContext, reloadComponentStackArray.
  unfold mbind at 1 2 3 4 5, M_bind. unfold gets at 1, setState, setc, modify.
  unfold getState, getc, gets at 1. cbn [fst snd].
  destruct w as [wc t it lg ck e];
    destruct wc as [wst ev sv stt ? ? ? ? ? ? ? ? ? ?];
    destruct wst as [nt se sl sel ns tc cs]; simpl in *.
  destruct nt as [n|].
  - cbn. rewrite forEach_hidden. cbn. mstep. cbn.
    eexists. split; [reflexivity|]. do 5 (split; [done|]).
    split; [|exact Hmem]. simpl. by rewrite <- !app_assoc.
  - cbn. mstep. cbn.
    eexists. split; [reflexivity|]. do 5 (split; [done|]).
    split; [|exact Hmem]. simpl. by rewrite <- !app_assoc.
Qed.

End EditorMore.

(** * Properties of the tab key, the toggles and the teardown *)

Module EditorKeysFacts.
Import Editor EditorFacts EditorMore EditorKeys.

#[local] Arguments lookup : simpl never.
#[local] Arguments insert : simpl never.

(** X22: Where the browser does not insert the tab itself, the observer
    replaces the selection by four spaces: the text before the selection
    and the text behind it stay, the four code units in between are
    spaces, and the collapsed cursor stands right behind them.  Offsets
    count UTF-16 code units. *)
Theorem tab_replaces_selection (editor : HTMLInputElement) :
  selectionStart editor ≤ selectionEnd editor →
  selectionEnd editor ≤ length (value editor) →
  let start := selectionStart editor in
  let editor' := insertSpaces editor in
  value editor'
    = take start (value editor) ++ units "    "
      ++ drop (selectionEnd editor) (value editor) ∧
  substring 0 start (value editor') = substring 0 start (value editor) ∧
  substring start (start + 4) (value editor') = units "    " ∧
  substringFrom (start + 4) (value editor')
    = substringFrom (selectionEnd editor) (value editor) ∧
  length (value editor') + (selectionEnd editor - start)
    = length (value editor) + 4 ∧
  selectionStart editor' = start + 4 ∧ selectionEnd editor' = start + 4.
Proof.
  intros Hse Hel start editor'. subst start editor'. unfold insertSpaces.
  destruct editor as [v s e]. simpl in *.
  rewrite !substring_from_0. unfold substringFrom.
  set (p := take s v). set (sfx := drop e v).
  assert (Hp : length p = s) by (unfold p; rewrite length_take; lia).
  assert (Hsfx : length sfx = length v - e) by apply length_drop.
  assert (H4 : length (units "    ") = 4) by reflexivity.
  split; [by rewrite <- app_assoc|].
  split; [rewrite <- app_assoc; by apply take_app_length'|].
  split; [|split; [|split; [|done]]].
  - unfold substring. rewrite Nat.max_r, Nat.min_l by lia.
    replace (s + 4 - s) with 4 by lia.
    rewrite <- app_assoc, (drop_app_length' p) by done.
    by apply take_app_length'.
  - apply drop_app_length'. rewrite length_app. lia.
  - rewrite !length_app, Hp, Hsfx, H4. lia.
Qed.

Lemma tab_replaces_selection_witness :
  value (insertSpaces sample_textarea) = units "let    ".
Proof.
  refine (proj1 (tab_replaces_selection sample_textarea _ _)); simpl; lia.
Defined.

(** X23: The tab key does nothing, not even [preventDefault], while the note
    is locked or shift is held (text and offsets are in UTF-16 code units).  Otherwise the text of the text area is
    copied to [editorValues.text] and saved without debouncing: the stored
    note gets this text, and the one sync timer is due 100ms later.  The
    preview stored with it is still that of the text the note had before. *)
Theorem tab_key_saves shiftKey execCommand editor w n item :
  note (state (ctrl w)) = Some n →
  deleted n = false →
  items w !! uuid n = Some item →
  let editor' :=
    match execCommand with
    | Some inserted => inserted
    | None => insertSpaces editor
    end in
  (locked n || shiftKey = true →
   tabKeyDown shiftKey execCommand editor w = (Val (editor, false), w)) ∧
  (locked n || shiftKey = false →
   ∃ w' item',
     tabKeyDown shiftKey execCommand editor w = (Val (editor', true), w') ∧
     values_text (editorValues (ctrl w')) = Some (value editor') ∧
     values_title (editorValues (ctrl w')) = values_title (editorValues (ctrl w)) ∧
     items w' !! uuid n = Some item' ∧
     text item' = Some (value editor') ∧
     title item' = values_title (editorValues (ctrl w)) ∧
     dirty item' = true ∧
     preview_plain item'
       = Some (previewPlain (STRING_ELLIPSES (env w)) (default [] (text n))) ∧
     timeouts w' = queue_after_save SAVE_TIMEOUT_NO_DEBOUNCE w ∧
     saveTimeout (ctrl w') = Some (S (next_id (timeouts w))) ∧
     syncs (log w') = syncs (log w)).
Proof.
  intros Hn Hd Hi editor'. split.
  - intros Hl. unfold tabKeyDown. mstep. rewrite Hn. cbn. by rewrite Hl.
  - intros Hl.
    set (w2 := set_ctrl (set_editorValues
                           {| values_title := values_title (editorValues (ctrl w));
                              values_text := Some (value editor') |} (ctrl w)) w).
    assert (Hn2 : note (state (ctrl w2)) = Some n) by (by destruct w as [[] ?]).
    assert (Hi2 : items w2 !! uuid n = Some item) by (by destruct w as [[] ?]).
    destruct (saveNote_accepted true false false None w2 n item Hn2 Hd Hi2)
      as (w' & Hs & Hit & _ & _ & _ & _ & Hev & _).
    destruct (saveNote_accepted_queue true false false None w2 n item Hn2 Hd Hi2)
      as (Hq & Hsv & _ & Hsy & _).
    unfold task in Hq, Hsv, Hsy. rewrite Hs in Hq, Hsv, Hsy.
    exists w', (saved_item false None (editorValues (ctrl w2))
                  (STRING_ELLIPSES (env w2)) n item).
    split.
    { unfold tabKeyDown. mstep. rewrite Hn. cbn. rewrite Hl. cbn.
      fold editor'. fold w2.
      change (set_ctrl _ w) with w2. by rewrite Hs. }
    rewrite Hev, Hit, Hq, Hsv, Hsy.
    destruct w as [[] ?]. simpl.
    split; [done|]. split; [done|].
    split; [apply lookup_insert_eq|].
    by repeat split.
Qed.

Lemma tab_key_saves_witness :
  ∃ w', tabKeyDown false None sample_textarea sample_world
        = (Val (insertSpaces sample_textarea, true), w') ∧
        values_text (editorValues (ctrl w')) = Some (units "let    ").
Proof.
  destruct (tab_key_saves false None sample_textarea sample_world
              sample_note sample_note eq_refl eq_refl eq_refl)
    as [_ H].
  destruct (H eq_refl) as (w' & item' & Hr & Hv & _).
  exists w'. split; [exact Hr | exact Hv].
Defined.

(** ** The toggles *)

(** X24: Pin, lock, archive and preview toggles store the negation of the
    flag of the note held in the controller state, whatever the stored item
    has; the rest of the stored item is kept, but for title and text, which
    come from the editor; the previews are left alone, and the sync timer
    is due after 100ms. *)
Theorem toggles_negate_the_snapshot w n item :
  note (state (ctrl w)) = Some n →
  deleted n = false →
  items w !! uuid n = Some item →
  let stored (f : NoteMutator → NoteMutator) :=
    set_dirty true
      (set_text (values_text (editorValues (ctrl w)))
         (set_title (values_title (editorValues (ctrl w))) (f item))) in
  let after (m : M World unit) (f : NoteMutator → NoteMutator) :=
    ∃ w', m w = (Val tt, w') ∧
          items w' = <[uuid n := stored f]> (items w) ∧
          timeouts w' = queue_after_save SAVE_TIMEOUT_NO_DEBOUNCE w ∧
          state (ctrl w') = state (ctrl w) in
  after togglePin (set_pinned (negb (pinned n))) ∧
  after toggleLockNote (set_locked (negb (locked n))) ∧
  after toggleArchiveNote (set_archived (negb (archived n))) ∧
  after toggleNotePreview (set_hidePreview (negb (hidePreview n))) ∧
  pinned (stored (set_pinned (negb (pinned n)))) = negb (pinned n) ∧
  preview_plain (stored (set_pinned (negb (pinned n)))) = preview_plain item.
Proof.
  intros Hn Hd Hi stored after.
  assert (H : ∀ f, ∃ w', saveNote true false true (Some f) w = (Val tt, w') ∧
            items w' = <[uuid n := stored f]> (items w) ∧
            timeouts w' = queue_after_save SAVE_TIMEOUT_NO_DEBOUNCE w ∧
            state (ctrl w') = state (ctrl w)).
  { intros f.
    destruct (saveNote_accepted true false true (Some f) w n item Hn Hd Hi)
      as (w' & Hs & Hit & _ & _ & _ & Hst & _).
    destruct (saveNote_accepted_queue true false true (Some f) w n item Hn Hd Hi)
      as (Hq & _).
    unfold task in Hq. rewrite Hs in Hq.
    exists w'. by repeat split. }
  subst after. cbv beta.
  unfold togglePin, toggleLockNote, toggleArchiveNote, toggleNotePreview.
  mstep. rewrite Hn. cbn.
  split; [apply H|]. split; [apply H|]. split; [apply H|]. split; [apply H|].
  by split.
Qed.

Lemma toggles_negate_the_snapshot_witness :
  ∃ w', togglePin sample_world = (Val tt, w') ∧
        state (ctrl w') = state (ctrl sample_world).
Proof.
  destruct (toggles_negate_the_snapshot sample_world sample_note sample_note
              eq_refl eq_refl eq_refl) as ((w' & Hr & _ & _ & Hs) & _).
  exists w'. split; [exact Hr | exact Hs].
Defined.

(** ** Teardown *)

(** X25: A teardown cannot be repeated: the first [deinit] drops the key
    observers and the component handler before it hands over to the base
    class, so that a second [deinit] on what the first left throws at its
    first call and changes nothing. *)
Theorem deinit_twice_throws super_deinit w :
  removeAltKeyObserver (ctrl w) = true →
  removeTrashKeyObserver (ctrl w) = true →
  removeDeleteKeyObserver (ctrl w) = true →
  unregisterComponent (ctrl w) = true →
  ∃ w1, deinit super_deinit w = super_deinit w1 ∧
        removeAltKeyObserver (ctrl w1) = false ∧
        removeTabObserver (ctrl w1) = false ∧
        unregisterComponent (ctrl w1) = false ∧
        log w1 = log w
                 ++ [RemoveKeyObserver "alt"; RemoveKeyObserver "trash";
                     RemoveKeyObserver "delete"]
                 ++ (if removeTabObserver (ctrl w)
                     then [RemoveKeyObserver "tab"] else [])
                 ++ [UnregisterComponent] ∧
        ∀ again, deinit again w1 = (Thrown TypeError, w1).
Proof.
  intros H1 H2 H3 H4.
  destruct w as [c t it lg ck e];
    destruct c as [st ev sv stt ? ? ? rt ? ? ? ? ? ?]; simpl in *. subst.
  unfold deinit. mstep.
  destruct rt; cbn; eexists; (split; [reflexivity|]); cbn;
    repeat split; by rewrite <- ?app_assoc.
Qed.

Lemma deinit_twice_throws_witness :
  ∃ w1, deinit (mret tt) sample_world = (Val tt, w1) ∧
        deinit (mret tt) w1 = (Thrown TypeError, w1).
Proof.
  destruct (deinit_twice_throws (mret tt) sample_world eq_refl eq_refl eq_refl
              eq_refl) as (w1 & Hr & _ & _ & _ & _ & Hagain).
  exists w1. split; [exact Hr | exact (Hagain (mret tt))].
Defined.

End EditorKeysFacts.

(** * Properties of the menus *)

Module EditorMenusFacts.
Import EditorMenus.

#[local] Arguments lookup : simpl never.
#[local] Arguments insert : simpl never.

Lemma menuState_lookup (exclude : option string) (l : list string)
    (acc : gmap string bool) (m : string) :
  foldl (λ menuState candidate,
           if bool_decide (Some candidate ≠ exclude)
           then <[candidate := false]> menuState
           else menuState) acc l !! m
  = if bool_decide (m ∈ l ∧ Some m ≠ exclude) then Some false else acc !! m.
Proof.
  revert acc. induction l as [|c l IH]; intros acc; cbn [foldl].
  - rewrite bool_decide_eq_false_2; [done|]. intros [H _]. by apply elem_of_nil in H.
  - rewrite IH. case_bool_decide as Hin.
    + rewrite bool_decide_eq_true_2; [done|]. destruct Hin. split; [by right|done].
    + case_bool_decide as Hc.
      * destruct (decide (m = c)) as [->|Hne].
        -- rewrite lookup_insert_eq. rewrite bool_decide_eq_true_2; [done|].
           split; [by left|done].
        -- rewrite lookup_insert_ne by done.
           rewrite bool_decide_eq_false_2; [done|].
           intros [[->|H]%elem_of_cons Hx]; [done|]. by apply Hin.
      * rewrite bool_decide_eq_false_2; [done|].
        intros [[->|H]%elem_of_cons Hx]; [done|]. by apply Hin.
Qed.

Lemma closeAllMenus_lookup exclude st m :
  closeAllMenus exclude st !! m
  = if bool_decide (m ∈ allMenus ∧ Some m ≠ exclude) then Some false
    else st !! m.
Proof.
  unfold closeAllMenus, setState, MenuState. cbv zeta.
  rewrite lookup_union, menuState_lookup.
  rewrite lookup_empty. case_bool_decide.
  - destruct (_ !! m); reflexivity.
  - by rewrite (left_id None _).
Qed.

Lemma setMenuState_lookup menu state st m :
  setMenuState menu state st !! m
  = if bool_decide (m = menu) then Some state
    else if bool_decide (m ∈ allMenus) then Some false
    else st !! m.
Proof.
  unfold setMenuState. rewrite closeAllMenus_lookup. unfold setState, MenuState.
  rewrite lookup_union.
  destruct (decide (m = menu)) as [->|Hne].
  - rewrite bool_decide_eq_false_2 by (intros [_ H]; by apply H).
    rewrite lookup_singleton_eq, bool_decide_eq_true_2 by done.
    destruct (_ !! menu); reflexivity.
  - rewrite lookup_singleton_ne by done. rewrite (left_id None _).
    rewrite (bool_decide_eq_false_2 (m = menu)) by done.
    case_bool_decide as H1; case_bool_decide as H2; try done.
    + destruct H2. apply H1.
    + destruct H1. split; [done|]. by intros [= ->].
Qed.

Lemma open_menus_elem st m :
  m ∈ open_menus st ↔ m ∈ allMenus ∧ st !! m = Some true.
Proof. unfold open_menus. rewrite list_elem_of_filter. tauto. Qed.

Lemma NoDup_allMenus : NoDup allMenus.
Proof. apply (bool_decide_unpack _). vm_compute. exact I. Qed.

Lemma open_menus_NoDup st : NoDup (open_menus st).
Proof. apply NoDup_filter, NoDup_allMenus. Qed.

Lemma length_at_most_one {A} (l : list A) (a : A) :
  NoDup l → (∀ x, x ∈ l → x = a) → length l ≤ 1.
Proof.
  intros Hnd Ha. destruct l as [|x [|y l]]; simpl; try lia.
  exfalso. apply NoDup_cons in Hnd as [Hx _]. apply Hx.
  rewrite (Ha x), <- (Ha y); [by left| right; by left | by left].
Qed.

(** X26: Opening or closing a menu through [setMenuState] leaves at most one
    of the four menus open: the named one, when it was given [true]; every
    other menu of [allMenus] is closed, and every other key of the state is
    left as it was.  [closeAllMenus] without an exception leaves none
    open. *)
Theorem setMenuState_one_menu_open menu state st :
  length (open_menus (setMenuState menu state st)) ≤ 1 ∧
  (∀ m, m ∈ open_menus (setMenuState menu state st) ↔
        m = menu ∧ state = true ∧ menu ∈ allMenus) ∧
  (∀ m, m ∈ allMenus → m ≠ menu →
        setMenuState menu state st !! m = Some false) ∧
  (∀ k, k ∉ allMenus → k ≠ menu →
        setMenuState menu state st !! k = st !! k) ∧
  setMenuState menu state st !! menu = Some state ∧
  open_menus (closeAllMenus None st) = [].
Proof.
  assert (Hel : ∀ m, m ∈ open_menus (setMenuState menu state st) ↔
                     m = menu ∧ state = true ∧ menu ∈ allMenus).
  { intros m. rewrite open_menus_elem, setMenuState_lookup. split.
    - intros [Hin Hl]. case_bool_decide as Hm.
      + subst. by injection Hl as ->.
      + by rewrite bool_decide_eq_true_2 in Hl.
    - intros (-> & -> & Hin). by rewrite bool_decide_eq_true_2. }
  split; [|split; [exact Hel|split; [|split; [|split]]]].
  - apply (length_at_most_one _ menu); [apply open_menus_NoDup|].
    intros x Hx. by apply Hel in Hx as [-> _].
  - intros m Hin Hne. rewrite setMenuState_lookup.
    by rewrite bool_decide_eq_false_2, bool_decide_eq_true_2.
  - intros k Hin Hne. rewrite setMenuState_lookup.
    by rewrite !bool_decide_eq_false_2.
  - rewrite setMenuState_lookup. by rewrite bool_decide_eq_true_2.
  - destruct (open_menus (closeAllMenus None st)) as [|m l] eqn:E; [done|].
    assert (Hm : m ∈ open_menus (closeAllMenus None st))
      by (rewrite E; by left).
    apply open_menus_elem in Hm as [Hin Hl].
    rewrite closeAllMenus_lookup in Hl.
    by rewrite bool_decide_eq_true_2 in Hl.
Qed.

(** X27: Toggling a menu while another one is open switches menus: the
    other menu is closed and the toggled one is the only one open. *)
Theorem toggleMenu_switches a b st :
  a ∈ allMenus → b ∈ allMenus → a ≠ b →
  open_menus (toggleMenu b (setMenuState a true st)) = [b] ∧
  toggleMenu b (setMenuState a true st) !! a = Some false.
Proof.
  intros Ha Hb Hne.
  assert (Hl : setMenuState a true st !! b = Some false).
  { rewrite setMenuState_lookup.
    by rewrite bool_decide_eq_false_2, bool_decide_eq_true_2. }
  unfold toggleMenu. rewrite Hl. simpl. split.
  - assert (Hel : ∀ m, m ∈ open_menus (setMenuState b true (setMenuState a true st))
                       ↔ m ∈ [b]).
    { intros m. rewrite open_menus_elem, setMenuState_lookup, list_elem_of_singleton.
      split.
      - intros [Hin H]. case_bool_decide; [done|].
        by rewrite bool_decide_eq_true_2 in H.
      - intros ->. by rewrite bool_decide_eq_true_2. }
    pose proof (open_menus_NoDup (setMenuState b true (setMenuState a true st)))
      as Hnd.
    destruct (open_menus _) as [|x [|y l]].
    + specialize (Hel b). destruct Hel as [_ H].
      exfalso. eapply elem_of_nil, H. by left.
    + f_equal. apply list_elem_of_singleton, Hel. by left.
    + exfalso. apply NoDup_cons in Hnd as [Hx _]. apply Hx.
      assert (x = b) as -> by (apply list_elem_of_singleton, Hel; by left).
      assert (y = b) as -> by (apply list_elem_of_singleton, Hel; right; by left).
      by left.
  - rewrite setMenuState_lookup.
    rewrite bool_decide_eq_false_2 by done. by rewrite bool_decide_eq_true_2.
Qed.

Lemma toggleMenu_switches_witness :
  open_menus (toggleMenu "showEditorMenu"
                (setMenuState "showOptionsMenu" true ∅))
  = ["showEditorMenu"%string].
Proof.
  refine (proj1 (toggleMenu_switches "showOptionsMenu" "showEditorMenu" ∅ _ _ _)).
  - unfold allMenus. set_solver.
  - unfold allMenus. set_solver.
  - done.
Defined.

(** X28: Toggling the same menu twice puts its flag back (an undefined flag
    comes back as [false]) and leaves every other menu closed: it is the
    same as setting the menu to what it was. *)
Theorem toggleMenu_twice menu st :
  toggleMenu menu (toggleMenu menu st)
  = setMenuState menu (default false (st !! menu)) st.
Proof.
  apply map_eq. intros m. unfold toggleMenu.
  rewrite !setMenuState_lookup.
  rewrite (bool_decide_eq_true_2 (menu = menu)) by done. simpl.
  rewrite negb_involutive. repeat case_bool_decide; done.
Qed.

End EditorMenusFacts.

(** * Properties of the tags *)

Module EditorTagsFacts.
Import EditorTags.

Lemma split_nonempty sep s : split sep s ≠ [].
Proof.
  destruct s as [|c s]; simpl; [done|].
  case_bool_decide; [done|]. by destruct (split sep s).
Qed.

(** The model of [split] is the inverse of joining, and no segment holds
    the separator. *)
Lemma join_split sep s : join sep (split sep s) = s.
Proof.
  induction s as [|c s IH]; simpl; [done|].
  pose proof (split_nonempty sep s) as Hne.
  case_bool_decide as Hc.
  - subst. destruct (split sep s) as [|seg segs] eqn:E; [done|].
    simpl. by rewrite <- IH.
  - destruct (split sep s) as [|seg segs] eqn:E; [done|].
    rewrite <- IH. by destruct segs.
Qed.

Lemma split_no_separator sep s seg : seg ∈ split sep s → sep ∉ seg.
Proof.
  revert seg. induction s as [|c s IH]; simpl; intros seg.
  - intros ->%list_elem_of_singleton. apply not_elem_of_nil.
  - pose proof (split_nonempty sep s) as Hne.
    case_bool_decide as Hc.
    + intros [->|H]%elem_of_cons; [apply not_elem_of_nil | by apply IH].
    + destruct (split sep s) as [|sg segs] eqn:E; [done|].
      intros [->|H]%elem_of_cons.
      * intros [->|H]%elem_of_cons; [done|]. eapply IH; [by left|done].
      * apply IH. by right.
Qed.

Section Trim.
Context (WhiteSpace : N → bool).

Lemma trimStart_suffix s : trimStart WhiteSpace s `suffix_of` s.
Proof.
  induction s as [|c s IH]; simpl; [done|].
  destruct (WhiteSpace c); [by apply suffix_cons_r | done].
Qed.

Lemma trimStart_head s c t :
  trimStart WhiteSpace s = c :: t → WhiteSpace c = false.
Proof.
  induction s as [|a s IH]; simpl; [done|].
  destruct (WhiteSpace a) eqn:E; [done|]. by intros [= <- _].
Qed.

Lemma trimStart_nil s :
  trimStart WhiteSpace s = [] ↔ Forall (λ c, WhiteSpace c = true) s.
Proof.
  induction s as [|a s IH]; simpl; [done|].
  destruct (WhiteSpace a) eqn:E.
  - rewrite IH. split; [by constructor | by inversion 1].
  - split; [done|]. inversion 1; congruence.
Qed.

Lemma trim_elem s c : c ∈ trim WhiteSpace s → c ∈ s.
Proof.
  unfold trim, trimEnd. intros H.
  rewrite elem_of_reverse in H.
  eapply elem_of_suffix in H; [|apply trimStart_suffix].
  rewrite elem_of_reverse in H.
  eapply elem_of_suffix; [exact H | apply trimStart_suffix].
Qed.

Lemma trim_head s c t : trim WhiteSpace s = c :: t → WhiteSpace c = false.
Proof.
  unfold trim, trimEnd. intros H.
  destruct (trimStart WhiteSpace s) as [|a u] eqn:E; [done|].
  pose proof (trimStart_head _ _ _ E) as Ha.
  assert (Hs : trimStart WhiteSpace (reverse (a :: u)) `suffix_of` reverse (a :: u))
    by apply trimStart_suffix.
  destruct Hs as [k Hk].
  apply (f_equal reverse) in Hk.
  rewrite reverse_involutive, reverse_app, H in Hk.
  destruct (reverse (trimStart WhiteSpace (reverse (a :: u)))) eqn:E2; [done|].
  injection H as -> ->. simpl in Hk. by injection Hk as -> _.
Qed.

Lemma trim_last s u c : trim WhiteSpace s = u ++ [c] → WhiteSpace c = false.
Proof.
  unfold trim, trimEnd. intros H.
  apply (f_equal reverse) in H. rewrite reverse_involutive, reverse_snoc in H.
  by apply trimStart_head in H.
Qed.

Lemma trimStart_Forall s :
  Forall (λ c, WhiteSpace c = true) (trimStart WhiteSpace s) →
  Forall (λ c, WhiteSpace c = true) s.
Proof.
  induction s as [|a s IH]; simpl; [done|].
  destruct (WhiteSpace a) eqn:E; [|done].
  intros H. constructor; [done | by apply IH].
Qed.

Lemma trim_nil s : trim WhiteSpace s = [] ↔ Forall (λ c, WhiteSpace c = true) s.
Proof.
  unfold trim, trimEnd. split.
  - intros H. apply (f_equal reverse) in H. rewrite reverse_involutive in H.
    simpl in H. apply trimStart_nil in H.
    rewrite Forall_reverse in H. by apply trimStart_Forall.
  - intros H. apply trimStart_nil in H. by rewrite H.
Qed.

(** X29: Every string read from the tags input is free of ['#'] and has no
    white space at either end; it is the trimmed form of a non-empty
    segment of the input.  The empty string is among them exactly when
    some non-empty segment between two ['#'] is all white space: segments
    are filtered before they are trimmed. *)
Theorem inputStrings_clean (v : jsstring) :
  (∀ t, t ∈ inputStrings WhiteSpace v →
        (HASH ∉ t) ∧
        (∀ c u, t = c :: u → WhiteSpace c = false) ∧
        (∀ c u, t = u ++ [c] → WhiteSpace c = false) ∧
        ∃ seg, seg ∈ split HASH v ∧ seg ≠ [] ∧ t = trim WhiteSpace seg) ∧
  ([] ∈ inputStrings WhiteSpace v ↔
   ∃ seg, seg ∈ split HASH v ∧ seg ≠ [] ∧
          Forall (λ c, WhiteSpace c = true) seg).
Proof.
  assert (Hel : ∀ t, t ∈ inputStrings WhiteSpace v ↔
                     ∃ seg, seg ∈ split HASH v ∧ seg ≠ [] ∧
                            t = trim WhiteSpace seg).
  { intros t. unfold inputStrings. rewrite list_elem_of_fmap. split.
    - intros (seg & -> & [Hlen Hin]%list_elem_of_filter).
      exists seg. split; [done|]. split; [|done]. by destruct seg; simpl in *; [lia|].
    - intros (seg & Hin & Hne & ->). exists seg. split; [done|].
      apply list_elem_of_filter. split; [|done]. destruct seg; simpl; [done|lia]. }
  split.
  - intros t Ht. apply Hel in Ht as (seg & Hin & Hne & ->).
    split; [|split; [|split]].
    + intros Hh. eapply split_no_separator; [exact Hin|].
      by apply trim_elem in Hh.
    + intros c u. apply trim_head.
    + intros c u. apply trim_last.
    + by exists seg.
  - rewrite Hel. split.
    + intros (seg & Hin & Hne & Ht). exists seg.
      split; [done|]. split; [done|]. by apply trim_nil.
    + intros (seg & Hin & Hne & Hall). exists seg.
      split; [done|]. split; [done|]. symmetry. by apply trim_nil.
Qed.

End Trim.

Lemma inputStrings_clean_witness :
  [] ∈ inputStrings (λ c, bool_decide (c = 32%N)) [35; 32; 35; 119]%N.
Proof.
  refine (proj2 (proj2 (inputStrings_clean (λ c, bool_decide (c = 32%N))
                          [35; 32; 35; 119]%N)) _).
  exists [32%N]. split; [|split].
  - apply (bool_decide_unpack _). vm_compute. exact I.
  - discriminate.
  - by repeat constructor.
Defined.

(** X30: After [saveTagsFromStrings] the titles of the note's tags are, as
    a set, the given strings: a tag is taken away exactly when its title
    is not among them, and [findOrCreateTag] is asked exactly for the
    strings no current tag has as its title, in the order they are given. *)
Theorem tags_reconciled (strings : list jsstring) (currentTags : list SNTag) :
  (∀ title, title ∈ titlesAfter strings currentTags ↔ title ∈ strings) ∧
  (∀ tag, tag ∈ removeTags strings currentTags ↔
          tag ∈ currentTags ∧ tag_title tag ∉ strings) ∧
  (∀ title, title ∈ newRelationships strings currentTags ↔
            title ∈ strings ∧ title ∉ tag_title <$> currentTags) ∧
  newRelationships strings currentTags `sublist_of` strings.
Proof.
  assert (Hrm : ∀ tag, tag ∈ removeTags strings currentTags ↔
                       tag ∈ currentTags ∧ tag_title tag ∉ strings).
  { intros tag. unfold removeTags. rewrite list_elem_of_filter. tauto. }
  assert (Hnew : ∀ title, title ∈ newRelationships strings currentTags ↔
                          title ∈ strings ∧ title ∉ tag_title <$> currentTags).
  { intros title. unfold newRelationships. rewrite list_elem_of_filter. tauto. }
  split; [|split; [exact Hrm|split; [exact Hnew|]]].
  - intros title. unfold titlesAfter. rewrite elem_of_app, Hnew.
    rewrite list_elem_of_fmap. split.
    + intros [(tag & -> & [Hk Hin]%list_elem_of_filter)|[H _]]; [|done].
      rewrite Hrm in Hk.
      destruct (decide (tag_title tag ∈ strings)); [done|]. by destruct Hk.
    + intros Hin.
      destruct (decide (title ∈ tag_title <$> currentTags)) as [Hc|Hc]; [|by right].
      left. apply list_elem_of_fmap in Hc as (tag & -> & Htag).
      exists tag. split; [done|]. apply list_elem_of_filter. split; [|done].
      rewrite Hrm. by intros [_ H].
  - apply sublist_filter.
Qed.

End EditorTagsFacts.
